(** * bycycle: burst detection and group feature computation

    A shallow embedding of [bycycle/burst.py] and
    [bycycle/group/features.py].  Python objects that are mutated in
    place (data frames, keyword dictionaries) live in a store and are
    passed by reference; Python exceptions are the [Raise] outcome of a
    small error monad. *)

From Stdlib Require Import ZArith Floats Lia.
From stdpp Require Import base list strings gmap.

(** ** Exceptions and the error monad *)

Inductive exn : Type :=
  | IndexError                 (* list assignment index out of range *)
  | KeyError (k : string)      (* missing data frame column *)
  | LengthMismatch             (* length of values does not match length of index *)
  | DuplicateLabels            (* cannot reindex on an axis with duplicate labels *)
  | DanglingRef                (* a reference to no object: not a Python state *)
  | ShapeMismatch              (* the ValueError raised by the kwargs checks *)
  | InhomogeneousShape         (* the ValueError of np.array on a ragged nested list *)
  | RangeStepZero              (* range() arg 3 must not be zero *)
  | UnpackError                (* not enough values to unpack *)
  | PoolSizeError              (* Pool: number of processes must be at least 1 *)
  | PoolStuck.                 (* a task that no worker ever completes *)

Inductive result (A : Type) : Type :=
  | Ok (a : A)
  | Raise (e : exn).
Arguments Ok {A} a.
Arguments Raise {A} e.

#[export] Instance result_ret : MRet result := λ A a, Ok a.
#[export] Instance result_bind : MBind result := λ A B f r,
  match r with
  | Ok a => f a
  | Raise e => Raise e
  end.

(** A [for] loop over a Python iterable, threading the loop state. *)
Fixpoint for_loop {A St : Type} (xs : list A) (body : A → St → result St)
    (st : St) : result St :=
  match xs with
  | [] => Ok st
  | x :: rest => st' ← body x st; for_loop rest body st'
  end.

(** ** Python sequences *)

(** Position addressed by a Python index [i] in a sequence of length
    [n]: negative indices count from the end. *)
Definition py_index (n : nat) (i : Z) : option nat :=
  if bool_decide (0 ≤ i < Z.of_nat n)%Z then Some (Z.to_nat i)
  else if bool_decide (- Z.of_nat n ≤ i < 0)%Z then Some (Z.to_nat (Z.of_nat n + i))
  else None.

(** [l[i] = v] *)
Definition list_setitem {A : Type} (l : list A) (i : Z) (v : A) : result (list A) :=
  match py_index (length l) i with
  | Some k => Ok (<[k := v]> l)
  | None => Raise IndexError
  end.

(** [l[lower:upper]] for non-negative bounds. *)
Definition py_slice {A : Type} (l : list A) (lower upper : nat) : list A :=
  take (upper - lower) (drop lower l).

(** [range(start, stop, step)] for non-negative arguments. *)
Definition py_range (start stop step : nat) : result (list nat) :=
  match step with
  | O => Raise RangeStepZero
  | S _ => Ok ((λ k, start + k * step) <$> seq 0 ((stop - start + (step - 1)) / step))
  end.

(** * bycycle/burst.py *)

Module Burst.

(** ** pandas objects *)

(** A data frame column holds floats (the cycle measures), booleans
    (the burst flags) or, where labels had no value to align, booleans
    with missing entries. *)
Inductive column : Type :=
  | ColFloat (xs : list float)
  | ColBool (bs : list bool)
  | ColObject (vs : list (option bool)).

Definition col_length (c : column) : nat :=
  match c with
  | ColFloat xs => length xs
  | ColBool bs => length bs
  | ColObject vs => length vs
  end.

(** Numeric reading of a column, as comparisons coerce it; a missing
    entry is NaN. *)
Definition col_floats (c : column) : list float :=
  let of_bool (b : bool) := if b then 1%float else 0%float in
  match c with
  | ColFloat xs => xs
  | ColBool bs => of_bool <$> bs
  | ColObject vs => (λ v, from_option of_bool nan v) <$> vs
  end.

(** A feature table: an index of integer labels, one per row (the
    default index is [0 .. n - 1], but any integer labels, duplicates
    included, can be there), and named columns.  Indexes of other
    label types are outside the model. *)
Record frame : Type := Frame {
  df_index : list Z;
  df_cols : gmap string column
}.

(** [len(df)] *)
Definition df_len (t : frame) : nat := length (df_index t).

(** Every column of the frame has one entry per row. *)
Definition frame_wf (t : frame) : Prop :=
  map_Forall (λ _ col, col_length col = df_len t) (df_cols t).

(** The store maps object references to data frames. *)
Abbreviation store := (gmap nat frame).

(** The default index [RangeIndex(n)]. *)
Definition range_index (n : nat) : list Z := Z.of_nat <$> seq 0 n.

(** A pandas Series: values under integer index labels, in order. *)
Definition series (A : Type) : Type := list (Z * A).

Definition labels {A : Type} (s : series A) : list Z := s.*1.

(** Value under label [k] (the first one, where [k] is duplicated). *)
Definition series_loc {A : Type} (s : series A) (k : Z) : option A :=
  (λ hit, hit.2.2) <$> list_find (λ e : Z * A, e.1 = k) s.

(** [s[k] = v] for an integer [k] on an integer index.  The key is a
    label, never a position: every entry under a label of the index is
    overwritten; a label that is not in the index (such as [-1] under
    the default index) is appended with its value (pandas "setting
    with enlargement"). *)
Definition series_setitem (s : series bool) (k : Z) (v : bool) : series bool :=
  if bool_decide (k ∈ labels s)
  then (λ e : Z * bool, if bool_decide (e.1 = k) then (k, v) else e) <$> s
  else s ++ [(k, v)].

(** [s.reindex(idx)]: the values of [s] under the labels [idx], with
    no value where [s] lacks the label; labels of [s] outside [idx] are
    dropped.  pandas refuses to reindex a Series whose own index has
    duplicates (unless there is nothing to look up). *)
Definition series_reindex (s : series bool) (idx : list Z)
    : result (list (option bool)) :=
  if bool_decide (NoDup (labels s)) || bool_decide (idx = [])
  then Ok (series_loc s <$> idx)
  else Raise DuplicateLabels.

(** The values if none is missing. *)
Fixpoint all_present (vs : list (option bool)) : option (list bool) :=
  match vs with
  | [] => Some []
  | Some b :: rest => cons b <$> all_present rest
  | None :: _ => None
  end.

(** The column for reindexed flags: boolean unless a value is missing. *)
Definition flags_column (vs : list (option bool)) : column :=
  match all_present vs with
  | Some bs => ColBool bs
  | None => ColObject vs
  end.

(** [DataFrame._ensure_valid_index], run by every column assignment:
    a frame without rows that is assigned a non-empty value takes the
    index of that value, and each of its columns is filled with NaN up
    to the new length. *)
Definition ensure_valid_index (t : frame) (idx : list Z) : frame :=
  match df_index t, idx with
  | [], _ :: _ => Frame idx ((λ _, ColFloat (replicate (length idx) nan)) <$> df_cols t)
  | _, _ => t
  end.

(** [df[c]]: the column as a Series over the index of the frame. *)
Definition df_getitem (h : store) (df : nat) (c : string) : result (series float) :=
  match h !! df with
  | None => Raise DanglingRef
  | Some t =>
      match df_cols t !! c with
      | None => Raise (KeyError c)
      | Some col => Ok (zip (df_index t) (col_floats col))
      end
  end.

(** [df[c] = flags] for a Python list, in place; the index a frame
    without rows takes from a list is the default one. *)
Definition df_setitem_list (h : store) (df : nat) (c : string) (flags : list bool)
    : result store :=
  match h !! df with
  | None => Raise DanglingRef
  | Some t =>
      let t := ensure_valid_index t (range_index (length flags)) in
      if bool_decide (length flags = df_len t)
      then Ok (<[df := Frame (df_index t) (<[c := ColBool flags]> (df_cols t))]> h)
      else Raise LengthMismatch
  end.

(** [df[c] = s] for a Series, in place: the values of [s] are taken as
    they are if its index is that of the frame, and are aligned on the
    index of the frame otherwise. *)
Definition df_setitem_series (h : store) (df : nat) (c : string) (s : series bool)
    : result store :=
  match h !! df with
  | None => Raise DanglingRef
  | Some t =>
      let t := ensure_valid_index t (labels s) in
      col ← (if bool_decide (labels s = df_index t) then Ok (ColBool (s.*2))
             else vs ← series_reindex s (df_index t); Ok (flags_column vs));
      Ok (<[df := Frame (df_index t) (<[c := col]> (df_cols t))]> h)
  end.

(** [s > threshold]: IEEE comparison, false on NaN. *)
Definition series_gt (s : series float) (threshold : float) : series bool :=
  (λ e : Z * float, (e.1, PrimFloat.ltb threshold e.2)) <$> s.

(** [a & b] on boolean series over the same index. *)
Definition series_and (a b : series bool) : series bool :=
  zip_with (λ x y : Z * bool, (x.1, x.2 && y.2)) a b.

(** ** [_min_consecutive_cycles] *)

(** The function is called on a Python list and on a Series; it uses
    iteration and item assignment only. *)
Class BoolSeq (C : Type) : Type := {
  seq_values : C → list bool;
  seq_setitem : C → Z → bool → result C
}.

#[export] Instance list_BoolSeq : BoolSeq (list bool) := {|
  seq_values l := l;
  seq_setitem l i v := list_setitem l i v
|}.

(** A Series while a loop iterates over it.  [Series.__iter__] reads
    the array of values that the Series has when the loop begins.  An
    assignment under a label of the index writes into the array of the
    Series in place, so the loop sees it as long as that is the array
    it reads; an assignment under a new label gives the Series a new,
    longer array and leaves the loop on the one it has, [it_array],
    which later assignments no longer reach. *)
Record iterated_series : Type := Iterated {
  it_series : series bool;
  it_array : option (list bool)
}.

Definition it_values (it : iterated_series) : list bool :=
  default ((it_series it).*2) (it_array it).

Definition it_setitem (it : iterated_series) (k : Z) (v : bool) : iterated_series :=
  Iterated (series_setitem (it_series it) k v)
    (if bool_decide (k ∈ labels (it_series it)) then it_array it
     else Some (it_values it)).

#[export] Instance series_BoolSeq : BoolSeq iterated_series := {|
  seq_values := it_values;
  seq_setitem it k v := Ok (it_setitem it k v)
|}.

Section MinConsecutive.
Context {C : Type} `{BoolSeq C}.

(** [for c_rm in range(temp_cycle_count): is_burst[idx - 1 - c_rm] = False] *)
Fixpoint clear_run (is_burst : C) (idx : nat) (c_rms : list nat) : result C :=
  match c_rms with
  | [] => Ok is_burst
  | c_rm :: rest =>
      is_burst' ← seq_setitem is_burst (Z.of_nat idx - 1 - Z.of_nat c_rm) false;
      clear_run is_burst' idx rest
  end.

(** One iteration of [for idx, bursting in enumerate(is_burst)]; the
    state is the sequence (mutated in place) and [temp_cycle_count].
    On a list, writes only reach entries the iterator has passed. *)
Definition mcc_body (min_n_cycles : Z) (idx : nat) (st : C * nat) : result (C * nat) :=
  let '(is_burst, temp_cycle_count) := st in
  match seq_values is_burst !! idx with
  | None => Ok st
  | Some true => Ok (is_burst, S temp_cycle_count)
  | Some false =>
      if bool_decide (Z.of_nat temp_cycle_count < min_n_cycles)%Z then
        is_burst' ← clear_run is_burst idx (seq 0 temp_cycle_count);
        Ok (is_burst', 0)
      else Ok (is_burst, 0)
  end.

Definition _min_consecutive_cycles (is_burst : C) (min_n_cycles : Z) : result C :=
  st ← for_loop (seq 0 (length (seq_values is_burst))) (mcc_body min_n_cycles)
         (is_burst, 0);
  Ok st.1.

End MinConsecutive.

(** ** [detect_bursts_cycles]

    Returns the reference it was given and the store after the call.
    [is_burst] is a fresh Series over the index of the frame. *)
Definition detect_bursts_cycles (h : store) (df_features : nat)
    (amp_fraction_threshold amp_consistency_threshold
     period_consistency_threshold monotonicity_threshold : float)
    (min_n_cycles : Z) : result (nat * store) :=
  c1 ← df_getitem h df_features "amp_fraction";
  let amp_fraction := series_gt c1 amp_fraction_threshold in
  c2 ← df_getitem h df_features "amp_consistency";
  let amp_consistency := series_gt c2 amp_consistency_threshold in
  c3 ← df_getitem h df_features "period_consistency";
  let period_consistency := series_gt c3 period_consistency_threshold in
  c4 ← df_getitem h df_features "monotonicity";
  let monotonicity := series_gt c4 monotonicity_threshold in
  let is_burst :=
    series_and (series_and (series_and amp_fraction amp_consistency)
                  period_consistency) monotonicity in
  let is_burst := series_setitem is_burst 0 false in
  let is_burst := series_setitem is_burst (-1) false in
  is_burst ← _min_consecutive_cycles (Iterated is_burst None) min_n_cycles;
  h' ← df_setitem_series h df_features "is_burst" (it_series is_burst);
  Ok (df_features, h').

(** ** [detect_bursts_amp]

    [is_burst] is a fresh Python list here. *)
Definition detect_bursts_amp (h : store) (df_features : nat)
    (burst_fraction_threshold : float) (min_n_cycles : Z) : result (nat * store) :=
  c ← df_getitem h df_features "burst_fraction";
  let is_burst := (λ frac, PrimFloat.leb burst_fraction_threshold frac) <$> c.*2 in
  flags ← _min_consecutive_cycles is_burst min_n_cycles;
  h' ← df_setitem_list h df_features "is_burst" flags;
  Ok (df_features, h').

(** Output flags are below input flags, position by position. *)
Definition flags_le (out inp : list bool) : Prop :=
  Forall2 (λ o i : bool, o = true → i = true) out inp.

(** [a .. b - 1] is a maximal run of true flags of [l] that is closed
    by a false flag at [b]. *)
Definition closed_run (l : list bool) (a b : nat) : Prop :=
  a < b
  ∧ (∀ i, a ≤ i < b → l !! i = Some true)
  ∧ (a = 0 ∨ l !! (a - 1) = Some false)
  ∧ l !! b = Some false.

(** The loop invariant for the runs: the [cnt] flags before [k] are a
    run that is still open, and every run closed before it is long
    enough. *)
Definition runs_inv (m : Z) (k : nat) (l : list bool) (cnt : nat) : Prop :=
  cnt ≤ k
  ∧ (∀ i, k - cnt ≤ i < k → l !! i = Some true)
  ∧ (k - cnt = 0 ∨ l !! (k - cnt - 1) = Some false)
  ∧ ∀ a b, b < k - cnt → closed_run l a b → (m ≤ Z.of_nat (b - a))%Z.

(** Flag [i] of [l] lies in a closed run of fewer than [m] flags. *)
Definition in_short_run (m : Z) (l : list bool) (i : nat) : Prop :=
  ∃ a b, closed_run l a b ∧ a ≤ i < b ∧ (Z.of_nat (b - a) < m)%Z.

(** The loop invariant for the flags: from the open run on, the list
    is still the input [l0]; before it, the flags in short closed runs
    of the input are cleared and the others are those of the input. *)
Definition exact_inv (m : Z) (l0 : list bool) (k : nat) (l : list bool) (cnt : nat)
    : Prop :=
  cnt ≤ k
  ∧ (∀ i, k - cnt ≤ i → l !! i = l0 !! i)
  ∧ (∀ i, k - cnt ≤ i < k → l0 !! i = Some true)
  ∧ (k - cnt = 0 ∨ l0 !! (k - cnt - 1) = Some false)
  ∧ ∀ i, i < k - cnt →
      (in_short_run m l0 i → l !! i = Some false)
      ∧ (¬ in_short_run m l0 i → l !! i = l0 !! i).

(** [a .. b - 1] is a maximal run of true flags of [l]: closed by a
    false flag or by the end of [l]. *)
Definition maximal_run (l : list bool) (a b : nat) : Prop :=
  a < b
  ∧ (∀ i, a ≤ i < b → l !! i = Some true)
  ∧ (a = 0 ∨ l !! (a - 1) = Some false)
  ∧ (b = length l ∨ l !! b = Some false).

(** The first [n] labels of the Series [s] are [0 .. n - 1], and none
    of them occurs anywhere else in the index: under these labels,
    access by label is access by position. *)
Definition positional {A : Type} (n : nat) (s : series A) : Prop :=
  ∀ p, p < n →
    labels s !! p = Some (Z.of_nat p)
    ∧ ∀ j, labels s !! j = Some (Z.of_nat p) → j = p.

(** The burst candidates of [detect_bursts_cycles]: the cycles whose
    four measures are above their thresholds. *)
Definition cycle_candidates (c1 c2 c3 c4 : column) (t1 t2 t3 t4 : float) : list bool :=
  let above (c : column) (t : float) := (λ x, PrimFloat.ltb t x) <$> col_floats c in
  zip_with andb (zip_with andb (zip_with andb (above c1 t1) (above c2 t2)) (above c3 t3))
    (above c4 t4).




(** The store [h] after [is_burst] of the frame [t] at [df] is set to
    [flags], and nothing else is touched. *)
Definition with_burst_flags (h : store) (df : nat) (t : frame) (flags : list bool)
    : store :=
  <[df := Frame (df_index t) (<["is_burst" := ColBool flags]> (df_cols t))]> h.

(** The burst flags of frame [df] in store [h]. *)
Definition burst_flags (h : store) (df : nat) : option (list bool) :=
  match h !! df with
  | Some t =>
      match df_cols t !! "is_burst" with
      | Some (ColBool bs) => Some bs
      | _ => None
      end
  | None => None
  end.

End Burst.

(** * bycycle/group/features.py *)

Module Group.

(** ** Python values and the object store *)

(** Values of keyword arguments. *)
#[warning="-register-all"]
Inductive value : Type :=
  | VNone
  | VBool (b : bool)
  | VInt (z : Z)
  | VFloat (x : float)
  | VStr (s : string)
  | VDict (items : list (string * value)).

(** A keyword dictionary; dictionaries are objects, held in the store
    and passed by reference. *)
Abbreviation kwargs_dict := (gmap string value).

(** A voltage time series. *)
Definition signal : Type := list float.

(** One invocation of the external routine [compute_features]. *)
Record call : Type := Call {
  call_sig : signal;
  call_fs : float;
  call_f_range : float * float;
  call_return_samples : bool;
  call_kwargs : gmap string value
}.

(** The state a call runs in: the dictionaries on the heap and the log
    of invocations of [compute_features] made so far. *)
Record state : Type := State {
  heap : gmap nat (gmap string value);
  calls : list call
}.

(** State and exception monad; a raised exception keeps the effects
    that came before it. *)
Definition M (A : Type) : Type := state → result A * state.

#[export] Instance M_ret : MRet M := λ A a st, (Ok a, st).
#[export] Instance M_bind : MBind M := λ A B f m st,
  match m st with
  | (Ok a, st') => f a st'
  | (Raise e, st') => (Raise e, st')
  end.

Definition raise {A : Type} (e : exn) : M A := λ st, (Raise e, st).

Definition lift {A : Type} (r : result A) : M A := λ st, (r, st).

(** Read the dictionary behind a reference. *)
Definition deref (d : nat) : M (gmap string value) := λ st,
  match heap st !! d with
  | Some kwargs => (Ok kwargs, st)
  | None => (Raise DanglingRef, st)
  end.

(** Overwrite the dictionary behind a reference. *)
Definition assign (d : nat) (kwargs : gmap string value) : M unit := λ st,
  (Ok (), State (<[d := kwargs]> (heap st)) (calls st)).

(** A new dictionary object. *)
Definition alloc (kwargs : gmap string value) : M nat := λ st,
  let d := fresh (dom (heap st)) in
  (Ok d, State (<[d := kwargs]> (heap st)) (calls st)).

Definition log_calls (cs : list call) : M unit := λ st,
  (Ok (), State (heap st) (calls st ++ cs)).

Fixpoint for_each {A : Type} (xs : list A) (body : A → M unit) : M unit :=
  match xs with
  | [] => mret ()
  | x :: rest => body x ≫= λ _, for_each rest body
  end.

Fixpoint map_M {A B : Type} (f : A → M B) (xs : list A) : M (list B) :=
  match xs with
  | [] => mret []
  | x :: rest => y ← f x; ys ← map_M f rest; mret (y :: ys)
  end.

(** ** Arguments *)

(** [compute_features_kwargs] of [compute_features_2d]: a dict or a
    list of dicts ([None] is the [None] of [option]). *)
Inductive kwargs_2d : Type :=
  | KwDict (d : nat)
  | KwList (ds : list nat).

(** [compute_features_kwargs] of [compute_features_3d]: a dict, a 1d
    list or a 2d list of dicts. *)
Inductive kwargs_3d : Type :=
  | Kw3Dict (d : nat)
  | Kw3List1 (ds : list nat)
  | Kw3List2 (dss : list (list nat)).

(** A 3d numpy array: its shape and its elements in row-major order. *)
Record ndarray3 : Type := Ndarray3 {
  shape0 : nat;
  shape1 : nat;
  shape2 : nat;
  data : list float
}.

Definition ndarray3_wf (sigs : ndarray3) : Prop :=
  length (data sigs) = shape0 sigs * shape1 sigs * shape2 sigs.

(** [sigs[g][s]] *)
Definition sig_at (sigs : ndarray3) (g s : nat) : signal :=
  take (shape2 sigs) (drop ((g * shape1 sigs + s) * shape2 sigs) (data sigs)).

(** [sigs.reshape(shape0 * shape1, shape2)], as the list of its rows. *)
Definition reshape_2d (sigs : ndarray3) : list signal :=
  (λ i, take (shape2 sigs) (drop (i * shape2 sigs) (data sigs)))
    <$> seq 0 (shape0 sigs * shape1 sigs).

(** Shape of [np.array(kwargs)]: one or two dimensions. *)
Inductive kw_shape : Type :=
  | Shape1 (n : nat)
  | Shape2 (n m : nat).

(** [np.array] on a list of lists of dicts; the empty list is
    one-dimensional, and a ragged list has no shape: numpy (from 1.24
    on) raises a [ValueError] for it. *)
Definition np_shape_nested (dss : list (list nat)) : result kw_shape :=
  match dss with
  | [] => Ok (Shape1 0)
  | row :: rows =>
      if bool_decide (Forall (λ r : list nat, length r = length row) rows)
      then Ok (Shape2 (S (length rows)) (length row))
      else Raise InhomogeneousShape
  end.

(** The dictionaries referred to by a kwargs argument. *)
Definition kwargs_refs (kw : kwargs_2d) : list nat :=
  match kw with
  | KwDict d => [d]
  | KwList ds => ds
  end.

Definition kwargs_refs_3d (kw : kwargs_3d) : list nat :=
  match kw with
  | Kw3Dict d => [d]
  | Kw3List1 ds => ds
  | Kw3List2 dss => concat dss
  end.

(** The heap after the key [return_samples] is removed from the
    dictionaries [ds]. *)
Definition strip_heap (ds : list nat) (h : gmap nat (gmap string value))
    : gmap nat (gmap string value) :=
  foldl (λ h d, alter (delete "return_samples") d h) h ds.

(** From [st] to [st'], a dictionary is either left as it is or, if it
    is one of [refs], loses its key [return_samples]; nothing else
    happens to the dictionaries of [st]. *)
Definition only_strips (refs : list nat) (st st' : state) : Prop :=
  ∀ d kwargs, heap st !! d = Some kwargs →
    heap st' !! d = Some kwargs
    ∨ (d ∈ refs ∧ heap st' !! d = Some (delete "return_samples" kwargs)).

(** [Pool(processes=n_jobs)] can be opened. *)
Definition pool_ok (n_jobs : Z) : Prop := (n_jobs = -1 ∨ 1 ≤ n_jobs)%Z.

(** The kwargs of [compute_features_2d] fit the signals: a list has
    one dict per signal. *)
Definition kwargs_match_2d (sigs : list signal) (kw : option kwargs_2d) : Prop :=
  match kw with
  | Some (KwList ds) => length ds = length sigs
  | _ => True
  end.

(** The shape of the kwargs array fits the first dimension, or the
    first two dimensions, of the signals. *)
Definition shape_matches (shape : kw_shape) (sigs : ndarray3) : Prop :=
  match shape with
  | Shape1 n => n = shape0 sigs
  | Shape2 n m => n = shape0 sigs ∧ m = shape1 sigs
  end.

Definition kwargs_match_3d (sigs : ndarray3) (kw : option kwargs_3d) : Prop :=
  match kw with
  | Some (Kw3List1 ds) => length ds = shape0 sigs
  | Some (Kw3List2 dss) =>
      ∃ shape, np_shape_nested dss = Ok shape ∧ shape_matches shape sigs
  | _ => True
  end.

(** Running [m] only strips dictionaries among [refs]. *)
Definition strips {A : Type} (refs : list nat) (m : M A) : Prop :=
  ∀ st, only_strips refs st (m st).2.

(** The errors about the shape of the kwargs.  Both are a Python
    [ValueError]: the one raised by the checks of the group functions,
    and the one [np.array] raises on a ragged list before those checks
    are reached. *)
Definition shape_error (e : exn) : bool :=
  match e with
  | ShapeMismatch | InhomogeneousShape => true
  | _ => false
  end.

(** [m] never raises a shape error, and what it returns satisfies [Q]. *)
Definition returns {A : Type} (Q : A → Prop) (m : M A) : Prop :=
  ∀ st, match (m st).1 with
        | Ok a => Q a
        | Raise e => shape_error e = false
        end.

(** What the group functions return: the features, with the samples
    iff [return_samples]. *)
Inductive returned (F S : Type) : Type :=
  | Features (df_features : F)
  | FeaturesSamples (df_features : F) (df_samples : S).
Arguments Features {F S} df_features.
Arguments FeaturesSamples {F S} df_features df_samples.

(** The features, and the samples if there are any, of what a group
    function returns. *)
Definition returned_features {F S : Type} (r : returned F S) : F :=
  match r with
  | Features df_features => df_features
  | FeaturesSamples df_features _ => df_features
  end.

Definition returned_samples {F S : Type} (r : returned F S) : option S :=
  match r with
  | Features _ => None
  | FeaturesSamples _ df_samples => Some df_samples
  end.

(** [xss[g][s]] in a nested list. *)
Definition nested_lookup {A : Type} (xss : list (list A)) (g s : nat) : option A :=
  xss !! g ≫= λ xs, xs !! s.

(** ** The worker pool *)

Section Features.

(** The external single-signal routine: the feature table it computes
    and, when asked for, the sample table. *)
Context {FeatureTable SampleTable : Type}.
Variable features_of : signal → float → float * float → gmap string value → FeatureTable.
Variable samples_of : signal → float → float * float → gmap string value → SampleTable.
(** [multiprocessing.cpu_count()] *)
Variable cpu_count : positive.

(** What [compute_features] returns: a pair iff [return_samples]. *)
Definition cf_result (return_samples : bool) : Type :=
  if return_samples then (FeatureTable * SampleTable)%type else FeatureTable.

Definition compute_features (sig : signal) (fs : float) (f_range : float * float)
    (return_samples : bool) (kwargs : gmap string value) : cf_result return_samples :=
  match return_samples with
  | true => (features_of sig fs f_range kwargs, samples_of sig fs f_range kwargs)
  | false => features_of sig fs f_range kwargs
  end.

(** A worker runs one task. *)
Definition run_call (return_samples : bool) (c : call) : cf_result return_samples :=
  compute_features (call_sig c) (call_fs c) (call_f_range c) return_samples
    (call_kwargs c).

(** The workers of the pool complete the submitted tasks in the order
    [sched] (task numbers, in completion order); each completed task
    leaves its result in the slot of its number. *)
Definition complete_tasks {B : Type} (run : call → B) (tasks : list call)
    (sched : list nat) : gmap nat B * list call :=
  foldl (λ acc i,
           match tasks !! i with
           | Some c => (<[i := run c]> acc.1, acc.2 ++ [c])
           | None => acc
           end) (∅, []) sched.

(** Iterating over [pool.imap(...)] yields the slots in submission
    order; a slot that is never filled blocks the iteration. *)
Definition collect_slots {B : Type} (n : nat) (slots : gmap nat B) : result (list B) :=
  for_loop (seq 0 n)
    (λ i acc, match slots !! i with
              | Some b => Ok (acc ++ [b])
              | None => Raise PoolStuck
              end) [].

Definition imap {B : Type} (run : call → B) (tasks : list call) (sched : list nat)
    : M (list B) :=
  let done := complete_tasks run tasks sched in
  log_calls done.2 ≫= λ _, lift (collect_slots (length tasks) done.1).

(** Modelled from the spec: [progress_bar] of [bycycle.group.utils],
    which is not among the sources.  Progress reporting is a side
    channel that must not change computed results: the iterable is
    passed through. *)
Definition progress_bar {B : Type} (iterable : list B) (progress : option string)
    (n_to_compute : nat) : list B := iterable.

(** ** [compute_features_2d] *)

(** [if 'return_samples' in kwargs.keys(): kwargs.pop('return_samples')] *)
Definition pop_return_samples (d : nat) : M unit :=
  kwargs ← deref d;
  if bool_decide ("return_samples" ∈ dom kwargs)
  then assign d (delete "return_samples" kwargs)
  else mret ().

(** [n_jobs = cpu_count() if n_jobs == -1 else n_jobs] *)
Definition resolve_n_jobs (n_jobs : Z) : Z :=
  if bool_decide (n_jobs = -1)%Z then Z.pos cpu_count else n_jobs.

(** [Pool(processes=n_jobs)] *)
Definition open_pool (n_jobs : Z) : M unit :=
  if bool_decide (n_jobs < 1)%Z then raise PoolSizeError else mret ().

(** Lines 92 to 104: the results of the mapping as they are returned. *)
Definition unzip_results (return_samples : bool)
    : list (cf_result return_samples) →
      result (returned (list FeatureTable) (list SampleTable)) :=
  match return_samples with
  | true => λ results,
      match results with
      | [] => Raise UnpackError
      | _ :: _ => Ok (FeaturesSamples (results.*1) (results.*2))
      end
  | false => λ results, Ok (Features results)
  end.

(** Lines 57 to 61: the length check, and [{}] for [None]. *)
Definition check_kwargs_2d (sigs : list signal)
    (compute_features_kwargs : option kwargs_2d) : M kwargs_2d :=
  match compute_features_kwargs with
  | Some (KwList ds) =>
      if bool_decide (length ds ≠ length sigs) then raise ShapeMismatch
      else mret (KwList ds)
  | Some (KwDict d) => mret (KwDict d)
  | None => d ← alloc ∅; mret (KwDict d)
  end.

(** Lines 63 to 74. *)
Definition strip_kwargs (compute_features_kwargs : kwargs_2d) : M unit :=
  match compute_features_kwargs with
  | KwList ds => for_each ds pop_return_samples
  | KwDict d => pop_return_samples d
  end.

(** [_proxy]: the invocation of [compute_features] for one element of
    [zip(sigs, compute_features_kwargs)]. *)
Definition _proxy (args : signal * gmap string value) (fs : float)
    (f_range : float * float) (return_samples : bool) : call :=
  let '(sig, kwargs) := args in
  Call sig fs f_range return_samples kwargs.

(** The tasks submitted to the pool, one per signal, in the order of
    [sigs]; the dictionaries are read when the tasks are submitted. *)
Definition submit_tasks (sigs : list signal) (fs : float) (f_range : float * float)
    (compute_features_kwargs : kwargs_2d) (return_samples : bool) : M (list call) :=
  match compute_features_kwargs with
  | KwList ds =>
      kwargs ← map_M deref ds;
      mret ((λ args, _proxy args fs f_range return_samples) <$> zip sigs kwargs)
  | KwDict d =>
      kwargs ← deref d;
      mret ((λ sig, Call sig fs f_range return_samples kwargs) <$> sigs)
  end.

(** Lines 63 to 104, once the kwargs are a dict or a list that fits. *)
Definition dispatch_2d (sched : list nat) (sigs : list signal) (fs : float)
    (f_range : float * float) (compute_features_kwargs : kwargs_2d)
    (return_samples : bool) (n_jobs : Z) (progress : option string)
    : M (returned (list FeatureTable) (list SampleTable)) :=
  strip_kwargs compute_features_kwargs ≫= λ _,
  let n_jobs := resolve_n_jobs n_jobs in
  open_pool n_jobs ≫= λ _,
  tasks ← submit_tasks sigs fs f_range compute_features_kwargs return_samples;
  mapping ← imap (run_call return_samples) tasks sched;
  lift (unzip_results return_samples (progress_bar mapping progress (length sigs))).

Definition compute_features_2d (sched : list nat) (sigs : list signal) (fs : float)
    (f_range : float * float) (compute_features_kwargs : option kwargs_2d)
    (return_samples : bool) (n_jobs : Z) (progress : option string)
    : M (returned (list FeatureTable) (list SampleTable)) :=
  compute_features_kwargs ← check_kwargs_2d sigs compute_features_kwargs;
  dispatch_2d sched sigs fs f_range compute_features_kwargs return_samples n_jobs
    progress.

(** ** [_reshape_df] *)

Definition _reshape_df {T : Type} (df_features : list T) (sigs_3d : ndarray3)
    : result (list (list T)) :=
  let dim_b := shape1 sigs_3d in
  max_idx ← py_range dim_b (length df_features * dim_b) dim_b;
  min_idx ← py_range 0 (length df_features) dim_b;
  Ok (zip_with (λ lower upper, py_slice df_features lower upper) min_idx max_idx).

(** ** [compute_features_3d] *)

(** Lines 159 to 173. *)
Definition check_kwargs_shape (shape : kw_shape) (sigs : ndarray3) : M unit :=
  match shape with
  | Shape1 n =>
      if bool_decide (n ≠ shape0 sigs) then raise ShapeMismatch else mret ()
  | Shape2 n m =>
      if bool_decide (n ≠ shape0 sigs) || bool_decide (m ≠ shape1 sigs)
      then raise ShapeMismatch else mret ()
  end.

(** Lines 180 to 187 on a 1d list: each kwargs is repeated for each
    signal along the second dimension, and the rows are flattened. *)
Definition repeat_kwargs (ds : list nat) (sigs : ndarray3) : list nat :=
  concat ((λ kwarg, replicate (shape1 sigs) kwarg) <$> ds).

(** Lines 151 to 173 and 180 to 187: the kwargs handed on to
    [compute_features_2d]. *)
Definition check_kwargs_3d (sigs : ndarray3)
    (compute_features_kwargs : option kwargs_3d) : M kwargs_2d :=
  match compute_features_kwargs with
  | None => d ← alloc ∅; mret (KwDict d)
  | Some (Kw3Dict d) => mret (KwDict d)
  | Some (Kw3List1 ds) =>
      check_kwargs_shape (Shape1 (length ds)) sigs ≫= λ _,
      mret (KwList (repeat_kwargs ds sigs))
  | Some (Kw3List2 dss) =>
      shape ← lift (np_shape_nested dss);
      check_kwargs_shape shape sigs ≫= λ _,
      mret (KwList (concat dss))
  end.

(** Lines 193 to 204: the samples are there iff [return_samples]. *)
Definition reshape_returned (sigs : ndarray3)
    (df_features : returned (list FeatureTable) (list SampleTable))
    : result (returned (list (list FeatureTable)) (list (list SampleTable))) :=
  match df_features with
  | FeaturesSamples df_features df_samples =>
      df_samples ← _reshape_df df_samples sigs;
      df_features ← _reshape_df df_features sigs;
      Ok (FeaturesSamples df_features df_samples)
  | Features df_features =>
      df_features ← _reshape_df df_features sigs;
      Ok (Features df_features)
  end.

Definition compute_features_3d (sched : list nat) (sigs : ndarray3) (fs : float)
    (f_range : float * float) (compute_features_kwargs : option kwargs_3d)
    (return_samples : bool) (n_jobs : Z) (progress : option string)
    : M (returned (list (list FeatureTable)) (list (list SampleTable))) :=
  kwargs ← check_kwargs_3d sigs compute_features_kwargs;
  let n_jobs := resolve_n_jobs n_jobs in
  let sigs_2d := reshape_2d sigs in
  df_features ←
    compute_features_2d sched sigs_2d fs f_range (Some kwargs) return_samples n_jobs
      progress;
  lift (reshape_returned sigs df_features).

End Features.

End Group.

Import Burst.
Import Group.

Definition ex_frame : frame := Frame (range_index 5) (
  <["amp_fraction" := ColFloat [0.75; 0.75; 0.75; 0.75; 0.75]%float]>
  (<["amp_consistency" := ColFloat [0.75; 0.75; 0.75; 0.75; 0.75]%float]>
  (<["period_consistency" := ColFloat [0.75; 0.75; 0.75; 0.75; 0.75]%float]>
  (<["burst_fraction" := ColFloat [0.75; 0.75; 0.75; 1; 1]%float]>
  (<["monotonicity" := ColFloat [1; 1; 1; 1; 1]%float]> ∅))))).


Definition ex_store : gmap nat frame := <[0%nat := ex_frame]> ∅.

(** A table with the measure columns and no rows. *)
Definition ex_empty_frame : frame := Frame [] (
  <["amp_fraction" := ColFloat []]>
  (<["amp_consistency" := ColFloat []]>
  (<["period_consistency" := ColFloat []]>
  (<["burst_fraction" := ColFloat []]>
  (<["monotonicity" := ColFloat []]> ∅))))).

Definition ex_empty_store : gmap nat frame := <[0%nat := ex_empty_frame]> ∅.



(** A stand-in for the external routine: it echoes the signal and the
    keyword arguments it is called with. *)
Definition ex_features (sig : signal) (fs : float) (f_range : float * float)
    (kwargs : gmap string value) : signal * list (string * value) :=
  (sig, map_to_list kwargs).

Definition ex_samples (sig : signal) (fs : float) (f_range : float * float)
    (kwargs : gmap string value) : nat := length sig.

(** Two keyword dictionaries; the first carries [return_samples]. *)
Definition ex_heap : gmap nat (gmap string value) :=
  <[0%nat := <["return_samples" := VBool false]>
               (<["center_extrema" := VStr "peak"]> ∅)]>
  (<[1%nat := <["center_extrema" := VStr "trough"]> ∅]> ∅).

Definition ex_state : state := State ex_heap [].

Definition ex_configs : list (gmap string value) :=
  [<["return_samples" := VBool false]> (<["center_extrema" := VStr "peak"]> ∅);
   <["center_extrema" := VStr "trough"]> ∅].

Definition ex_rows : list signal := [[1; 2; 3]; [4; 5; 6]]%float.

(** Two groups of two signals of three samples, and two groups of one
    signal. *)
Definition ex_sigs : ndarray3 :=
  Ndarray3 2 2 3 [1; 2; 3; 4; 5; 6; 7; 8; 9; 10; 11; 12]%float.

Definition ex_sigs_single : ndarray3 := Ndarray3 2 1 3 [1; 2; 3; 4; 5; 6]%float.

(** * Properties of the burst classifier *)

Section BurstFacts.

Lemma py_index_nonneg (n k : nat) :
  k < n → py_index n (Z.of_nat k) = Some k.
Proof.
  intros Hk. unfold py_index.
  rewrite bool_decide_eq_true_2 by lia. by rewrite Nat2Z.id.
Qed.

Lemma list_setitem_nonneg {A} (l : list A) (k : nat) (v : A) :
  k < length l → list_setitem l (Z.of_nat k) v = Ok (<[k := v]> l).
Proof. intros Hk. unfold list_setitem. by rewrite py_index_nonneg. Qed.

(** On a Python list the inner loop clears exactly the positions
    [idx - (start + cnt) .. idx - start - 1] and never raises. *)
Lemma clear_run_list (cnt : nat) : ∀ (l : list bool) (idx start : nat),
  start + cnt ≤ idx → idx ≤ length l →
  ∃ l', clear_run l idx (seq start cnt) = Ok l'
        ∧ length l' = length l
        ∧ ∀ i, l' !! i =
               if bool_decide (idx - (start + cnt) ≤ i < idx - start)
               then Some false else l !! i.
Proof.
  induction cnt as [|cnt IH]; intros l idx start Hle Hlen; simpl.
  - exists l. split_and!; [done..|].
    intros i. rewrite bool_decide_eq_false_2; [done|lia].
  - replace (Z.of_nat idx - 1 - Z.of_nat start)%Z
      with (Z.of_nat (idx - 1 - start)) by lia.
    rewrite list_setitem_nonneg by lia. simpl.
    destruct (IH (<[idx - 1 - start := false]> l) idx (S start))
      as (l' & Hrun & Hlen' & Hl'); [lia|by rewrite length_insert|].
    exists l'. split_and!; [done|by rewrite Hlen', length_insert|].
    intros i. rewrite Hl'.
    destruct (decide (i = idx - 1 - start)) as [->|Hne].
    + rewrite list_lookup_insert_eq by lia.
      repeat case_bool_decide; try done; lia.
    + rewrite list_lookup_insert_ne by done.
      repeat case_bool_decide; try done; lia.
Qed.

Lemma mcc_loop_list (m : Z) (l0 : list bool) : ∀ (n k : nat) (l : list bool) (cnt : nat),
  k + n = length l0 → length l = length l0 → cnt ≤ k →
  (∀ i, k ≤ i → l !! i = l0 !! i) →
  (∀ i, l !! i = Some true → l0 !! i = Some true) →
  ∃ l' cnt', for_loop (seq k n) (mcc_body m) (l, cnt) = Ok (l', cnt')
             ∧ length l' = length l0
             ∧ ∀ i, l' !! i = Some true → l0 !! i = Some true.
Proof.
  induction n as [|n IH]; intros k l cnt Hk Hlen Hcnt Hsuf Hle; simpl.
  - by exists l, cnt.
  - destruct (lookup_lt_is_Some_2 l k) as [b Hb]; [lia|].
    rewrite Hb.
    destruct b; simpl.
    + apply IH; [lia|done|lia| |done]. intros i Hi. apply Hsuf. lia.
    + case_bool_decide.
      * destruct (clear_run_list cnt l k 0) as (l' & -> & Hlen' & Hl'); [lia..|].
        simpl. apply IH; [lia|congruence|lia| |].
        -- intros i Hi. rewrite Hl'. rewrite bool_decide_eq_false_2 by lia.
           apply Hsuf. lia.
        -- intros i. rewrite Hl'. case_bool_decide; [done|]. apply Hle.
      * apply IH; [lia|done|lia| |done]. intros i Hi. apply Hsuf. lia.
Qed.

(** On a Python list the minimum-run post-processing never raises and
    only clears flags. *)
Lemma min_consecutive_cycles_list (is_burst : list bool) (min_n_cycles : Z) :
  ∃ out, _min_consecutive_cycles is_burst min_n_cycles = Ok out
         ∧ length out = length is_burst
         ∧ ∀ i, out !! i = Some true → is_burst !! i = Some true.
Proof.
  unfold _min_consecutive_cycles. simpl.
  destruct (mcc_loop_list min_n_cycles is_burst (length is_burst) 0 is_burst 0)
    as (l' & cnt' & -> & Hlen & Hle); [done..|].
  by exists l'.
Qed.

Lemma mcc_loop_runs (m : Z) : ∀ (n k : nat) (l : list bool) (cnt : nat),
  k + n = length l → runs_inv m k l cnt →
  ∃ l' cnt', for_loop (seq k n) (mcc_body m) (l, cnt) = Ok (l', cnt')
             ∧ length l' = length l
             ∧ runs_inv m (k + n) l' cnt'.
Proof.
  induction n as [|n IH]; intros k l cnt Hk Hinv; simpl.
  - exists l, cnt. by rewrite Nat.add_0_r.
  - destruct Hinv as (Hcnt & Hrun & Hleft & Hclosed).
    destruct (lookup_lt_is_Some_2 l k) as [b Hb]; [lia|].
    rewrite Hb. replace (k + S n) with (S k + n) by lia.
    destruct b; simpl.
    + apply IH; [lia|]. split_and!.
      * lia.
      * intros i Hi. destruct (decide (i = k)) as [->|]; [done|]. apply Hrun. lia.
      * replace (S k - S cnt) with (k - cnt) by lia. done.
      * intros a b' Hb'. apply Hclosed. lia.
    + case_bool_decide as Hshort.
      * destruct (clear_run_list cnt l k 0) as (l' & -> & Hlen' & Hl'); [lia..|].
        simpl. rewrite <- Hlen'. apply IH; [lia|]. split_and!.
        -- lia.
        -- intros i Hi. lia.
        -- right. rewrite Hl'. rewrite bool_decide_eq_false_2 by lia.
           by replace (S k - 0 - 1) with k by lia.
        -- intros a b' Hb' (Hab & Htrue & Hlefta & Hfalse).
           assert (∀ i, l' !! i = Some true → l !! i = Some true ∧ ¬ (k - cnt ≤ i < k))
             as Hkeep.
           { intros i. rewrite Hl'. case_bool_decide; [done|]. intros ?. split; [done|lia]. }
           assert (b' - 1 < k - cnt) as Hb1.
           { destruct (Hkeep (b' - 1)) as [Hl1 Hout]; [apply Htrue; lia|].
             destruct (decide (b' - 1 = k)) as [Heq|]; [rewrite Heq in Hl1; congruence|].
             lia. }
           destruct (decide (b' = k - cnt)) as [->|Hne].
           { destruct Hleft as [?|Hleft]; [lia|].
             destruct (Hkeep (k - cnt - 1)) as [Hl1 _]; [apply Htrue; lia|]. congruence. }
           apply Hclosed; [lia|]. split_and!; [done| | |].
           ++ intros i Hi. by apply Hkeep, Htrue.
           ++ destruct Hlefta as [?|Hlefta]; [by left|right].
              rewrite Hl' in Hlefta. by rewrite bool_decide_eq_false_2 in Hlefta by lia.
           ++ rewrite Hl' in Hfalse. by rewrite bool_decide_eq_false_2 in Hfalse by lia.
      * apply IH; [lia|]. split_and!.
        -- lia.
        -- intros i Hi. lia.
        -- right. by replace (S k - 0 - 1) with k by lia.
        -- intros a b' Hb' (Hab & Htrue & Hlefta & Hfalse).
           destruct (decide (b' < k - cnt)) as [Hlt|Hge].
           { by apply Hclosed. }
           destruct (decide (b' = k)) as [->|Hne].
           ++ assert (a ≤ k - cnt); [|lia].
              destruct Hlefta as [->|Hlefta]; [lia|].
              destruct (decide (a ≤ k - cnt)); [done|].
              rewrite Hrun in Hlefta by lia. done.
           ++ rewrite Hrun in Hfalse by lia. done.
Qed.

(** X1: the part of the minimum-run rule that the loop does enforce:
    in the output of [_min_consecutive_cycles] on a list, every run of
    true flags that is closed by a false flag has at least
    [min_n_cycles] flags. *)
Lemma min_consecutive_cycles_closed_runs (is_burst out : list bool) (min_n_cycles : Z)
    (a b : nat) :
  _min_consecutive_cycles is_burst min_n_cycles = Ok out →
  closed_run out a b → (min_n_cycles ≤ Z.of_nat (b - a))%Z.
Proof.
  unfold _min_consecutive_cycles. simpl. intros Hrun Hclosed.
  destruct (mcc_loop_runs min_n_cycles (length is_burst) 0 is_burst 0)
    as (l' & cnt' & Hloop & Hlen & Hcnt & Htrue & _ & Hall); [done| |].
  { split_and!; [lia| |by left|]; intros; lia. }
  rewrite Hloop in Hrun. simpl in Hrun. injection Hrun as <-.
  apply Hall; [|done].
  destruct Hclosed as (_ & _ & _ & Hfalse).
  pose proof (lookup_lt_Some _ _ _ Hfalse) as Hb.
  destruct (decide (b < length is_burst - cnt')) as [|Hge]; [done|].
  rewrite Htrue in Hfalse by lia. done.
Qed.


Lemma series_loc_cons {A} (l : Z) (v : A) (s : series A) (k : Z) :
  series_loc ((l, v) :: s) k = if decide (l = k) then Some v else series_loc s k.
Proof.
  unfold series_loc. simpl. case_decide; [done|].
  by destruct (list_find _ s) as [[i e]|].
Qed.

















Lemma series_loc_is_Some {A} (s : series A) (k : Z) :
  k ∈ labels s → is_Some (series_loc s k).
Proof.
  unfold labels, series_loc. intros Hk.
  apply list_elem_of_fmap in Hk as ([l a] & Heq & Hin). simpl in Heq. subst k.
  destruct (list_find_elem_of (λ e : Z * A, e.1 = l) s (l, a)) as [hit ->]; [done..|].
  by eexists.
Qed.

Lemma flags_column_present (flags : list bool) :
  flags_column (Some <$> flags) = ColBool flags.
Proof.
  unfold flags_column.
  enough (all_present (Some <$> flags) = Some flags) as -> by done.
  induction flags as [|b flags IH]; csimpl; [done|]. by rewrite IH.
Qed.

(** Reindexing a Series without duplicate labels on labels it has. *)
Lemma series_reindex_ok (s : series bool) (idx : list Z) :
  NoDup (labels s) → idx ⊆ labels s →
  ∃ flags : list bool,
    series_reindex s idx = Ok (Some <$> flags)
    ∧ length flags = length idx
    ∧ ∀ i k, idx !! i = Some k → flags !! i = series_loc s k.
Proof.
  intros Hnd Hsub. unfold series_reindex.
  rewrite bool_decide_eq_true_2 by done. simpl.
  induction idx as [|k idx IH]; csimpl.
  - by exists [].
  - destruct (series_loc_is_Some s k) as [v Hv].
    { apply Hsub. by left. }
    destruct (IH (λ x Hx, Hsub x (list_elem_of_further _ _ _ Hx)))
      as (flags & [= Heq] & Hlen & Hflags).
    exists (v :: flags). rewrite Hv. csimpl. rewrite Heq. split_and!; [done|by rewrite Hlen|].
    intros [|i] k' Hi; simpl in *; [by simplify_eq|by apply Hflags].
Qed.

Lemma range_index_length (n : nat) : length (range_index n) = n.
Proof. unfold range_index. by rewrite length_fmap, length_seq. Qed.

Lemma col_floats_length (col : column) : length (col_floats col) = col_length col.
Proof. destruct col; simpl; [done|by rewrite length_fmap..]. Qed.

(** A frame with rows keeps its index when a column is assigned. *)
Lemma ensure_valid_index_rows (t : frame) (idx : list Z) :
  0 < df_len t → ensure_valid_index t idx = t.
Proof.
  unfold ensure_valid_index, df_len. destruct (df_index t); simpl; [lia|done].
Qed.

(** So does any frame when the value has one entry per row. *)
Lemma ensure_valid_index_fits (t : frame) (idx : list Z) :
  length idx = df_len t → ensure_valid_index t idx = t.
Proof.
  unfold ensure_valid_index, df_len. by destruct (df_index t), idx.
Qed.

(** Reading a column of a well-formed frame gives a Series over the
    index of the frame. *)
Lemma df_getitem_ok (h : store) (df : nat) (t : frame) (c : string) :
  h !! df = Some t → frame_wf t → is_Some (df_cols t !! c) →
  ∃ s, df_getitem h df c = Ok s ∧ labels s = df_index t
       ∧ length s = df_len t.
Proof.
  intros Hdf Hwf [col Hcol]. unfold df_getitem. rewrite Hdf, Hcol.
  eexists. split; [done|].
  pose proof (Hwf c col Hcol) as Hlen. simpl in Hlen. unfold df_len in *.
  split.
  - unfold labels. apply fst_zip. rewrite col_floats_length. lia.
  - rewrite length_zip, col_floats_length. lia.
Qed.

Lemma series_gt_labels (s : series float) (x : float) :
  labels (series_gt s x) = labels s.
Proof.
  unfold labels, series_gt. induction s as [|e s IH]; csimpl; [done|by rewrite IH].
Qed.

Lemma series_gt_length (s : series float) (x : float) :
  length (series_gt s x) = length s.
Proof. unfold series_gt. by rewrite length_fmap. Qed.

Lemma series_and_labels (a b : series bool) :
  length a = length b → labels (series_and a b) = labels a.
Proof.
  unfold labels, series_and. revert b.
  induction a as [|x a IH]; intros [|y b] Hlen; simplify_eq/=; [done|].
  f_equal. by apply IH.
Qed.

Lemma series_and_length (a b : series bool) :
  length a = length b → length (series_and a b) = length a.
Proof. intros Hlen. unfold series_and. rewrite length_zip_with. lia. Qed.

(** The candidates of [detect_bursts_cycles] are a Series over the
    index of the frame. *)
Lemma candidates_index (s1 s2 s3 s4 : series float) (a b c d : float) (idx : list Z) :
  labels s1 = idx → length s2 = length s1 → length s3 = length s1 →
  length s4 = length s1 →
  labels (series_and (series_and (series_and (series_gt s1 a) (series_gt s2 b))
                        (series_gt s3 c)) (series_gt s4 d)) = idx.
Proof.
  intros Hl L2 L3 L4.
  pose proof (series_gt_length s1 a). pose proof (series_gt_length s2 b).
  pose proof (series_gt_length s3 c). pose proof (series_gt_length s4 d).
  assert (length (series_and (series_gt s1 a) (series_gt s2 b)) = length s1)
    by (rewrite series_and_length; congruence).
  assert (length (series_and (series_and (series_gt s1 a) (series_gt s2 b))
                    (series_gt s3 c)) = length s1)
    by (rewrite series_and_length; congruence).
  rewrite !series_and_labels by congruence.
  by rewrite series_gt_labels.
Qed.


Lemma detect_bursts_amp_frame (h : store) (df : nat) (t : frame) (x : float) (m : Z) :
  h !! df = Some t → frame_wf t →
  is_Some (df_cols t !! "burst_fraction") →
  ∃ flags, detect_bursts_amp h df x m = Ok (df, with_burst_flags h df t flags)
           ∧ length flags = df_len t.
Proof.
  intros Hdf Hwf H1. unfold detect_bursts_amp.
  destruct (df_getitem_ok h df t _ Hdf Hwf H1) as (s1 & -> & Hl1 & Hn1). simpl.
  destruct (min_consecutive_cycles_list ((λ frac, PrimFloat.leb x frac) <$> s1.*2) m)
    as (out & -> & Hle & _).
  rewrite !length_fmap in Hle.
  simpl. unfold df_setitem_list. rewrite Hdf.
  rewrite ensure_valid_index_fits by (rewrite range_index_length; lia).
  rewrite bool_decide_eq_true_2 by lia. simpl.
  exists out. split; [done|lia].
Qed.

End BurstFacts.

(** C9: on every boolean candidate sequence and for every minimum run
    length, the minimum-run post-processing returns, and its output is
    pointwise below its input: flags are only ever cleared, no false
    candidate becomes true. *)
Theorem min_consecutive_cycles_only_clears (is_burst : list bool) (min_n_cycles : Z) :
  ∃ out, _min_consecutive_cycles is_burst min_n_cycles = Ok out
         ∧ flags_le out is_burst.
Proof.
  destruct (min_consecutive_cycles_list is_burst min_n_cycles)
    as (out & Hrun & Hlen & Hle).
  exists out. split; [exact Hrun|].
  apply Forall2_same_length_lookup_2; [exact Hlen|].
  intros i o b Ho Hb ->. specialize (Hle i Ho). congruence.
Qed.

(** C2 fails on the code: on a table of five cycles that all pass the
    four thresholds, with [min_n_cycles = 3], the last cycle is flagged
    as a burst.  [is_burst[-1] = False] adds an entry under the label
    [-1] to the Series and leaves the last cycle as it was. *)
Theorem detect_bursts_cycles_last_cycle_flagged :
  detect_bursts_cycles ex_store 0 0 0.5 0.5 0.75 3
  = Ok (0, with_burst_flags ex_store 0 ex_frame [false; true; true; true; true]).
Proof. vm_compute. reflexivity. Qed.

(** C3 fails on the code: a run of true flags that ends with the
    sequence is never cleared, however short it is. *)
Theorem min_consecutive_cycles_keeps_short_trailing_run :
  _min_consecutive_cycles [true] 3 = Ok [true]
  ∧ _min_consecutive_cycles [true; false; true; true] 3
    = Ok [false; false; true; true]
  ∧ detect_bursts_amp ex_store 0 1 3
    = Ok (0, with_burst_flags ex_store 0 ex_frame [false; false; false; true; true]).
Proof. split_and!; vm_compute; reflexivity. Qed.

(** C10 fails on the code: on a table that has the measure columns
    and no rows, [detect_bursts_cycles] does not leave the table as it
    was.  The assignments [is_burst[0] = False] and
    [is_burst[-1] = False] give the empty Series the labels [0] and
    [-1], and storing that Series makes the table take its index: the
    table ends with two rows, and every column it had is filled with
    NaN.  [detect_bursts_amp] on the same table only adds an empty
    [is_burst]. *)
Theorem detect_bursts_cycles_grows_empty_table :
  detect_bursts_cycles ex_empty_store 0 0 0.5 0.5 0.75 3
  = Ok (0, <[0%nat := Frame [0; -1]%Z (
              <["is_burst" := ColBool [false; false]]>
              (<["amp_fraction" := ColFloat [nan; nan]]>
              (<["amp_consistency" := ColFloat [nan; nan]]>
              (<["period_consistency" := ColFloat [nan; nan]]>
              (<["burst_fraction" := ColFloat [nan; nan]]>
              (<["monotonicity" := ColFloat [nan; nan]]> ∅))))))]> ex_empty_store)
  ∧ detect_bursts_amp ex_empty_store 0 1 3
    = Ok (0, with_burst_flags ex_empty_store 0 ex_empty_frame []).
Proof. split; vm_compute; reflexivity. Qed.



(** * Properties of the group functions *)

Section GroupFacts.

Context {FeatureTable SampleTable : Type}.
Variable features_of : signal → float → float * float → gmap string value → FeatureTable.
Variable samples_of : signal → float → float * float → gmap string value → SampleTable.
Variable cpu_count : positive.

(** ** [_reshape_df] *)

Lemma div_chunks (n m : nat) : 0 < m → (n * m + (m - 1)) / m = n.
Proof.
  intros Hm. symmetry. apply (Nat.div_unique _ _ _ (m - 1)); lia.
Qed.

Lemma py_range_chunks (start n step : nat) :
  0 < step →
  py_range start (start + n * step) step
  = Ok ((λ k, start + k * step) <$> seq 0 n).
Proof.
  intros Hstep. unfold py_range. destruct step as [|step]; [lia|].
  do 3 f_equal.
  replace (start + n * S step - start) with (n * S step) by lia.
  by apply div_chunks.
Qed.

Lemma py_range_empty (start stop step : nat) :
  0 < step → stop ≤ start → py_range start stop step = Ok [].
Proof.
  intros Hstep Hle. unfold py_range. destruct step as [|step]; [lia|].
  replace (stop - start) with 0 by lia.
  by rewrite Nat.div_small by lia.
Qed.

Lemma reshape_df_refold {T} (df_features : list T) (sigs : ndarray3) (G : nat) :
  2 ≤ shape1 sigs →
  length df_features = G * shape1 sigs →
  ∃ chunks,
    _reshape_df df_features sigs = Ok chunks
    ∧ length chunks = G
    ∧ ∀ g, g < G →
        ∃ chunk, chunks !! g = Some chunk
                 ∧ length chunk = shape1 sigs
                 ∧ ∀ s, s < shape1 sigs →
                     chunk !! s = df_features !! (g * shape1 sigs + s).
Proof.
  intros HS Hlen. unfold _reshape_df. set (S' := shape1 sigs) in *.
  destruct (decide (G = 0)) as [->|HG].
  { apply nil_length_inv in Hlen as ->. simpl.
    rewrite !py_range_empty by lia. simpl.
    exists []. split_and!; [done..|]. intros g Hg. lia. }
  replace (length df_features * S') with (S' + (G * S' - 1) * S') by (rewrite Hlen; nia).
  rewrite py_range_chunks by lia.
  replace (length df_features) with (0 + G * S') by lia.
  rewrite py_range_chunks by lia. simpl.
  eexists. split; [done|].
  assert (G ≤ G * S' - 1) as Hcount by nia.
  split.
  - rewrite length_zip_with, !length_fmap, !length_seq. lia.
  - intros g Hg. eexists. split.
    + apply lookup_zip_with_Some. eexists _, _. split; [done|].
      rewrite !list_lookup_fmap, !lookup_seq_lt by lia. done.
    + simpl. unfold py_slice.
      replace (S' + g * S' - g * S') with S' by lia.
      split.
      * rewrite length_take, length_drop. nia.
      * intros s Hs. rewrite lookup_take_lt, lookup_drop by done. done.
Qed.

(** X11: with at least two signals per group, refolding is the
    inverse of flattening: [_reshape_df] returns [G] chunks of [shape1]
    results each, chunk [g] holding at [s] the flat result
    [g * shape1 + s]. *)
Lemma reshape_df_chunks {T} (df_features : list T) (sigs : ndarray3) (G : nat) :
  2 ≤ shape1 sigs →
  length df_features = G * shape1 sigs →
  ∃ chunks,
    _reshape_df df_features sigs = Ok chunks
    ∧ length chunks = G
    ∧ ∀ g, g < G →
        ∃ chunk, chunks !! g = Some chunk
                 ∧ length chunk = shape1 sigs
                 ∧ ∀ s, s < shape1 sigs →
                     chunk !! s = df_features !! (g * shape1 sigs + s).
Proof.
  intros HS Hlen.
  destruct (reshape_df_refold df_features sigs G HS Hlen) as (chunks & Hrun & Hchunks).
  by exists chunks.
Qed.

(** X12: with one signal per group the last group is lost:
    [_reshape_df] refolds [G] flat results into [G - 1] chunks. *)
Lemma reshape_df_single (T : Type) (df_features : list T) (sigs : ndarray3) :
  shape1 sigs = 1 →
  ∃ chunks, _reshape_df df_features sigs = Ok chunks
            ∧ length chunks = length df_features - 1.
Proof.
  intros HS. unfold _reshape_df. rewrite HS. unfold py_range.
  eexists. split; [done|].
  rewrite length_zip_with, !length_fmap, !length_seq.
  rewrite !Nat.div_1_r. lia.
Qed.

(** ** The monad *)

Lemma bind_ok {A B} (m : M A) (f : A → M B) (st st' : state) (a : A) :
  m st = (Ok a, st') → (m ≫= f) st = f a st'.
Proof. intros Hm. unfold mbind, M_bind. by rewrite Hm. Qed.

Lemma bind_raise {A B} (m : M A) (f : A → M B) (st st' : state) (e : exn) :
  m st = (Raise e, st') → (m ≫= f) st = (Raise e, st').
Proof. intros Hm. unfold mbind, M_bind. by rewrite Hm. Qed.

(** ** Stripping [return_samples] *)

Lemma strip_heap_lookup (ds : list nat) : ∀ (h : gmap nat (gmap string value)) (d : nat),
  strip_heap ds h !! d =
  if decide (d ∈ ds) then delete "return_samples" <$> h !! d else h !! d.
Proof.
  unfold strip_heap.
  induction ds as [|d0 ds IH]; intros h d; simpl.
  - done.
  - rewrite IH. destruct (decide (d = d0)) as [->|Hne].
    + rewrite lookup_alter_eq. rewrite (decide_True (P := d0 ∈ d0 :: ds)) by set_solver.
      destruct (h !! d0) as [kw|]; simpl; [|by case_decide].
      case_decide; simpl; [|done]. f_equal. apply delete_delete_eq.
    + rewrite lookup_alter_ne by done.
      destruct (decide (d ∈ ds)).
      * rewrite decide_True; [done|]. by right.
      * rewrite decide_False; [done|]. intros [?|?]%elem_of_cons; done.
Qed.

Lemma pop_return_samples_run (d : nat) (st : state) (kwargs : gmap string value) :
  heap st !! d = Some kwargs →
  pop_return_samples d st
  = (Ok (), State (alter (delete "return_samples") d (heap st)) (calls st)).
Proof.
  intros Hd. unfold pop_return_samples.
  rewrite (bind_ok _ _ st st kwargs) by (unfold deref; by rewrite Hd).
  assert (alter (delete "return_samples") d (heap st)
          = <[d := delete "return_samples" kwargs]> (heap st)) as ->.
  { apply map_eq. intros d'. destruct (decide (d' = d)) as [->|].
    - by rewrite lookup_alter_eq, lookup_insert_eq, Hd.
    - by rewrite lookup_alter_ne, lookup_insert_ne. }
  case_bool_decide as Hin; [done|].
  unfold mret, M_ret. do 2 f_equal.
  rewrite delete_id by (by apply not_elem_of_dom).
  rewrite insert_id by done. by destruct st.
Qed.

Lemma for_each_pop_run (ds : list nat) : ∀ (st : state),
  Forall (λ d, is_Some (heap st !! d)) ds →
  for_each ds pop_return_samples st
  = (Ok (), State (strip_heap ds (heap st)) (calls st)).
Proof.
  induction ds as [|d ds IH]; intros st Hlive; simpl.
  - by destruct st.
  - apply Forall_cons in Hlive as [[kwargs Hd] Hlive].
    erewrite bind_ok by (by eapply pop_return_samples_run).
    rewrite IH; [done|]. simpl.
    eapply Forall_impl; [exact Hlive|]. intros d' [kw' Hd']. simpl.
    destruct (decide (d' = d)) as [->|].
    + rewrite lookup_alter_eq, Hd. by eexists.
    + rewrite lookup_alter_ne by done. by eexists.
Qed.

Lemma map_M_deref_run (ds : list nat) (st : state) (configs : list (gmap string value)) :
  Forall2 (λ d kwargs, heap st !! d = Some kwargs) ds configs →
  map_M deref ds st = (Ok configs, st).
Proof.
  induction 1 as [|d kwargs ds configs Hd _ IH]; simpl; [done|].
  erewrite bind_ok by (unfold deref; by rewrite Hd).
  by erewrite bind_ok by exact IH.
Qed.

(** ** The pool *)

Lemma complete_tasks_acc {B} (run : call → B) (tasks : list call) (sched : list nat) :
  ∀ (slots0 : gmap nat B) (log0 : list call),
  let done :=
    foldl (λ acc i,
             match tasks !! i with
             | Some c => (<[i := run c]> acc.1, acc.2 ++ [c])
             | None => acc
             end) (slots0, log0) sched in
  (∀ i, done.1 !! i =
        match (if decide (i ∈ sched) then tasks !! i else None) with
        | Some c => Some (run c)
        | None => slots0 !! i
        end)
  ∧ done.2 = log0 ++ omap (λ i, tasks !! i) sched.
Proof.
  induction sched as [|i0 sched IH]; intros slots0 log0; simpl.
  - split; [done|by rewrite app_nil_r].
  - destruct (tasks !! i0) as [c0|] eqn:Hi0; simpl.
    + destruct (IH (<[i0 := run c0]> slots0) (log0 ++ [c0])) as [Hslots Hlog].
      split; [|by rewrite Hlog, <- app_assoc].
      intros i. rewrite Hslots.
      destruct (decide (i ∈ sched)) as [Hin|Hnin].
      * rewrite decide_True by (by right).
        destruct (tasks !! i) as [c|] eqn:Hi; [done|].
        rewrite lookup_insert_ne; [done|congruence].
      * destruct (decide (i = i0)) as [->|Hne].
        -- rewrite decide_True by (by left). by rewrite Hi0, lookup_insert_eq.
        -- rewrite decide_False by (intros [?|?]%elem_of_cons; done).
           by rewrite lookup_insert_ne.
    + destruct (IH slots0 log0) as [Hslots Hlog].
      split; [|done].
      intros i. rewrite Hslots.
      destruct (decide (i ∈ sched)) as [Hin|Hnin].
      * by rewrite decide_True by (by right).
      * destruct (decide (i = i0)) as [->|Hne].
        -- rewrite decide_True by (by left). by rewrite Hi0.
        -- by rewrite decide_False by (intros [?|?]%elem_of_cons; done).
Qed.

(** The slots hold the results of exactly the scheduled tasks, and the
    workers are invoked once per scheduled task, in completion order. *)
Lemma complete_tasks_spec {B} (run : call → B) (tasks : list call) (sched : list nat) :
  (∀ i, (complete_tasks run tasks sched).1 !! i =
        if decide (i ∈ sched) then run <$> tasks !! i else None)
  ∧ (complete_tasks run tasks sched).2 = omap (λ i, tasks !! i) sched.
Proof.
  destruct (complete_tasks_acc run tasks sched ∅ []) as [Hslots Hlog].
  split; [|done].
  intros i. unfold complete_tasks. rewrite Hslots.
  case_decide; [|done]. by destruct (tasks !! i).
Qed.

Lemma collect_slots_acc {B} (bs : list B) (slots : gmap nat B) :
  (∀ i, i < length bs → slots !! i = bs !! i) →
  ∀ (n k : nat) (acc : list B), k + n ≤ length bs →
  for_loop (seq k n)
    (λ i acc, match slots !! i with
              | Some b => Ok (acc ++ [b])
              | None => Raise PoolStuck
              end) acc
  = Ok (acc ++ take n (drop k bs)).
Proof.
  intros Hslots. induction n as [|n IH]; intros k acc Hk; simpl.
  - by rewrite app_nil_r.
  - destruct (lookup_lt_is_Some_2 bs k) as [b Hb]; [lia|].
    rewrite Hslots, Hb by lia. simpl.
    rewrite IH by lia. rewrite (drop_S _ _ _ Hb). simpl.
    by rewrite <- app_assoc.
Qed.

Lemma collect_slots_ok {B} (bs : list B) (slots : gmap nat B) :
  (∀ i, i < length bs → slots !! i = bs !! i) →
  collect_slots (length bs) slots = Ok bs.
Proof.
  intros Hslots. unfold collect_slots.
  rewrite (collect_slots_acc bs slots Hslots) by lia.
  simpl. by rewrite drop_0, firstn_all.
Qed.

Lemma omap_lookup_seq {A} (l : list A) :
  omap (λ i, l !! i) (seq 0 (length l)) = l.
Proof.
  induction l as [|x l IH]; simpl; [done|].
  f_equal. rewrite <- fmap_S_seq.
  rewrite <- IH at 2. clear IH.
  generalize (seq 0 (length l)). intros idxs.
  change (omap (λ i, (x :: l) !! i) (S <$> idxs) = omap (λ i, l !! i) idxs).
  induction idxs as [|i idxs IH]; csimpl; [done|]. by rewrite IH.
Qed.

(** Whatever the order in which the workers complete the tasks, the
    iteration over the mapping yields the results in submission order,
    and every task is run exactly once. *)
Lemma imap_run {B} (run : call → B) (tasks : list call) (sched : list nat) (st : state) :
  sched ≡ₚ seq 0 (length tasks) →
  ∃ log, log ≡ₚ tasks
         ∧ imap run tasks sched st
           = (Ok (run <$> tasks), State (heap st) (calls st ++ log)).
Proof.
  intros Hperm.
  destruct (complete_tasks_spec run tasks sched) as [Hslots Hlog].
  exists (omap (λ i, tasks !! i) sched). split.
  { rewrite Hperm. by rewrite omap_lookup_seq. }
  unfold imap. rewrite Hlog.
  erewrite bind_ok by (unfold log_calls; reflexivity).
  unfold lift.
  rewrite <- (length_fmap run tasks).
  rewrite (collect_slots_ok (run <$> tasks)); [done|].
  intros i Hi. rewrite Hslots, list_lookup_fmap.
  rewrite decide_True; [done|].
  rewrite Hperm. apply elem_of_seq. rewrite length_fmap in Hi. lia.
Qed.

(** ** [compute_features_2d], step by step *)

Lemma open_pool_run (n_jobs : Z) (st : state) :
  pool_ok n_jobs →
  open_pool (resolve_n_jobs cpu_count n_jobs) st = (Ok (), st).
Proof.
  intros Hok. unfold open_pool, resolve_n_jobs.
  destruct (decide (n_jobs = -1)%Z) as [->|Hne].
  - rewrite (bool_decide_eq_true_2 (-1 = -1)%Z) by done.
    rewrite bool_decide_eq_false_2; [done|lia].
  - rewrite (bool_decide_eq_false_2 (n_jobs = -1)%Z) by done.
    rewrite bool_decide_eq_false_2; [done|]. destruct Hok; lia.
Qed.

Lemma strip_heap_deref (ds : list nat) (h : gmap nat (gmap string value))
    (configs : list (gmap string value)) :
  Forall2 (λ d kwargs, h !! d = Some kwargs) ds configs →
  Forall2 (λ d kwargs, strip_heap ds h !! d = Some kwargs) ds
    (delete "return_samples" <$> configs).
Proof.
  intros Hlive. apply Forall2_fmap_r.
  apply Forall2_same_length_lookup. split; [by eapply Forall2_length|].
  intros i d kwargs Hd Hkw.
  rewrite strip_heap_lookup.
  rewrite decide_True by (by eapply list_elem_of_lookup_2).
  destruct (Forall2_lookup_l _ _ _ _ _ Hlive Hd) as (kwargs' & Hkw' & ->).
  by simplify_eq.
Qed.

(** A list of dicts of the right length: the dicts are stripped, then
    signal [i] is submitted with the stripped dict [i]. *)
Lemma compute_features_2d_list_run (sched : list nat) (sigs : list signal) (fs : float)
    (f_range : float * float) (ds : list nat) (return_samples : bool) (n_jobs : Z)
    (progress : option string) (st : state) (configs : list (gmap string value)) :
  length ds = length sigs →
  Forall2 (λ d kwargs, heap st !! d = Some kwargs) ds configs →
  pool_ok n_jobs →
  sched ≡ₚ seq 0 (length sigs) →
  let tasks := zip_with (λ sig kwargs, Call sig fs f_range return_samples kwargs) sigs
                 (delete "return_samples" <$> configs) in
  ∃ log, log ≡ₚ tasks
    ∧ compute_features_2d features_of samples_of cpu_count sched sigs fs f_range
        (Some (KwList ds)) return_samples n_jobs progress st
      = (unzip_results return_samples
           (run_call features_of samples_of return_samples <$> tasks),
         State (strip_heap ds (heap st)) (calls st ++ log)).
Proof.
  intros Hlen Hlive Hpool Hperm tasks.
  pose proof (Forall2_length _ _ _ Hlive) as Hlen'.
  assert (length tasks = length sigs) as Htasks.
  { unfold tasks. rewrite length_zip_with, length_fmap. lia. }
  set (st1 := State (strip_heap ds (heap st)) (calls st)).
  destruct (imap_run (run_call features_of samples_of return_samples) tasks sched st1)
    as (log & Hlog & Himap); [by rewrite Htasks|].
  exists log. split; [done|].
  unfold compute_features_2d.
  erewrite bind_ok; last first.
  { unfold check_kwargs_2d. by rewrite bool_decide_eq_false_2 by (intros ?; done). }
  unfold dispatch_2d.
  erewrite bind_ok; last first.
  { simpl. apply for_each_pop_run.
    eapply Forall2_Forall_l; [exact Hlive|].
    apply Forall_forall. intros kw _ d Hd. by eexists. }
  erewrite bind_ok by (by apply open_pool_run).
  erewrite bind_ok; last first.
  { unfold submit_tasks. erewrite bind_ok; [reflexivity|].
    apply map_M_deref_run. by apply strip_heap_deref. }
  replace (_ <$> zip sigs _) with tasks by (unfold tasks; by rewrite zip_with_zip).
  fold st1. erewrite bind_ok by exact Himap.
  done.
Qed.

(** One dict for all signals: it is stripped, then every signal is
    submitted with it. *)
Lemma compute_features_2d_dict_run (sched : list nat) (sigs : list signal) (fs : float)
    (f_range : float * float) (d : nat) (return_samples : bool) (n_jobs : Z)
    (progress : option string) (st : state) (kwargs : gmap string value) :
  heap st !! d = Some kwargs →
  pool_ok n_jobs →
  sched ≡ₚ seq 0 (length sigs) →
  let tasks := (λ sig, Call sig fs f_range return_samples
                         (delete "return_samples" kwargs)) <$> sigs in
  ∃ log, log ≡ₚ tasks
    ∧ compute_features_2d features_of samples_of cpu_count sched sigs fs f_range
        (Some (KwDict d)) return_samples n_jobs progress st
      = (unzip_results return_samples
           (run_call features_of samples_of return_samples <$> tasks),
         State (strip_heap [d] (heap st)) (calls st ++ log)).
Proof.
  intros Hd Hpool Hperm tasks.
  set (st1 := State (strip_heap [d] (heap st)) (calls st)).
  destruct (imap_run (run_call features_of samples_of return_samples) tasks sched st1)
    as (log & Hlog & Himap); [by unfold tasks; rewrite length_fmap|].
  exists log. split; [done|].
  unfold compute_features_2d.
  erewrite bind_ok by (unfold check_kwargs_2d; reflexivity).
  unfold dispatch_2d.
  erewrite bind_ok by (simpl; by eapply pop_return_samples_run).
  erewrite bind_ok by (by apply open_pool_run).
  erewrite bind_ok; last first.
  { unfold submit_tasks. erewrite bind_ok; [reflexivity|].
    unfold deref. simpl. by rewrite lookup_alter_eq, Hd. }
  fold tasks. erewrite bind_ok by exact Himap.
  done.
Qed.

Lemma Forall_live_configs (h : gmap nat (gmap string value)) (ds : list nat) :
  Forall (λ d, is_Some (h !! d)) ds →
  ∃ configs, Forall2 (λ d kwargs, h !! d = Some kwargs) ds configs.
Proof.
  induction 1 as [|d ds [kwargs Hd] _ [configs IH]].
  - by exists [].
  - exists (kwargs :: configs). by constructor.
Qed.


(** What the calls logged by [compute_features_2d] look like. *)
Lemma compute_features_2d_calls (sched : list nat) (sigs : list signal) (fs : float)
    (f_range : float * float) (kw : kwargs_2d) (return_samples : bool) (n_jobs : Z)
    (progress : option string) (st : state) :
  (∀ ds, kw = KwList ds → length ds = length sigs) →
  Forall (λ d, is_Some (heap st !! d)) (kwargs_refs kw) →
  pool_ok n_jobs →
  sched ≡ₚ seq 0 (length sigs) →
  let st' := (compute_features_2d features_of samples_of cpu_count sched sigs fs f_range
                (Some kw) return_samples n_jobs progress st).2 in
  heap st' = strip_heap (kwargs_refs kw) (heap st)
  ∧ ∃ log, calls st' = calls st ++ log
      ∧ length log = length sigs
      ∧ ∀ c, c ∈ log →
          call_return_samples c = return_samples
          ∧ call_kwargs c !! "return_samples" = None.
Proof.
  intros Hlen Hlive Hpool Hperm. destruct kw as [d|ds]; simpl in Hlive.
  - apply Forall_cons in Hlive as [[kwargs Hd] _].
    destruct (compute_features_2d_dict_run sched sigs fs f_range d return_samples
                n_jobs progress st kwargs Hd Hpool Hperm) as (log & Hlog & ->).
    simpl. split; [done|]. exists log. split_and!; [done| |].
    + by rewrite Hlog, length_fmap.
    + intros c Hc. rewrite Hlog in Hc.
      apply list_elem_of_fmap in Hc as (sig & -> & _). simpl.
      split; [done|apply lookup_delete_eq].
  - destruct (Forall_live_configs _ _ Hlive) as [configs Hconfigs].
    specialize (Hlen ds eq_refl).
    destruct (compute_features_2d_list_run sched sigs fs f_range ds return_samples
                n_jobs progress st configs Hlen Hconfigs Hpool Hperm)
      as (log & Hlog & ->).
    simpl. split; [done|]. exists log. split_and!; [done| |].
    + rewrite Hlog, length_zip_with, length_fmap.
      apply Forall2_length in Hconfigs. lia.
    + intros c Hc. rewrite Hlog in Hc.
      apply list_elem_of_lookup in Hc as [i Hi].
      apply lookup_zip_with_Some in Hi as (sig & kw & -> & _ & Hkw).
      rewrite list_lookup_fmap in Hkw.
      destruct (configs !! i) as [kwargs|]; simplify_eq/=.
      split; [done|apply lookup_delete_eq].
Qed.

(** ** [compute_features_3d], step by step *)

Lemma pool_ok_resolve (n_jobs : Z) :
  pool_ok n_jobs → pool_ok (resolve_n_jobs cpu_count n_jobs).
Proof.
  unfold pool_ok, resolve_n_jobs. intros Hok. case_bool_decide; lia.
Qed.

Lemma compute_features_3d_after_check (sched : list nat) (sigs : ndarray3) (fs : float)
    (f_range : float * float) (kw : option kwargs_3d) (return_samples : bool)
    (n_jobs : Z) (progress : option string) (st st1 : state) (kw2 : kwargs_2d) :
  check_kwargs_3d sigs kw st = (Ok kw2, st1) →
  compute_features_3d features_of samples_of cpu_count sched sigs fs f_range kw
    return_samples n_jobs progress st
  = (compute_features_2d features_of samples_of cpu_count sched (reshape_2d sigs) fs
       f_range (Some kw2) return_samples (resolve_n_jobs cpu_count n_jobs) progress
     ≫= λ df_features, lift (reshape_returned sigs df_features)) st1.
Proof.
  intros Hcheck. unfold compute_features_3d. by erewrite bind_ok by exact Hcheck.
Qed.

Lemma bind_lift_state {A B} (m : M A) (f : A → result B) (st : state) :
  ((m ≫= λ a, lift (f a)) st).2 = (m st).2.
Proof. unfold mbind, M_bind, lift. by destruct (m st) as [[a|e] st']. Qed.

Lemma reshape_2d_length (sigs : ndarray3) :
  length (reshape_2d sigs) = shape0 sigs * shape1 sigs.
Proof. unfold reshape_2d. by rewrite length_fmap, length_seq. Qed.

(** Flatten: signal [(g, s)] is row [g * shape1 + s] of the 2d array. *)
Lemma reshape_2d_lookup (sigs : ndarray3) (g s : nat) :
  g < shape0 sigs → s < shape1 sigs →
  reshape_2d sigs !! (g * shape1 sigs + s) = Some (sig_at sigs g s).
Proof.
  intros Hg Hs. unfold reshape_2d, sig_at.
  rewrite list_lookup_fmap, lookup_seq_lt; [done|]. nia.
Qed.

Lemma concat_replicate_lookup {A} (n : nat) (l : list A) (g s : nat) :
  s < n → concat ((λ x, replicate n x) <$> l) !! (g * n + s) = l !! g.
Proof.
  intros Hs. revert g. induction l as [|x l IH]; intros g; csimpl.
  - by rewrite !lookup_nil.
  - destruct g as [|g]; simpl.
    + rewrite lookup_app_l by (by rewrite length_replicate).
      by apply lookup_replicate_2.
    + rewrite lookup_app_r by (rewrite length_replicate; lia).
      rewrite length_replicate.
      replace (n + g * n + s - n) with (g * n + s) by lia. apply IH.
Qed.

Lemma concat_replicate_length {A} (n : nat) (l : list A) :
  length (concat ((λ x, replicate n x) <$> l)) = length l * n.
Proof.
  induction l as [|x l IH]; csimpl; [done|].
  rewrite length_app, length_replicate. lia.
Qed.

Lemma Forall2_concat_replicate {A B} (P : A → B → Prop) (n : nat)
    (l : list A) (k : list B) :
  Forall2 P l k →
  Forall2 P (concat ((λ x, replicate n x) <$> l)) (concat ((λ y, replicate n y) <$> k)).
Proof.
  induction 1 as [|x y l k Hxy _ IH]; csimpl; [done|].
  apply Forall2_app; [by apply Forall2_replicate|done].
Qed.

(** C6: for [compute_features_3d] given a 1d list of configurations
    whose length is the number of groups, the routine is invoked once
    per signal, and for every signal [(g, s)]: the flat list of
    per-signal configurations holds, at index [g * shape1 + s], the
    configuration at index [g] of the list, row [g * shape1 + s] of the
    flattened signals is signal [(g, s)], and the routine is invoked on
    signal [(g, s)] with configuration [g]. *)
Theorem kwargs_1d_repeated_per_group (sched : list nat) (sigs : ndarray3) (fs : float)
    (f_range : float * float) (ds : list nat) (return_samples : bool) (n_jobs : Z)
    (progress : option string) (st : state) (configs : list (gmap string value)) :
  length ds = shape0 sigs →
  Forall2 (λ d kwargs, heap st !! d = Some kwargs) ds configs →
  pool_ok n_jobs →
  sched ≡ₚ seq 0 (shape0 sigs * shape1 sigs) →
  ∃ log,
    calls (compute_features_3d features_of samples_of cpu_count sched sigs fs
             f_range (Some (Kw3List1 ds)) return_samples n_jobs progress st).2
    = calls st ++ log
    ∧ length log = shape0 sigs * shape1 sigs
    ∧ ∀ g s, g < shape0 sigs → s < shape1 sigs →
        ∃ d kwargs,
          ds !! g = Some d ∧ configs !! g = Some kwargs
          ∧ repeat_kwargs ds sigs !! (g * shape1 sigs + s) = Some d
          ∧ reshape_2d sigs !! (g * shape1 sigs + s) = Some (sig_at sigs g s)
          ∧ Call (sig_at sigs g s) fs f_range return_samples
              (delete "return_samples" kwargs) ∈ log.
Proof.
  intros Hlen Hlive Hpool Hperm.
  erewrite compute_features_3d_after_check; last first.
  { unfold check_kwargs_3d, check_kwargs_shape.
    rewrite bool_decide_eq_false_2 by (intros ?; done). reflexivity. }
  rewrite bind_lift_state.
  destruct (compute_features_2d_list_run sched (reshape_2d sigs) fs f_range
              (repeat_kwargs ds sigs) return_samples
              (resolve_n_jobs cpu_count n_jobs) progress st
              (concat ((λ y, replicate (shape1 sigs) y) <$> configs)))
    as (log & Hlog & ->).
  { unfold repeat_kwargs.
    rewrite concat_replicate_length, reshape_2d_length. by rewrite Hlen. }
  { by apply Forall2_concat_replicate. }
  { by apply pool_ok_resolve. }
  { by rewrite reshape_2d_length. }
  exists log. split; [done|]. split.
  { rewrite Hlog, length_zip_with, reshape_2d_length, length_fmap.
    rewrite concat_replicate_length. apply Forall2_length in Hlive. lia. }
  intros g s Hg Hs.
  destruct (lookup_lt_is_Some_2 ds g) as [d Hd]; [lia|].
  destruct (Forall2_lookup_l _ _ _ _ _ Hlive Hd) as (kwargs & Hkw & _).
  exists d, kwargs.
  assert (repeat_kwargs ds sigs !! (g * shape1 sigs + s) = Some d) as Hflat.
  { unfold repeat_kwargs. by rewrite concat_replicate_lookup. }
  pose proof (reshape_2d_lookup sigs g s Hg Hs) as Hrow.
  split_and!; [done..|].
  rewrite Hlog.
  apply list_elem_of_lookup. exists (g * shape1 sigs + s).
  apply lookup_zip_with_Some. eexists _, _. split_and!; [done..|].
  rewrite list_lookup_fmap, concat_replicate_lookup by done.
  by rewrite Hkw.
Qed.

(** C7: for every configuration handed to [compute_features_2d], the
    key [return_samples] is gone from every dictionary when the tasks
    are submitted, and every invocation of the routine, one per signal,
    gets the [return_samples] of the caller and keyword arguments
    without that key. *)
Theorem return_samples_from_caller_only (sched : list nat) (sigs : list signal)
    (fs : float) (f_range : float * float) (kw : kwargs_2d) (return_samples : bool)
    (n_jobs : Z) (progress : option string) (st : state) :
  (∀ ds, kw = KwList ds → length ds = length sigs) →
  Forall (λ d, is_Some (heap st !! d)) (kwargs_refs kw) →
  pool_ok n_jobs →
  sched ≡ₚ seq 0 (length sigs) →
  let st' := (compute_features_2d features_of samples_of cpu_count sched sigs fs f_range
                (Some kw) return_samples n_jobs progress st).2 in
  (∀ d kwargs, d ∈ kwargs_refs kw → heap st !! d = Some kwargs →
     heap st' !! d = Some (delete "return_samples" kwargs))
  ∧ ∃ log, calls st' = calls st ++ log
      ∧ length log = length sigs
      ∧ ∀ c, c ∈ log →
          call_return_samples c = return_samples
          ∧ call_kwargs c !! "return_samples" = None.
Proof.
  intros Hlen Hlive Hpool Hperm.
  destruct (compute_features_2d_calls sched sigs fs f_range kw return_samples n_jobs
              progress st Hlen Hlive Hpool Hperm) as [Hheap Hcalls].
  split; [|done].
  intros d kwargs Hd Hkw. rewrite Hheap, strip_heap_lookup.
  rewrite decide_True by done. by rewrite Hkw.
Qed.

(** ** No shape error once the shapes fit *)

Lemma returns_ret {A} (Q : A → Prop) (a : A) : Q a → returns Q (mret a).
Proof. intros Ha st. exact Ha. Qed.

Lemma returns_bind {A B} (Q : A → Prop) (R : B → Prop) (m : M A) (f : A → M B) :
  returns Q m → (∀ a, Q a → returns R (f a)) → returns R (m ≫= f).
Proof.
  intros Hm Hf st. specialize (Hm st). unfold mbind, M_bind.
  destruct (m st) as [[a|e] st']; simpl in *; [|done].
  apply Hf, Hm.
Qed.

Lemma returns_weaken {A} (Q R : A → Prop) (m : M A) :
  returns Q m → (∀ a, Q a → R a) → returns R m.
Proof.
  intros Hm HQR st. specialize (Hm st). destruct ((m st).1); [by apply HQR|done].
Qed.

Lemma returns_lift {A} (Q : A → Prop) (r : result A) :
  match r with Ok a => Q a | Raise e => shape_error e = false end → returns Q (lift r).
Proof. intros Hr st. exact Hr. Qed.

Lemma returns_raise {A} (Q : A → Prop) (e : exn) :
  shape_error e = false → returns Q (raise e).
Proof. intros He st. exact He. Qed.

Lemma returns_deref (d : nat) : returns (λ _, True) (deref d).
Proof. intros st. unfold deref. by destruct (heap st !! d). Qed.

Lemma returns_pop (d : nat) : returns (λ _, True) (pop_return_samples d).
Proof.
  unfold pop_return_samples. eapply returns_bind; [apply returns_deref|].
  intros kwargs _. case_bool_decide; by intros st.
Qed.

Lemma returns_for_each {A} (xs : list A) (body : A → M unit) :
  (∀ x, returns (λ _, True) (body x)) → returns (λ _, True) (for_each xs body).
Proof.
  intros Hbody. induction xs as [|x xs IH]; simpl; [by intros st|].
  eapply returns_bind; [apply Hbody|]. by intros _ _.
Qed.

Lemma returns_map_M {A B} (f : A → M B) (xs : list A) :
  (∀ x, returns (λ _, True) (f x)) → returns (λ _, True) (map_M f xs).
Proof.
  intros Hf. induction xs as [|x xs IH]; simpl; [by intros st|].
  eapply returns_bind; [apply Hf|]. intros y _.
  eapply returns_bind; [apply IH|]. by intros ys _ st.
Qed.

Lemma for_loop_no_shape_error {A St} (xs : list A) (body : A → St → result St) :
  (∀ x st e, body x st = Raise e → shape_error e = false) →
  ∀ st e, for_loop xs body st = Raise e → shape_error e = false.
Proof.
  intros Hbody. induction xs as [|x xs IH]; intros st e; simpl; [done|].
  specialize (Hbody x st). destruct (body x st) as [st'|e']; simpl; [apply IH|].
  intros [= <-]. by apply Hbody.
Qed.

Lemma returns_imap {B} (run : call → B) (tasks : list call) (sched : list nat) :
  returns (λ _, True) (imap run tasks sched).
Proof.
  unfold imap. eapply (returns_bind (λ _, True)); [by intros st|]. intros _ _.
  apply returns_lift. unfold collect_slots.
  destruct (for_loop _ _ _) as [slots|e] eqn:Heq; [done|].
  eapply for_loop_no_shape_error; [|exact Heq].
  intros i acc e'. simpl.
  destruct ((complete_tasks run tasks sched).1 !! i); [done|]. by intros [= <-].
Qed.

Lemma reshape_df_no_shape_error {T} (df_features : list T) (sigs : ndarray3) (e : exn) :
  _reshape_df df_features sigs = Raise e → shape_error e = false.
Proof.
  unfold _reshape_df, py_range. destruct (shape1 sigs); [|done]. by intros [= <-].
Qed.

Lemma reshape_returned_no_shape_error (sigs : ndarray3)
    (r : returned (list FeatureTable) (list SampleTable)) (e : exn) :
  reshape_returned sigs r = Raise e → shape_error e = false.
Proof.
  destruct r as [f|f smp]; simpl; unfold mbind, result_bind.
  - destruct (_reshape_df f sigs) eqn:Hf; [done|].
    intros [= <-]. by eapply reshape_df_no_shape_error.
  - destruct (_reshape_df smp sigs) eqn:Hs.
    + destruct (_reshape_df f sigs) eqn:Hf; [done|].
      intros [= <-]. by eapply reshape_df_no_shape_error.
    + intros [= <-]. by eapply reshape_df_no_shape_error.
Qed.

(** Past its length check, [compute_features_2d] raises no shape error. *)
Lemma compute_features_2d_no_mismatch (sched : list nat) (sigs : list signal)
    (fs : float) (f_range : float * float) (kw : option kwargs_2d)
    (return_samples : bool) (n_jobs : Z) (progress : option string) :
  kwargs_match_2d sigs kw →
  returns (λ _, True)
    (compute_features_2d features_of samples_of cpu_count sched sigs fs f_range kw
       return_samples n_jobs progress).
Proof.
  intros Hmatch. unfold compute_features_2d.
  eapply (returns_bind (λ _, True)).
  { unfold check_kwargs_2d. destruct kw as [[d|ds]|]; simpl in Hmatch.
    - by intros st.
    - rewrite bool_decide_eq_false_2 by (intros ?; done). by intros st.
    - by intros st. }
  intros kw2 _. unfold dispatch_2d.
  eapply (returns_bind (λ _, True)).
  { destruct kw2 as [d|ds]; simpl.
    - apply returns_pop.
    - apply returns_for_each, returns_pop. }
  intros _ _.
  eapply (returns_bind (λ _, True)).
  { unfold open_pool. case_bool_decide; by intros st. }
  intros _ _.
  eapply (returns_bind (λ _, True)).
  { unfold submit_tasks. destruct kw2 as [d|ds].
    - eapply returns_bind; [apply returns_deref|]. by intros kwargs _ st.
    - eapply returns_bind; [apply returns_map_M, returns_deref|].
      by intros kwargs _ st. }
  intros tasks _.
  eapply (returns_bind (λ _, True)); [apply returns_imap|].
  intros mapping _. apply returns_lift.
  unfold unzip_results. destruct return_samples; [|done].
  by destruct (progress_bar mapping progress (length sigs)).
Qed.

Lemma concat_length_uniform {A} (m : nat) (rows : list (list A)) :
  Forall (λ r, length r = m) rows → length (concat rows) = length rows * m.
Proof.
  induction 1 as [|r rows Hr _ IH]; simpl; [done|].
  rewrite length_app. lia.
Qed.

Lemma np_shape_nested_length (dss : list (list nat)) (shape : kw_shape) (sigs : ndarray3) :
  np_shape_nested dss = Ok shape → shape_matches shape sigs →
  length (concat dss) = shape0 sigs * shape1 sigs.
Proof.
  unfold np_shape_nested. destruct dss as [|row rows].
  - intros [= <-]. simpl. intros <-. done.
  - case_bool_decide as Hrect; [|done]. intros [= <-]. simpl. intros [<- <-].
    rewrite length_app, (concat_length_uniform (length row)) by done. lia.
Qed.

(** Past its shape check, [compute_features_3d] hands
    [compute_features_2d] kwargs that fit the flattened signals. *)
Lemma check_kwargs_3d_returns (sigs : ndarray3) (kw : option kwargs_3d) :
  kwargs_match_3d sigs kw →
  returns (λ kw2, kwargs_match_2d (reshape_2d sigs) (Some kw2))
    (check_kwargs_3d sigs kw).
Proof.
  intros Hmatch. unfold check_kwargs_3d.
  destruct kw as [[d|ds|dss]|]; simpl in Hmatch.
  - by intros st.
  - unfold check_kwargs_shape.
    rewrite bool_decide_eq_false_2 by (intros ?; done).
    intros st. simpl. unfold repeat_kwargs.
    by rewrite concat_replicate_length, reshape_2d_length, Hmatch.
  - destruct Hmatch as (shape & Hshape & Hfit). rewrite Hshape.
    assert (check_kwargs_shape shape sigs = mret ()) as Hcheck.
    { unfold check_kwargs_shape. destruct shape as [n|n m]; simpl in Hfit.
      - by rewrite bool_decide_eq_false_2 by (intros ?; done).
      - destruct Hfit as [-> ->].
        by rewrite !bool_decide_eq_false_2 by (intros ?; done). }
    intros st. unfold mbind, M_bind, lift. rewrite Hcheck. simpl.
    rewrite reshape_2d_length. by eapply np_shape_nested_length.
  - by intros st.
Qed.

Lemma np_shape_nested_raises (dss : list (list nat)) (e : exn) :
  np_shape_nested dss = Raise e → e = InhomogeneousShape.
Proof.
  unfold np_shape_nested. destruct dss as [|row rows]; [done|].
  case_bool_decide; [done|]. by intros [= <-].
Qed.

Lemma compute_features_3d_ragged (sched : list nat) (sigs : ndarray3) (fs : float)
    (f_range : float * float) (dss : list (list nat)) (return_samples : bool)
    (n_jobs : Z) (progress : option string) (st : state) :
  np_shape_nested dss = Raise InhomogeneousShape →
  compute_features_3d features_of samples_of cpu_count sched sigs fs f_range
    (Some (Kw3List2 dss)) return_samples n_jobs progress st
  = (Raise InhomogeneousShape, st).
Proof.
  intros Hshape. unfold compute_features_3d, check_kwargs_3d.
  apply bind_raise, bind_raise. by rewrite Hshape.
Qed.

Lemma compute_features_3d_wrong_shape (sched : list nat) (sigs : ndarray3) (fs : float)
    (f_range : float * float) (dss : list (list nat)) (shape : kw_shape)
    (return_samples : bool) (n_jobs : Z) (progress : option string) (st : state) :
  np_shape_nested dss = Ok shape → ¬ shape_matches shape sigs →
  compute_features_3d features_of samples_of cpu_count sched sigs fs f_range
    (Some (Kw3List2 dss)) return_samples n_jobs progress st
  = (Raise ShapeMismatch, st).
Proof.
  intros Hshape Hfit. unfold compute_features_3d, check_kwargs_3d.
  apply bind_raise. rewrite Hshape.
  erewrite bind_ok by (unfold lift; reflexivity).
  apply bind_raise. unfold check_kwargs_shape.
  destruct shape as [n|n m]; simpl in Hfit.
  - by rewrite bool_decide_eq_true_2.
  - destruct (decide (n = shape0 sigs)) as [->|Hn].
    + rewrite (bool_decide_eq_false_2 (shape0 sigs ≠ shape0 sigs)) by (intros ?; done).
      rewrite bool_decide_eq_true_2; [done|]. intros ->. by apply Hfit.
    + by rewrite bool_decide_eq_true_2.
Qed.

Lemma compute_features_3d_wrong_length (sched : list nat) (sigs : ndarray3) (fs : float)
    (f_range : float * float) (ds : list nat) (return_samples : bool)
    (n_jobs : Z) (progress : option string) (st : state) :
  length ds ≠ shape0 sigs →
  compute_features_3d features_of samples_of cpu_count sched sigs fs f_range
    (Some (Kw3List1 ds)) return_samples n_jobs progress st
  = (Raise ShapeMismatch, st).
Proof.
  intros Hne. unfold compute_features_3d, check_kwargs_3d.
  apply bind_raise, bind_raise. unfold check_kwargs_shape.
  by rewrite bool_decide_eq_true_2.
Qed.

(** C4: kwargs that do not fit the signals make [compute_features_2d]
    and [compute_features_3d] raise a shape error in the state they
    were called in: no dictionary is touched and the routine is not
    invoked.  That holds for a list whose length is not the number of
    signals, a 1d list whose length is not the number of groups, a 2d
    list whose shape is not that of the first two dimensions of the
    signals, and a ragged 2d list, whose rows differ in length: every
    kwargs argument that does not fit is one of these.  Kwargs that fit
    never raise a shape error. *)
Theorem shape_mismatch_fails_fast (sched : list nat) (fs : float)
    (f_range : float * float) (return_samples : bool) (n_jobs : Z)
    (progress : option string) (st : state) :
  (∀ sigs ds, length ds ≠ length sigs →
     compute_features_2d features_of samples_of cpu_count sched sigs fs f_range
       (Some (KwList ds)) return_samples n_jobs progress st
     = (Raise ShapeMismatch, st))
  ∧ (∀ sigs kw, kwargs_match_2d sigs kw →
       ∀ e, shape_error e = true →
         (compute_features_2d features_of samples_of cpu_count sched sigs fs f_range kw
            return_samples n_jobs progress st).1 ≠ Raise e)
  ∧ (∀ sigs ds, length ds ≠ shape0 sigs →
       compute_features_3d features_of samples_of cpu_count sched sigs fs f_range
         (Some (Kw3List1 ds)) return_samples n_jobs progress st
       = (Raise ShapeMismatch, st))
  ∧ (∀ sigs dss shape, np_shape_nested dss = Ok shape → ¬ shape_matches shape sigs →
       compute_features_3d features_of samples_of cpu_count sched sigs fs f_range
         (Some (Kw3List2 dss)) return_samples n_jobs progress st
       = (Raise ShapeMismatch, st))
  ∧ (∀ sigs dss, (∀ shape, np_shape_nested dss ≠ Ok shape) →
       compute_features_3d features_of samples_of cpu_count sched sigs fs f_range
         (Some (Kw3List2 dss)) return_samples n_jobs progress st
       = (Raise InhomogeneousShape, st))
  ∧ (∀ sigs kw, ¬ kwargs_match_2d sigs kw →
       compute_features_2d features_of samples_of cpu_count sched sigs fs f_range kw
         return_samples n_jobs progress st
       = (Raise ShapeMismatch, st))
  ∧ (∀ sigs kw, ¬ kwargs_match_3d sigs kw →
       ∃ e, shape_error e = true
            ∧ compute_features_3d features_of samples_of cpu_count sched sigs fs
                f_range kw return_samples n_jobs progress st
              = (Raise e, st))
  ∧ (∀ sigs kw, kwargs_match_3d sigs kw →
       ∀ e, shape_error e = true →
         (compute_features_3d features_of samples_of cpu_count sched sigs fs f_range kw
            return_samples n_jobs progress st).1 ≠ Raise e).
Proof.
  assert (∀ sigs ds, length ds ≠ length sigs →
            compute_features_2d features_of samples_of cpu_count sched sigs fs f_range
              (Some (KwList ds)) return_samples n_jobs progress st
            = (Raise ShapeMismatch, st)) as H2d.
  { intros sigs ds Hne. unfold compute_features_2d, check_kwargs_2d.
    apply bind_raise. by rewrite bool_decide_eq_true_2. }
  assert (∀ sigs dss, (∀ shape, np_shape_nested dss ≠ Ok shape) →
            compute_features_3d features_of samples_of cpu_count sched sigs fs f_range
              (Some (Kw3List2 dss)) return_samples n_jobs progress st
            = (Raise InhomogeneousShape, st)) as Hragged.
  { intros sigs dss Hnone. apply compute_features_3d_ragged.
    destruct (np_shape_nested dss) as [shape|e] eqn:Hshape; [by destruct (Hnone shape)|].
    by rewrite (np_shape_nested_raises dss e Hshape). }
  split_and!.
  - exact H2d.
  - intros sigs kw Hmatch e He.
    pose proof (compute_features_2d_no_mismatch sched sigs fs f_range kw return_samples
                  n_jobs progress Hmatch st) as Hrun.
    destruct (_.1) as [r|e']; [done|]. intros [= ->]. congruence.
  - intros sigs ds. apply compute_features_3d_wrong_length.
  - intros sigs dss shape. apply compute_features_3d_wrong_shape.
  - exact Hragged.
  - intros sigs [[d|ds]|] Hmatch; simpl in Hmatch; [done| |done].
    by apply H2d.
  - intros sigs [[d|ds|dss]|] Hmatch; simpl in Hmatch; [done| | |done].
    + exists ShapeMismatch. split; [done|]. by apply compute_features_3d_wrong_length.
    + destruct (np_shape_nested dss) as [shape|e] eqn:Hshape.
      * exists ShapeMismatch. split; [done|].
        eapply compute_features_3d_wrong_shape; [exact Hshape|].
        intros Hfit. apply Hmatch. by exists shape.
      * exists InhomogeneousShape. split; [done|]. apply Hragged.
        intros shape. rewrite Hshape. done.
  - intros sigs kw Hmatch e He.
    assert (returns (λ _, True)
              (compute_features_3d features_of samples_of cpu_count sched sigs fs
                 f_range kw return_samples n_jobs progress)) as Hrun.
    { unfold compute_features_3d.
      eapply returns_bind; [by apply check_kwargs_3d_returns|].
      intros kw2 Hkw2.
      eapply (returns_bind (λ _, True));
        [by apply compute_features_2d_no_mismatch|].
      intros r _. apply returns_lift.
      destruct (reshape_returned sigs r) eqn:Hr; [done|].
      by eapply reshape_returned_no_shape_error. }
    specialize (Hrun st). destruct (_.1) as [r|e']; [done|]. intros [= ->]. congruence.
Qed.

(** ** What a call does to the dictionaries *)

Lemma only_strips_refl (refs : list nat) (st : state) : only_strips refs st st.
Proof. intros d kwargs Hd. by left. Qed.

Lemma only_strips_trans (refs : list nat) (st1 st2 st3 : state) :
  only_strips refs st1 st2 → only_strips refs st2 st3 → only_strips refs st1 st3.
Proof.
  intros H12 H23 d kwargs Hd.
  destruct (H12 d kwargs Hd) as [Hd2|[Hin Hd2]].
  - apply (H23 d kwargs Hd2).
  - destruct (H23 d _ Hd2) as [Hd3|[_ Hd3]]; right; split; try done.
    by rewrite Hd3, delete_delete_eq.
Qed.

Lemma only_strips_mono (refs refs' : list nat) (st st' : state) :
  refs ⊆ refs' → only_strips refs st st' → only_strips refs' st st'.
Proof.
  intros Hsub H d kwargs Hd.
  destruct (H d kwargs Hd) as [?|[Hin ?]]; [by left|right].
  split; [by apply Hsub|done].
Qed.

Lemma strips_ret {A} (refs : list nat) (a : A) : strips refs (mret a).
Proof. intros st. apply only_strips_refl. Qed.

Lemma strips_lift {A} (refs : list nat) (r : result A) : strips refs (lift r).
Proof. intros st. apply only_strips_refl. Qed.

Lemma strips_raise {A} (refs : list nat) (e : exn) : strips refs (raise (A := A) e).
Proof. intros st. apply only_strips_refl. Qed.

Lemma strips_bind {A B} (refs : list nat) (m : M A) (f : A → M B) :
  strips refs m → (∀ a, strips refs (f a)) → strips refs (m ≫= f).
Proof.
  intros Hm Hf st. specialize (Hm st). unfold mbind, M_bind.
  destruct (m st) as [[a|e] st']; simpl in *; [|done].
  eapply only_strips_trans; [exact Hm|apply Hf].
Qed.

Lemma strips_deref (refs : list nat) (d : nat) : strips refs (deref d).
Proof.
  intros st. unfold deref. destruct (heap st !! d); apply only_strips_refl.
Qed.

Lemma strips_pop (refs : list nat) (d : nat) :
  d ∈ refs → strips refs (pop_return_samples d).
Proof.
  intros Hin st. unfold pop_return_samples, mbind, M_bind, deref.
  destruct (heap st !! d) as [kwargs|] eqn:Hd; [|apply only_strips_refl].
  case_bool_decide; [|apply only_strips_refl].
  intros d' kwargs' Hd'. simpl.
  destruct (decide (d' = d)) as [->|Hne].
  - right. rewrite lookup_insert_eq. split; [done|congruence].
  - left. by rewrite lookup_insert_ne.
Qed.

Lemma strips_for_each_pop (refs ds : list nat) :
  ds ⊆ refs → strips refs (for_each ds pop_return_samples).
Proof.
  induction ds as [|d ds IH]; intros Hsub; simpl; [apply strips_ret|].
  apply strips_bind.
  - apply strips_pop, Hsub. by left.
  - intros _. apply IH. intros x Hx. apply Hsub. by right.
Qed.

Lemma strips_map_M_deref (refs ds : list nat) : strips refs (map_M deref ds).
Proof.
  induction ds as [|d ds IH]; simpl; [apply strips_ret|].
  apply strips_bind; [apply strips_deref|]. intros kwargs.
  apply strips_bind; [apply IH|]. intros kws. apply strips_ret.
Qed.

Lemma strips_imap {B} (refs : list nat) (run : call → B) (tasks : list call)
    (sched : list nat) :
  strips refs (imap run tasks sched).
Proof.
  unfold imap. apply strips_bind; [|intros _; apply strips_lift].
  intros st d kwargs Hd. by left.
Qed.

Lemma strips_dispatch_2d (sched : list nat) (sigs : list signal) (fs : float)
    (f_range : float * float) (kw : kwargs_2d) (return_samples : bool) (n_jobs : Z)
    (progress : option string) :
  strips (kwargs_refs kw)
    (dispatch_2d features_of samples_of cpu_count sched sigs fs f_range kw
       return_samples n_jobs progress).
Proof.
  unfold dispatch_2d. apply strips_bind.
  { destruct kw as [d|ds]; simpl.
    - apply strips_pop. by left.
    - by apply strips_for_each_pop. }
  intros _. apply strips_bind.
  { unfold open_pool. case_bool_decide; [apply strips_raise|apply strips_ret]. }
  intros _. apply strips_bind.
  { unfold submit_tasks. destruct kw as [d|ds].
    - apply strips_bind; [apply strips_deref|]. intros ?. apply strips_ret.
    - apply strips_bind; [apply strips_map_M_deref|]. intros ?. apply strips_ret. }
  intros tasks. apply strips_bind; [apply strips_imap|].
  intros mapping. apply strips_lift.
Qed.

(** A dictionary made by the call itself is none of the caller's. *)
Lemma only_strips_alloc (refs : list nat) (st st' : state) :
  let d := fresh (dom (heap st)) in
  only_strips [d] (State (<[d := ∅]> (heap st)) (calls st)) st' →
  only_strips refs st st'.
Proof.
  intros d Hrun d' kwargs Hd'.
  assert (d' ≠ d) as Hne.
  { intros ->. apply (is_fresh (dom (heap st))). apply elem_of_dom. by eexists. }
  destruct (Hrun d' kwargs) as [?|[Hin _]]; [by simpl; rewrite lookup_insert_ne|by left|].
  by apply list_elem_of_singleton in Hin.
Qed.

Lemma strips_compute_features_2d (sched : list nat) (sigs : list signal) (fs : float)
    (f_range : float * float) (kw : option kwargs_2d) (return_samples : bool)
    (n_jobs : Z) (progress : option string) :
  strips (from_option kwargs_refs [] kw)
    (compute_features_2d features_of samples_of cpu_count sched sigs fs f_range kw
       return_samples n_jobs progress).
Proof.
  unfold compute_features_2d, check_kwargs_2d. destruct kw as [[d|ds]|]; simpl.
  - intros st. erewrite bind_ok by reflexivity. apply strips_dispatch_2d.
  - intros st. case_bool_decide.
    + erewrite bind_raise by reflexivity. apply only_strips_refl.
    + erewrite bind_ok by reflexivity. apply (strips_dispatch_2d _ _ _ _ (KwList ds)).
  - intros st. erewrite bind_ok by reflexivity.
    apply only_strips_alloc. apply (strips_dispatch_2d _ _ _ _ (KwDict _)).
Qed.

Lemma repeat_kwargs_subseteq (ds : list nat) (sigs : ndarray3) :
  repeat_kwargs ds sigs ⊆ ds.
Proof.
  unfold repeat_kwargs. intros d. induction ds as [|d0 ds IH]; csimpl; [done|].
  intros [Hd|Hd]%elem_of_app.
  - apply elem_of_replicate_inv in Hd as ->. by left.
  - right. by apply IH.
Qed.

Lemma check_kwargs_shape_state (shape : kw_shape) (sigs : ndarray3) (st : state) :
  (check_kwargs_shape shape sigs st).2 = st.
Proof.
  unfold check_kwargs_shape.
  destruct shape as [n|n m]; [by case_bool_decide|].
  by destruct (_ || _).
Qed.

Lemma strips_compute_features_3d (sched : list nat) (sigs : ndarray3) (fs : float)
    (f_range : float * float) (kw : option kwargs_3d) (return_samples : bool)
    (n_jobs : Z) (progress : option string) :
  strips (from_option kwargs_refs_3d [] kw)
    (compute_features_3d features_of samples_of cpu_count sched sigs fs f_range kw
       return_samples n_jobs progress).
Proof.
  assert (∀ kw2 st n, only_strips (kwargs_refs kw2) st
            ((compute_features_2d features_of samples_of cpu_count sched
                (reshape_2d sigs) fs f_range (Some kw2) return_samples n progress
              ≫= λ df_features, lift (reshape_returned sigs df_features)) st).2)
    as Hrest.
  { intros kw2 st n. rewrite bind_lift_state.
    apply (strips_compute_features_2d _ _ _ _ (Some kw2)). }
  intros st. unfold compute_features_3d, check_kwargs_3d.
  destruct kw as [[d|ds|dss]|]; simpl.
  - erewrite bind_ok by reflexivity. apply (Hrest (KwDict d)).
  - unfold check_kwargs_shape. case_bool_decide.
    + erewrite bind_raise by (by apply bind_raise). apply only_strips_refl.
    + erewrite bind_ok by reflexivity.
      eapply only_strips_mono; [|apply (Hrest (KwList _))].
      apply repeat_kwargs_subseteq.
  - destruct (np_shape_nested dss) as [shape|e].
    + destruct (check_kwargs_shape shape sigs st) as [[[]|e] st1] eqn:Hcheck.
      * assert (st1 = st) as ->.
        { by rewrite <- (check_kwargs_shape_state shape sigs st), Hcheck. }
        erewrite bind_ok; [apply (Hrest (KwList (concat dss)))|].
        unfold lift. erewrite bind_ok by reflexivity.
        by erewrite bind_ok by exact Hcheck.
      * assert (st1 = st) as ->.
        { by rewrite <- (check_kwargs_shape_state shape sigs st), Hcheck. }
        erewrite bind_raise; [apply only_strips_refl|].
        unfold lift. erewrite bind_ok by reflexivity.
        by erewrite bind_raise by exact Hcheck.
    + erewrite bind_raise by (by apply bind_raise). apply only_strips_refl.
  - erewrite bind_ok by reflexivity.
    apply only_strips_alloc. apply (Hrest (KwDict _)).
Qed.

(** C8, amended: a call of [compute_features_2d] or
    [compute_features_3d] leaves every dictionary of the caller as it
    was, except that a dictionary of the kwargs may lose its key
    [return_samples]; all its other keys keep their values.  The
    signals are values that are only read. *)
Theorem kwargs_only_lose_return_samples (sched : list nat) (fs : float)
    (f_range : float * float) (return_samples : bool) (n_jobs : Z)
    (progress : option string) (st : state) :
  (∀ sigs kw,
     only_strips (from_option kwargs_refs [] kw) st
       (compute_features_2d features_of samples_of cpu_count sched sigs fs f_range kw
          return_samples n_jobs progress st).2)
  ∧ (∀ sigs kw,
       only_strips (from_option kwargs_refs_3d [] kw) st
         (compute_features_3d features_of samples_of cpu_count sched sigs fs f_range kw
            return_samples n_jobs progress st).2).
Proof.
  split; intros sigs kw.
  - apply strips_compute_features_2d.
  - apply strips_compute_features_3d.
Qed.

End GroupFacts.

(** C1 fails on the code: with one signal per group, the two flat
    results of two groups are refolded into a single chunk, and
    [compute_features_3d] returns the features of the first group
    only. *)
Theorem reshape_df_loses_last_group :
  _reshape_df [10; 20] ex_sigs_single = Ok [[10]]
  ∧ (compute_features_3d ex_features ex_samples 4 [1; 0] ex_sigs_single 1000
       (8, 12)%float None false (-1) None ex_state).1
    = Ok (Features [[([1; 2; 3]%float, [])]]).
Proof. split; vm_compute; reflexivity. Qed.

(** C5 fails on the code: on a batch of no signals, with
    [return_samples] (the default), [compute_features_2d] returns no
    result at all: it raises when it unpacks the features and the
    samples from the empty list of results, where computing the signals
    one after the other gives two empty lists.  Without
    [return_samples] the same call returns the empty list. *)
Theorem dispatch_raises_on_empty_batch :
  (compute_features_2d ex_features ex_samples 4 [] [] 1000 (8, 12)%float
     (Some (KwList [])) true (-1) None ex_state).1
  = Raise UnpackError
  ∧ (compute_features_2d ex_features ex_samples 4 [] [] 1000 (8, 12)%float
       (Some (KwList [])) false (-1) None ex_state).1
    = Ok (Features []).
Proof. split; vm_compute; reflexivity. Qed.

(** C8 as stated fails: a dictionary that carries [return_samples] is
    not the same after the call. *)
Lemma kwargs_dict_not_left_unchanged :
  heap (compute_features_2d ex_features ex_samples 4 [1; 0] ex_rows 1000
          (8, 12)%float (Some (KwDict 0)) true (-1) None ex_state).2
  ≠ heap ex_state.
Proof.
  intros Heq.
  apply (f_equal (λ h : gmap nat (gmap string value),
                    h !! 0 ≫= λ kwargs, kwargs !! "return_samples")) in Heq.
  vm_compute in Heq. discriminate.
Qed.

Lemma shape_mismatch_fails_fast_witness :
  compute_features_2d ex_features ex_samples 4 [1; 0] ex_rows 1000 (8, 12)%float
    (Some (KwList [0])) true (-1) None ex_state
  = (Raise ShapeMismatch, ex_state)
  ∧ (∀ e, shape_error e = true →
       (compute_features_2d ex_features ex_samples 4 [1; 0] ex_rows 1000 (8, 12)%float
          (Some (KwList [0; 1])) true (-1) None ex_state).1 ≠ Raise e)
  ∧ compute_features_3d ex_features ex_samples 4 [3; 1; 0; 2] ex_sigs 1000
      (8, 12)%float (Some (Kw3List1 [0])) true (-1) None ex_state
    = (Raise ShapeMismatch, ex_state)
  ∧ compute_features_3d ex_features ex_samples 4 [3; 1; 0; 2] ex_sigs 1000
      (8, 12)%float (Some (Kw3List2 [[0; 1; 1]; [1; 0; 0]])) true (-1) None ex_state
    = (Raise ShapeMismatch, ex_state)
  ∧ compute_features_3d ex_features ex_samples 4 [3; 1; 0; 2] ex_sigs 1000
      (8, 12)%float (Some (Kw3List2 [[0; 1]; [1]])) true (-1) None ex_state
    = (Raise InhomogeneousShape, ex_state)
  ∧ compute_features_2d ex_features ex_samples 4 [1; 0] ex_rows 1000 (8, 12)%float
      (Some (KwList [0; 1; 1])) true (-1) None ex_state
    = (Raise ShapeMismatch, ex_state)
  ∧ (∃ e, shape_error e = true
          ∧ compute_features_3d ex_features ex_samples 4 [3; 1; 0; 2] ex_sigs 1000
              (8, 12)%float (Some (Kw3List2 [[0]; [1; 0]])) true (-1) None ex_state
            = (Raise e, ex_state))
  ∧ (∀ e, shape_error e = true →
       (compute_features_3d ex_features ex_samples 4 [3; 1; 0; 2] ex_sigs 1000
          (8, 12)%float (Some (Kw3List2 [[0; 1]; [1; 0]])) true (-1) None ex_state).1
       ≠ Raise e).
Proof.
  destruct (shape_mismatch_fails_fast ex_features ex_samples 4 [1; 0] 1000
              (8, 12)%float true (-1) None ex_state) as (H1 & H2 & _ & _ & _ & H6 & _).
  destruct (shape_mismatch_fails_fast ex_features ex_samples 4 [3; 1; 0; 2] 1000
              (8, 12)%float true (-1) None ex_state)
    as (_ & _ & H3 & H4 & H5 & _ & H7 & H8).
  split_and!.
  - apply H1. simpl. lia.
  - apply H2. reflexivity.
  - apply H3. simpl. lia.
  - apply (H4 ex_sigs _ (Shape2 2 3)); [reflexivity|]. simpl. lia.
  - apply H5. intros shape. discriminate.
  - apply H6. simpl. lia.
  - apply H7. intros (shape & Hshape & _). discriminate.
  - apply H8. simpl. exists (Shape2 2 2). split; [reflexivity|]. simpl. lia.
Defined.

Lemma kwargs_1d_repeated_per_group_witness :
  ∃ log,
    calls (compute_features_3d ex_features ex_samples 4 [3; 1; 0; 2] ex_sigs 1000
             (8, 12)%float (Some (Kw3List1 [0; 1])) false 2 None ex_state).2
    = calls ex_state ++ log
    ∧ length log = shape0 ex_sigs * shape1 ex_sigs
    ∧ ∀ g s, g < shape0 ex_sigs → s < shape1 ex_sigs →
        ∃ d kwargs,
          [0; 1] !! g = Some d ∧ ex_configs !! g = Some kwargs
          ∧ repeat_kwargs [0; 1] ex_sigs !! (g * shape1 ex_sigs + s) = Some d
          ∧ reshape_2d ex_sigs !! (g * shape1 ex_sigs + s) = Some (sig_at ex_sigs g s)
          ∧ Call (sig_at ex_sigs g s) 1000 (8, 12)%float false
              (delete "return_samples" kwargs) ∈ log.
Proof.
  apply (kwargs_1d_repeated_per_group ex_features ex_samples 4 [3; 1; 0; 2] ex_sigs
           1000 (8, 12)%float [0; 1] false 2 None ex_state ex_configs).
  - reflexivity.
  - repeat constructor.
  - right. lia.
  - simpl. apply (bool_decide_unpack _). vm_compute. exact I.
Defined.

Lemma return_samples_from_caller_only_witness :
  let st' := (compute_features_2d ex_features ex_samples 4 [1; 0] ex_rows 1000
                (8, 12)%float (Some (KwList [0; 1])) true (-1) None ex_state).2 in
  (∀ d kwargs, d ∈ kwargs_refs (KwList [0; 1]) → heap ex_state !! d = Some kwargs →
     heap st' !! d = Some (delete "return_samples" kwargs))
  ∧ ∃ log, calls st' = calls ex_state ++ log
      ∧ length log = length ex_rows
      ∧ ∀ c, c ∈ log →
          call_return_samples c = true
          ∧ call_kwargs c !! "return_samples" = None.
Proof.
  apply (return_samples_from_caller_only ex_features ex_samples 4 [1; 0] ex_rows 1000
           (8, 12)%float (KwList [0; 1]) true (-1) None ex_state).
  - intros ds [= <-]. reflexivity.
  - repeat constructor; by eexists.
  - by left.
  - simpl. apply perm_swap.
Defined.

(** * More on the burst classifier *)

Section BurstMore.

(** Two closed runs through the same flag are the same run. *)
Lemma closed_run_unique (l : list bool) (a b a' b' i : nat) :
  closed_run l a b → closed_run l a' b' → a ≤ i < b → a' ≤ i < b' →
  a = a' ∧ b = b'.
Proof.
  intros (Hab & Ht & Hl & Hf) (Hab' & Ht' & Hl' & Hf') Hi Hi'.
  assert (b = b') as <-.
  { destruct (Nat.lt_trichotomy b b') as [Hlt|[?|Hlt]]; [|done|].
    - rewrite Ht' in Hf by lia. done.
    - rewrite Ht in Hf' by lia. done. }
  split; [|done].
  destruct (Nat.lt_trichotomy a a') as [Hlt|[?|Hlt]]; [|done|].
  - destruct Hl' as [?|Hl']; [lia|]. rewrite Ht in Hl' by lia. done.
  - destruct Hl as [?|Hl]; [lia|]. rewrite Ht' in Hl by lia. done.
Qed.

Lemma mcc_loop_exact (m : Z) (l0 : list bool) : ∀ (n k : nat) (l : list bool) (cnt : nat),
  k + n = length l0 → length l = length l0 → exact_inv m l0 k l cnt →
  ∃ l' cnt', for_loop (seq k n) (mcc_body m) (l, cnt) = Ok (l', cnt')
             ∧ length l' = length l0
             ∧ exact_inv m l0 (k + n) l' cnt'.
Proof.
  induction n as [|n IH]; intros k l cnt Hk Hlen Hinv; simpl.
  - exists l, cnt. by rewrite Nat.add_0_r.
  - destruct Hinv as (Hcnt & Hsame & Hrun & Hleft & Hdone).
    destruct (lookup_lt_is_Some_2 l k) as [b Hb]; [lia|].
    rewrite Hb. replace (k + S n) with (S k + n) by lia.
    assert (l0 !! k = Some b) as Hb0 by (rewrite <- Hsame by lia; done).
    destruct b; simpl.
    + apply IH; [lia|done|]. split_and!.
      * lia.
      * intros i Hi. apply Hsame. lia.
      * intros i Hi. destruct (decide (i = k)) as [->|]; [done|]. apply Hrun. lia.
      * by replace (S k - S cnt) with (k - cnt) by lia.
      * intros i Hi. apply Hdone. lia.
    + assert (∀ i, k - cnt ≤ i < k → ∀ a b', closed_run l0 a b' → a ≤ i < b' →
                a = k - cnt ∧ b' = k) as Huniq.
      { intros i Hi a b' Hclosed Hab.
        eapply (closed_run_unique l0 a b' (k - cnt) k i); [done| |done|lia].
        split_and!; [lia|done| |done].
        destruct Hleft as [->|?]; [by left|by right]. }
      assert (∀ l', (∀ i, l' !! i = if bool_decide (k - cnt ≤ i < k)
                                   then (if bool_decide (Z.of_nat cnt < m)%Z
                                         then Some false else l !! i)
                                   else l !! i) →
                length l' = length l →
                exact_inv m l0 (S k) l' 0) as Hnext.
      { intros l' Hl' Hlen'. split_and!.
        - lia.
        - intros i Hi. rewrite Hl', bool_decide_eq_false_2 by lia. apply Hsame. lia.
        - intros i Hi. lia.
        - right. by replace (S k - 0 - 1) with k by lia.
        - intros i Hi. rewrite Hl'.
          destruct (decide (k - cnt ≤ i < k)) as [Hin|Hin];
            [rewrite (bool_decide_eq_true_2 _ Hin)
            |rewrite (bool_decide_eq_false_2 _ Hin)].
          + case_bool_decide as Hshort.
            * split; [done|]. intros Hnot. exfalso. apply Hnot.
              exists (k - cnt), k. split_and!; [|lia..].
              split_and!; [lia|done| |done].
              destruct Hleft as [->|?]; [by left|by right].
            * split; [|intros _; apply Hsame; lia].
              intros (a & b' & Hclosed & Hab & Hlt).
              destruct (Huniq i Hin a b' Hclosed Hab) as [-> ->]. lia.
          + destruct (decide (i = k)) as [->|Hne].
            * rewrite Hb, Hb0. done.
            * apply Hdone. lia. }
      case_bool_decide as Hshort.
      * destruct (clear_run_list cnt l k 0) as (l' & -> & Hlen' & Hl'); [lia..|].
        simpl. apply IH; [lia|congruence|]. apply Hnext; [|done].
        intros i. rewrite Hl'. replace (k - (0 + cnt)) with (k - cnt) by lia.
        replace (k - 0) with k by lia. by repeat case_bool_decide.
      * apply IH; [lia|done|]. apply Hnext; [|done].
        intros i. by repeat case_bool_decide.
Qed.

(** What [_min_consecutive_cycles] computes on a Python list. *)
Lemma min_consecutive_cycles_spec (is_burst : list bool) (m : Z) :
  ∃ out, _min_consecutive_cycles is_burst m = Ok out
         ∧ length out = length is_burst
         ∧ ∀ i, (in_short_run m is_burst i → out !! i = Some false)
                ∧ (¬ in_short_run m is_burst i → out !! i = is_burst !! i).
Proof.
  unfold _min_consecutive_cycles. simpl.
  destruct (mcc_loop_exact m is_burst (length is_burst) 0 is_burst 0)
    as (l' & cnt' & -> & Hlen & Hcnt & Hsame & Hrun & _ & Hdone); [done..| |].
  { split_and!; [lia|done| |by left|]; intros; lia. }
  exists l'. split_and!; [done..|]. simpl in *.
  intros i. destruct (decide (i < length is_burst - cnt')) as [Hi|Hi].
  { by apply Hdone. }
  split; [|intros _; apply Hsame; lia].
  intros (a & b & (_ & _ & _ & Hfalse) & Hab & _).
  pose proof (lookup_lt_Some _ _ _ Hfalse).
  rewrite Hrun in Hfalse by lia. done.
Qed.

(** ** A Series under its default index behaves as a list *)

Lemma series_loc_at {A} (s : series A) (k : Z) : ∀ (p : nat),
  labels s !! p = Some k → (∀ j, labels s !! j = Some k → j = p) →
  series_loc s k = s.*2 !! p.
Proof.
  induction s as [|[l v] s IH]; intros p Hp Huniq; [done|].
  rewrite series_loc_cons. destruct (decide (l = k)) as [->|Hne].
  - by rewrite <- (Huniq 0 eq_refl).
  - destruct p as [|p]; [simpl in Hp; congruence|].
    simpl. apply IH; [done|].
    intros j Hj. specialize (Huniq (S j) Hj). lia.
Qed.

Lemma series_setitem_absent_id (s : series bool) (k : Z) (v : bool) :
  k ∉ labels s →
  (λ e : Z * bool, if bool_decide (e.1 = k) then (k, v) else e) <$> s = s.
Proof.
  induction s as [|[l b] s IH]; intros Hk; csimpl; [done|].
  unfold labels in Hk. csimpl in Hk. apply not_elem_of_cons in Hk as [Hne Hk].
  rewrite bool_decide_eq_false_2 by (simpl; congruence).
  by rewrite IH.
Qed.

(** Assignment under a label that sits at position [p] only is
    assignment at position [p]. *)
Lemma series_setitem_at (s : series bool) (k : Z) (v : bool) : ∀ (p : nat),
  labels s !! p = Some k → (∀ j, labels s !! j = Some k → j = p) →
  labels (series_setitem s k v) = labels s
  ∧ (series_setitem s k v).*2 = <[p := v]> (s.*2).
Proof.
  intros p Hp Huniq. unfold series_setitem.
  rewrite bool_decide_eq_true_2 by (by eapply list_elem_of_lookup_2).
  revert p Hp Huniq.
  induction s as [|[l b] s IH]; intros p Hp Huniq; [done|].
  csimpl. destruct (decide (l = k)) as [->|Hne].
  - rewrite bool_decide_eq_true_2 by done.
    assert (p = 0) as -> by (symmetry; by apply Huniq).
    rewrite series_setitem_absent_id; [done|].
    intros [j Hj]%list_elem_of_lookup. specialize (Huniq (S j) Hj). lia.
  - rewrite bool_decide_eq_false_2 by done.
    destruct p as [|p]; [simpl in Hp; congruence|].
    destruct (IH p) as [Hl Hv]; [done| |].
    { intros j Hj. specialize (Huniq (S j) Hj). lia. }
    unfold labels in *. csimpl. by rewrite Hl, Hv.
Qed.

Lemma positional_length {A} (n : nat) (s : series A) : positional n s → n ≤ length s.
Proof.
  intros Hpos. destruct n as [|n]; [lia|].
  destruct (Hpos n) as [Hn _]; [lia|].
  apply lookup_lt_Some in Hn. unfold labels in Hn. rewrite length_fmap in Hn. lia.
Qed.

Lemma positional_labels {A B} (n : nat) (s : series A) (s' : series B) :
  labels s' = labels s → positional n s → positional n s'.
Proof. unfold positional. by intros ->. Qed.

(** On a Series whose first [n] labels are positional, clearing the
    run before [idx ≤ n] is what it is on the list of its values: no
    label is new, so the loop goes on reading the array of the
    Series. *)
Lemma clear_run_sim (n : nat) (cnt : nat) : ∀ (s : series bool) (idx start : nat),
  positional n s → idx ≤ n → start + cnt ≤ idx →
  ∃ s', clear_run (Iterated s None) idx (seq start cnt) = Ok (Iterated s' None)
        ∧ labels s' = labels s
        ∧ clear_run (s.*2) idx (seq start cnt) = Ok (s'.*2).
Proof.
  induction cnt as [|cnt IH]; intros s idx start Hpos Hidx Hle; simpl.
  - by exists s.
  - replace (Z.of_nat idx - 1 - Z.of_nat start)%Z
      with (Z.of_nat (idx - 1 - start)) by lia.
    destruct (Hpos (idx - 1 - start)) as [Hp Huniq]; [lia|].
    destruct (series_setitem_at s _ false _ Hp Huniq) as [Hl Hv].
    pose proof (positional_length n s Hpos) as Hn.
    rewrite list_setitem_nonneg by (rewrite length_fmap; lia). simpl.
    unfold it_setitem. simpl.
    rewrite bool_decide_eq_true_2 by (by eapply list_elem_of_lookup_2).
    destruct (IH (series_setitem s (Z.of_nat (idx - 1 - start)) false) idx (S start))
      as (s' & -> & Hl' & Hrun); [by eapply positional_labels|lia..|].
    exists s'. split_and!; [done|congruence|]. by rewrite <- Hv.
Qed.

Lemma mcc_loop_sim (m : Z) (n : nat) : ∀ (n' k : nat) (s : series bool) (cnt : nat),
  k + n' = length s → length s ≤ n + 1 → cnt ≤ k → positional n s →
  ∃ s' cnt', for_loop (seq k n') (mcc_body m) (Iterated s None, cnt)
             = Ok (Iterated s' None, cnt')
             ∧ labels s' = labels s
             ∧ for_loop (seq k n') (mcc_body m) (s.*2, cnt) = Ok (s'.*2, cnt').
Proof.
  induction n' as [|n' IH]; intros k s cnt Hk Hlen Hcnt Hpos; simpl.
  - by exists s, cnt.
  - unfold it_values. simpl.
    destruct (s.*2 !! k) as [[|]|] eqn:Hb; simpl.
    + apply IH; [lia..|done].
    + case_bool_decide.
      * destruct (clear_run_sim n cnt s k 0 Hpos) as (s1 & -> & Hl1 & ->); [lia..|].
        simpl.
        assert (length s1 = length s) as Hlen1.
        { apply (f_equal length) in Hl1. unfold labels in Hl1.
          by rewrite !length_fmap in Hl1. }
        destruct (IH (S k) s1 0) as (s' & cnt' & -> & Hl' & ->);
          [lia|lia|lia|by eapply positional_labels|].
        exists s', cnt'. split_and!; [done|congruence|done].
      * apply IH; [lia..|done].
    + apply lookup_ge_None in Hb. rewrite length_fmap in Hb. lia.
Qed.

(** On a Series of the default index with at most one more entry, the
    minimum-run post-processing is the one on the list of its values. *)
Lemma min_consecutive_cycles_sim (m : Z) (n : nat) (s : series bool) :
  positional n s → length s ≤ n + 1 →
  ∃ s', _min_consecutive_cycles (Iterated s None) m = Ok (Iterated s' None)
        ∧ labels s' = labels s
        ∧ _min_consecutive_cycles (s.*2) m = Ok (s'.*2).
Proof.
  intros Hpos Hlen. unfold _min_consecutive_cycles. simpl.
  unfold it_values. simpl. rewrite !length_fmap.
  destruct (mcc_loop_sim m n (length s) 0 s 0) as (s' & cnt' & -> & Hl & ->);
    [done|done|lia|done|].
  by exists s'.
Qed.

(** ** [detect_bursts_cycles] as a list computation *)

Lemma range_index_lookup (n p : nat) :
  p < n → range_index n !! p = Some (Z.of_nat p).
Proof. intros Hp. unfold range_index. by rewrite list_lookup_fmap, lookup_seq_lt. Qed.

Lemma range_index_lookup_inv (n j : nat) (k : Z) :
  range_index n !! j = Some k → k = Z.of_nat j ∧ j < n.
Proof.
  unfold range_index. rewrite list_lookup_fmap. intros Hj.
  destruct (seq 0 n !! j) as [x|] eqn:Hx; [|done].
  apply lookup_seq in Hx as [-> ?]. simpl in Hj. by simplify_eq.
Qed.

Lemma positional_range {A} (n : nat) (s : series A) (extra : list Z) :
  labels s = range_index n ++ extra → Forall (λ k, (k < 0)%Z) extra →
  positional n s.
Proof.
  intros Hl Hneg p Hp. rewrite Hl. split.
  - rewrite lookup_app_l by (by rewrite range_index_length).
    by apply range_index_lookup.
  - intros j Hj. apply lookup_app_Some in Hj as [Hj|[_ Hj]].
    + apply range_index_lookup_inv in Hj as [Heq _]. lia.
    + rewrite Forall_forall in Hneg.
      apply list_elem_of_lookup_2, Hneg in Hj. lia.
Qed.

Lemma series_gt_values (s : series float) (x : float) :
  (series_gt s x).*2 = (λ y, PrimFloat.ltb x y) <$> s.*2.
Proof.
  unfold series_gt. induction s as [|e s IH]; csimpl; [done|by rewrite IH].
Qed.

Lemma series_and_values (a b : series bool) :
  (series_and a b).*2 = zip_with andb (a.*2) (b.*2).
Proof.
  unfold series_and. revert b.
  induction a as [|x a IH]; intros [|y b]; csimpl; [done..|]. by rewrite IH.
Qed.

Lemma NoDup_range_index (n : nat) (extra : list Z) :
  NoDup extra → Forall (λ k, (k < 0)%Z) extra → NoDup (range_index n ++ extra).
Proof.
  intros Hnd Hneg. apply NoDup_app. split_and!; [|  |done].
  - unfold range_index. apply NoDup_fmap; [apply _|apply NoDup_seq].
  - intros k [j Hj]%list_elem_of_lookup Hk.
    apply range_index_lookup_inv in Hj as [-> _].
    rewrite Forall_forall in Hneg. apply Hneg in Hk. lia.
Qed.

(** On a table with rows under the default index, the flags that
    [detect_bursts_cycles] stores are those of the list post-processing
    on the candidates with the first flag cleared and a false flag
    appended, without that last flag. *)
Lemma detect_bursts_cycles_run (h : store) (df : nat) (t : frame)
    (c1 c2 c3 c4 : column) (t1 t2 t3 t4 : float) (m : Z) :
  h !! df = Some t → frame_wf t → 0 < df_len t →
  df_index t = range_index (df_len t) →
  df_cols t !! "amp_fraction" = Some c1 →
  df_cols t !! "amp_consistency" = Some c2 →
  df_cols t !! "period_consistency" = Some c3 →
  df_cols t !! "monotonicity" = Some c4 →
  ∃ out,
    _min_consecutive_cycles
      (<[0 := false]> (cycle_candidates c1 c2 c3 c4 t1 t2 t3 t4) ++ [false]) m
    = Ok out
    ∧ length out = df_len t + 1
    ∧ detect_bursts_cycles h df t1 t2 t3 t4 m
      = Ok (df, with_burst_flags h df t (take (df_len t) out)).
Proof.
  intros Hdf Hwf Hrows Hidx H1 H2 H3 H4.
  assert (∀ c col, df_cols t !! c = Some col → length (col_floats col) = df_len t)
    as Hcol.
  { intros c col Hc. rewrite col_floats_length. apply (Hwf c col Hc). }
  pose proof (Hcol _ _ H1) as L1. pose proof (Hcol _ _ H2) as L2.
  pose proof (Hcol _ _ H3) as L3. pose proof (Hcol _ _ H4) as L4.
  assert (∀ idx, ensure_valid_index t idx = t) as Hkeep
    by (intros idx; by apply ensure_valid_index_rows).
  unfold detect_bursts_cycles, df_getitem. rewrite Hdf, H1, H2, H3, H4. simpl.
  generalize dependent (df_len t). intros n Hrows Hidx Hcol L1 L2 L3 L4.
  rewrite Hidx.
  set (s1 := zip (range_index n) (col_floats c1)).
  set (s2 := zip (range_index n) (col_floats c2)).
  set (s3 := zip (range_index n) (col_floats c3)).
  set (s4 := zip (range_index n) (col_floats c4)).
  set (cand := series_and _ _).
  assert (∀ xs : list float, length xs = n →
            labels (zip (range_index n) xs) = range_index n
            ∧ (zip (range_index n) xs).*2 = xs
            ∧ length (zip (range_index n) xs) = n) as Hzip.
  { intros xs Hxs. split_and!.
    - apply fst_zip. rewrite range_index_length. lia.
    - apply snd_zip. rewrite range_index_length. lia.
    - rewrite length_zip, range_index_length. lia. }
  destruct (Hzip _ L1) as (Hl1 & Hv1 & Hn1). destruct (Hzip _ L2) as (Hl2 & Hv2 & Hn2).
  destruct (Hzip _ L3) as (Hl3 & Hv3 & Hn3). destruct (Hzip _ L4) as (Hl4 & Hv4 & Hn4).
  fold s1 in Hl1, Hv1, Hn1. fold s2 in Hl2, Hv2, Hn2.
  fold s3 in Hl3, Hv3, Hn3. fold s4 in Hl4, Hv4, Hn4.
  pose proof (series_gt_length s1 t1). pose proof (series_gt_length s2 t2).
  pose proof (series_gt_length s3 t3). pose proof (series_gt_length s4 t4).
  assert (length (series_and (series_gt s1 t1) (series_gt s2 t2)) = n) as La
    by (rewrite series_and_length; congruence).
  assert (length (series_and (series_and (series_gt s1 t1) (series_gt s2 t2))
                    (series_gt s3 t3)) = n) as Lb
    by (rewrite series_and_length; congruence).
  assert (labels cand = range_index n) as Hcand.
  { unfold cand. apply candidates_index; [done|congruence..]. }
  assert (cand.*2 = cycle_candidates c1 c2 c3 c4 t1 t2 t3 t4) as Hvals.
  { unfold cand, cycle_candidates.
    rewrite !series_and_values, !series_gt_values. by rewrite Hv1, Hv2, Hv3, Hv4. }
  assert (length cand = n) as Lc by (unfold cand; rewrite series_and_length; congruence).
  (* is_burst[0] = False *)
  assert (positional n cand) as Hpos.
  { apply (positional_range n cand []); [by rewrite app_nil_r|done]. }
  destruct (Hpos 0 Hrows) as [Hp0 Hu0].
  destruct (series_setitem_at cand 0 false 0 Hp0 Hu0) as [Hla Hva].
  set (sa := series_setitem cand 0 false) in *.
  (* is_burst[-1] = False *)
  assert (series_setitem sa (-1) false = sa ++ [((-1)%Z, false)]) as Hsb.
  { unfold series_setitem. rewrite bool_decide_eq_false_2; [done|].
    rewrite Hla, Hcand. intros [j Hj]%list_elem_of_lookup.
    apply range_index_lookup_inv in Hj as [? _]. lia. }
  rewrite Hsb. set (sb := sa ++ [((-1)%Z, false)]).
  assert (labels sb = range_index n ++ [(-1)%Z]) as Hlb.
  { unfold sb, labels. rewrite fmap_app. unfold labels in Hla, Hcand.
    by rewrite Hla, Hcand. }
  assert (sb.*2 = <[0 := false]> (cycle_candidates c1 c2 c3 c4 t1 t2 t3 t4) ++ [false])
    as Hvb.
  { unfold sb. rewrite fmap_app. by rewrite Hva, Hvals. }
  assert (positional n sb) as Hposb.
  { apply (positional_range n sb [(-1)%Z]); [done|]. by repeat constructor. }
  assert (length sb = n + 1) as Lsb.
  { apply (f_equal length) in Hlb. unfold labels in Hlb.
    rewrite length_fmap, length_app, range_index_length in Hlb. done. }
  destruct (min_consecutive_cycles_sim m n sb Hposb) as (s' & -> & Hl' & Hrun); [lia|].
  rewrite Hvb in Hrun. exists (s'.*2). split; [done|].
  assert (length (s'.*2) = n + 1) as Lout.
  { rewrite length_fmap. apply (f_equal length) in Hl'. unfold labels in Hl'.
    rewrite !length_fmap in Hl'. lia. }
  split; [done|].
  simpl. unfold df_setitem_series, with_burst_flags. rewrite Hdf, Hkeep, Hidx.
  rewrite bool_decide_eq_false_2.
  2:{ rewrite Hl', Hlb. intros Heq. apply (f_equal length) in Heq.
      rewrite length_app, range_index_length in Heq. simpl in Heq. lia. }
  destruct (series_reindex_ok s' (range_index n)) as (flags & -> & Hlen & Hflags).
  { rewrite Hl', Hlb. apply NoDup_range_index; [apply NoDup_singleton|].
    by repeat constructor. }
  { rewrite Hl', Hlb. intros k Hk. apply elem_of_app. by left. }
  simpl. rewrite flags_column_present.
  enough (flags = take n (s'.*2)) as -> by done.
  rewrite range_index_length in Hlen.
  apply list_eq. intros i. destruct (decide (i < n)) as [Hi|Hi].
  - rewrite lookup_take_lt by done.
    rewrite (Hflags i (Z.of_nat i)) by (by apply range_index_lookup).
    destruct (positional_labels n sb s' Hl' Hposb i Hi) as [Hp Hu].
    by apply series_loc_at.
  - rewrite lookup_take_ge by lia. apply lookup_ge_None. lia.
Qed.

Lemma mcc_output_no_short_run (is_burst out : list bool) (m : Z) (i : nat) :
  _min_consecutive_cycles is_burst m = Ok out → ¬ in_short_run m out i.
Proof.
  unfold _min_consecutive_cycles. simpl. intros Hrun (a & b & Hclosed & _ & Hlt).
  destruct (mcc_loop_runs m (length is_burst) 0 is_burst 0)
    as (l' & cnt' & Hloop & Hlen & Hcnt & Htrue & _ & Hall); [done| |].
  { split_and!; [lia| |by left|]; intros; lia. }
  rewrite Hloop in Hrun. simpl in Hrun. injection Hrun as <-.
  enough (m ≤ Z.of_nat (b - a))%Z by lia.
  apply Hall; [|done].
  destruct Hclosed as (_ & _ & _ & Hfalse).
  pose proof (lookup_lt_Some _ _ _ Hfalse) as Hb.
  destruct (decide (b < length is_burst - cnt')) as [|Hge]; [done|].
  rewrite Htrue in Hfalse by lia. done.
Qed.

Lemma mcc_fixpoint (l : list bool) (m : Z) :
  (∀ i, ¬ in_short_run m l i) → _min_consecutive_cycles l m = Ok l.
Proof.
  intros Hnone.
  destruct (min_consecutive_cycles_spec l m) as (out & -> & Hlen & Hout).
  f_equal. apply list_eq. intros i. by apply Hout.
Qed.

Lemma cycle_candidates_lookup (c1 c2 c3 c4 : column) (t1 t2 t3 t4 : float) (i : nat) :
  cycle_candidates c1 c2 c3 c4 t1 t2 t3 t4 !! i = Some true →
  ∃ x1 x2 x3 x4,
    (col_floats c1 !! i = Some x1 ∧ PrimFloat.ltb t1 x1 = true)
    ∧ (col_floats c2 !! i = Some x2 ∧ PrimFloat.ltb t2 x2 = true)
    ∧ (col_floats c3 !! i = Some x3 ∧ PrimFloat.ltb t3 x3 = true)
    ∧ (col_floats c4 !! i = Some x4 ∧ PrimFloat.ltb t4 x4 = true).
Proof.
  unfold cycle_candidates. intros Hi.
  apply lookup_zip_with_Some in Hi as (b123 & b4 & Hand & H123 & H4).
  apply lookup_zip_with_Some in H123 as (b12 & b3 & -> & H12 & H3).
  apply lookup_zip_with_Some in H12 as (b1 & b2 & -> & H1 & H2).
  symmetry in Hand. apply andb_prop in Hand as [Hand ->].
  apply andb_prop in Hand as [Hand ->]. apply andb_prop in Hand as [-> ->].
  rewrite list_lookup_fmap in H1, H2, H3, H4.
  destruct (col_floats c1 !! i) as [x1|]; [|done].
  destruct (col_floats c2 !! i) as [x2|]; [|done].
  destruct (col_floats c3 !! i) as [x3|]; [|done].
  destruct (col_floats c4 !! i) as [x4|]; [|done].
  simpl in *. exists x1, x2, x3, x4. by simplify_eq.
Qed.

End BurstMore.

(** X2: what [_min_consecutive_cycles] computes on a list: it always
    returns, keeps the length, clears every flag that lies in a run
    closed by a false flag and shorter than [min_n_cycles], and leaves
    every other flag, those of a run that ends with the list among
    them, as it was. *)
Theorem min_consecutive_cycles_clears_short_closed_runs (is_burst : list bool)
    (min_n_cycles : Z) :
  ∃ out, _min_consecutive_cycles is_burst min_n_cycles = Ok out
         ∧ length out = length is_burst
         ∧ ∀ i, (in_short_run min_n_cycles is_burst i → out !! i = Some false)
                ∧ (¬ in_short_run min_n_cycles is_burst i → out !! i = is_burst !! i).
Proof.
  destruct (min_consecutive_cycles_spec is_burst min_n_cycles)
    as (out & Hrun & Hlen & Hout).
  exists out. by split_and!.
Qed.

(** X3: [_min_consecutive_cycles] is idempotent on lists: run on its
    own output, it changes nothing. *)
Theorem min_consecutive_cycles_idempotent (is_burst : list bool) (min_n_cycles : Z) :
  ∃ out, _min_consecutive_cycles is_burst min_n_cycles = Ok out
         ∧ _min_consecutive_cycles out min_n_cycles = Ok out.
Proof.
  destruct (min_consecutive_cycles_spec is_burst min_n_cycles) as (out & Hrun & _).
  exists out. split; [exact Hrun|].
  apply mcc_fixpoint. intros i. by eapply mcc_output_no_short_run.
Qed.

(** X4: with [min_n_cycles] at most 1, [_min_consecutive_cycles]
    returns the list it was given: no run is too short. *)
Theorem min_consecutive_cycles_disabled (is_burst : list bool) (min_n_cycles : Z) :
  (min_n_cycles ≤ 1)%Z → _min_consecutive_cycles is_burst min_n_cycles = Ok is_burst.
Proof.
  intros Hm. apply mcc_fixpoint.
  intros i (a & b & (Hab & _) & _ & Hlt). lia.
Qed.

Lemma min_consecutive_cycles_disabled_witness :
  _min_consecutive_cycles [true; false; true; true; false] 1
  = Ok [true; false; true; true; false].
Proof. apply min_consecutive_cycles_disabled. lia. Defined.

Lemma min_consecutive_cycles_closed_runs_witness : (3 ≤ Z.of_nat (5 - 2))%Z.
Proof.
  apply (min_consecutive_cycles_closed_runs
           [true; false; true; true; true; false; true]
           [false; false; true; true; true; false; true] 3 2 5).
  - vm_compute. reflexivity.
  - split_and!.
    + lia.
    + intros i Hi. destruct i as [|[|[|[|[|i]]]]]; first [lia|reflexivity].
    + right. reflexivity.
    + reflexivity.
Defined.

(** X5: on a table with rows under the default index [0 .. n - 1],
    [detect_bursts_cycles] returns and the flag it stores for the
    first cycle is false. *)
Theorem detect_bursts_cycles_first_flag (h : store) (df : nat) (t : frame)
    (a b c d : float) (m : Z) :
  h !! df = Some t → frame_wf t → 0 < df_len t →
  df_index t = range_index (df_len t) →
  is_Some (df_cols t !! "amp_fraction") →
  is_Some (df_cols t !! "amp_consistency") →
  is_Some (df_cols t !! "period_consistency") →
  is_Some (df_cols t !! "monotonicity") →
  ∃ h' flags, detect_bursts_cycles h df a b c d m = Ok (df, h')
              ∧ burst_flags h' df = Some flags
              ∧ length flags = df_len t
              ∧ head flags = Some false.
Proof.
  intros Hdf Hwf Hrows Hidx [c1 H1] [c2 H2] [c3 H3] [c4 H4].
  destruct (detect_bursts_cycles_run h df t c1 c2 c3 c4 a b c d m
              Hdf Hwf Hrows Hidx H1 H2 H3 H4) as (out & Hrun & Hlen & ->).
  set (cands := cycle_candidates _ _ _ _ _ _ _ _) in Hrun.
  destruct (min_consecutive_cycles_list (<[0 := false]> cands ++ [false]) m)
    as (out' & Hrun' & _ & Hle).
  rewrite Hrun in Hrun'. injection Hrun' as <-.
  eexists _, (take (df_len t) out). split_and!; [done| | |].
  - unfold burst_flags, with_burst_flags. rewrite lookup_insert_eq. simpl.
    by rewrite lookup_insert_eq.
  - rewrite length_take. lia.
  - rewrite head_lookup, lookup_take_lt by done.
    destruct (lookup_lt_is_Some_2 out 0) as [[|] Hb]; [lia| |done].
    apply Hle in Hb. by destruct cands.
Qed.

Lemma detect_bursts_cycles_first_flag_witness :
  ∃ h' flags, detect_bursts_cycles ex_store 0 0 0.5 0.5 0.75 3 = Ok (0, h')
              ∧ burst_flags h' 0 = Some flags
              ∧ length flags = df_len ex_frame
              ∧ head flags = Some false.
Proof.
  apply (detect_bursts_cycles_first_flag ex_store 0 ex_frame 0 0.5 0.5 0.75 3).
  - reflexivity.
  - apply (bool_decide_unpack _). vm_compute. exact I.
  - unfold df_len. simpl. lia.
  - reflexivity.
  - by eexists.
  - by eexists.
  - by eexists.
  - by eexists.
Defined.

(** X6: on a table with rows under the default index [0 .. n - 1],
    the flags that [detect_bursts_cycles] stores are those that the
    post-processing on lists gives for the candidates (the cycles above
    all four thresholds) with the first flag cleared and one false flag
    appended, without that appended flag. *)
Theorem detect_bursts_cycles_as_list (h : store) (df : nat) (t : frame)
    (c1 c2 c3 c4 : column)
    (amp_fraction_threshold amp_consistency_threshold
     period_consistency_threshold monotonicity_threshold : float)
    (min_n_cycles : Z) :
  h !! df = Some t → frame_wf t → 0 < df_len t →
  df_index t = range_index (df_len t) →
  df_cols t !! "amp_fraction" = Some c1 →
  df_cols t !! "amp_consistency" = Some c2 →
  df_cols t !! "period_consistency" = Some c3 →
  df_cols t !! "monotonicity" = Some c4 →
  ∃ out,
    _min_consecutive_cycles
      (<[0 := false]>
         (cycle_candidates c1 c2 c3 c4 amp_fraction_threshold
            amp_consistency_threshold period_consistency_threshold
            monotonicity_threshold) ++ [false]) min_n_cycles
    = Ok out
    ∧ detect_bursts_cycles h df amp_fraction_threshold amp_consistency_threshold
        period_consistency_threshold monotonicity_threshold min_n_cycles
      = Ok (df, with_burst_flags h df t (take (df_len t) out)).
Proof.
  intros Hdf Hwf Hrows Hidx H1 H2 H3 H4.
  destruct (detect_bursts_cycles_run h df t c1 c2 c3 c4 amp_fraction_threshold
              amp_consistency_threshold period_consistency_threshold
              monotonicity_threshold min_n_cycles Hdf Hwf Hrows Hidx H1 H2 H3 H4)
    as (out & Hrun & _ & Hdetect).
  by exists out.
Qed.

Lemma detect_bursts_cycles_as_list_witness :
  ∃ out,
    _min_consecutive_cycles
      (<[0 := false]>
         (cycle_candidates (ColFloat [0.75; 0.75; 0.75; 0.75; 0.75]%float)
            (ColFloat [0.75; 0.75; 0.75; 0.75; 0.75]%float)
            (ColFloat [0.75; 0.75; 0.75; 0.75; 0.75]%float)
            (ColFloat [1; 1; 1; 1; 1]%float) 0 0.5 0.5 0.75) ++ [false]) 5
    = Ok out
    ∧ detect_bursts_cycles ex_store 0 0 0.5 0.5 0.75 5
      = Ok (0, with_burst_flags ex_store 0 ex_frame (take (df_len ex_frame) out)).
Proof.
  apply (detect_bursts_cycles_as_list ex_store 0 ex_frame).
  - reflexivity.
  - apply (bool_decide_unpack _). vm_compute. exact I.
  - unfold df_len. simpl. lia.
  - reflexivity.
  - reflexivity.
  - reflexivity.
  - reflexivity.
  - reflexivity.
Defined.

(** X7: on a table with rows under the default index [0 .. n - 1],
    in the flags that [detect_bursts_cycles] stores every maximal run
    of burst cycles, the last one too, has at least [min_n_cycles]
    cycles. *)
Theorem detect_bursts_cycles_runs_long_enough (h : store) (df : nat) (t : frame)
    (c1 c2 c3 c4 : column)
    (amp_fraction_threshold amp_consistency_threshold
     period_consistency_threshold monotonicity_threshold : float)
    (min_n_cycles : Z) :
  h !! df = Some t → frame_wf t → 0 < df_len t →
  df_index t = range_index (df_len t) →
  df_cols t !! "amp_fraction" = Some c1 →
  df_cols t !! "amp_consistency" = Some c2 →
  df_cols t !! "period_consistency" = Some c3 →
  df_cols t !! "monotonicity" = Some c4 →
  ∃ flags,
    detect_bursts_cycles h df amp_fraction_threshold amp_consistency_threshold
      period_consistency_threshold monotonicity_threshold min_n_cycles
    = Ok (df, with_burst_flags h df t flags)
    ∧ ∀ a b, maximal_run flags a b → (min_n_cycles ≤ Z.of_nat (b - a))%Z.
Proof.
  intros Hdf Hwf Hrows Hidx H1 H2 H3 H4.
  destruct (detect_bursts_cycles_run h df t c1 c2 c3 c4 amp_fraction_threshold
              amp_consistency_threshold period_consistency_threshold
              monotonicity_threshold min_n_cycles Hdf Hwf Hrows Hidx H1 H2 H3 H4)
    as (out & Hrun & Hlen & ->).
  eexists. split; [done|].
  set (inp := <[0 := false]> _ ++ [false]) in Hrun.
  destruct (min_consecutive_cycles_list inp min_n_cycles) as (out' & Hrun' & Hlen' & Hle).
  rewrite Hrun in Hrun'. injection Hrun' as <-.
  assert (out !! df_len t = Some false) as Hlast.
  { destruct (lookup_lt_is_Some_2 out (df_len t)) as [[|] Hb]; [lia| |done].
    apply Hle in Hb. unfold inp in Hb, Hlen'.
    rewrite length_app, length_insert in Hlen'. simpl in Hlen'.
    rewrite lookup_app_r in Hb by (rewrite length_insert; lia).
    rewrite length_insert in Hb.
    replace (df_len t - length _) with 0 in Hb by lia. done. }
  intros a b (Hab & Htrue & Hleft & Hright).
  assert (∀ i v, take (df_len t) out !! i = Some v → out !! i = Some v) as Htake.
  { intros i v Hi. pose proof (lookup_lt_Some _ _ _ Hi) as Hlt.
    rewrite length_take in Hlt. by rewrite lookup_take_lt in Hi by lia. }
  assert (closed_run out a b) as Hclosed.
  { split_and!; [done| | |].
    - intros i Hi. by apply Htake, Htrue.
    - destruct Hleft as [?|?]; [by left|right; by apply Htake].
    - destruct Hright as [->|?]; [|by apply Htake].
      rewrite length_take. by replace (df_len t `min` length out) with (df_len t) by lia. }
  destruct (decide (min_n_cycles ≤ Z.of_nat (b - a))%Z) as [|Hshort]; [done|].
  exfalso. apply (mcc_output_no_short_run inp out min_n_cycles a Hrun).
  exists a, b. split; [done|]. split; lia.
Qed.

Lemma detect_bursts_cycles_runs_long_enough_witness :
  ∃ flags,
    detect_bursts_cycles ex_store 0 0 0.5 0.5 0.75 3
    = Ok (0, with_burst_flags ex_store 0 ex_frame flags)
    ∧ ∀ a b, maximal_run flags a b → (3 ≤ Z.of_nat (b - a))%Z.
Proof.
  apply (detect_bursts_cycles_runs_long_enough ex_store 0 ex_frame
           (ColFloat [0.75; 0.75; 0.75; 0.75; 0.75]%float)
           (ColFloat [0.75; 0.75; 0.75; 0.75; 0.75]%float)
           (ColFloat [0.75; 0.75; 0.75; 0.75; 0.75]%float)
           (ColFloat [1; 1; 1; 1; 1]%float)).
  - reflexivity.
  - apply (bool_decide_unpack _). vm_compute. exact I.
  - unfold df_len. simpl. lia.
  - reflexivity.
  - reflexivity.
  - reflexivity.
  - reflexivity.
  - reflexivity.
Defined.

(** X8: on a table with rows under the default index [0 .. n - 1], a
    cycle that [detect_bursts_cycles] flags as a burst is not the
    first cycle, and each of its four measures is strictly above its
    threshold. *)
Theorem detect_bursts_cycles_flagged_pass (h : store) (df : nat) (t : frame)
    (c1 c2 c3 c4 : column)
    (amp_fraction_threshold amp_consistency_threshold
     period_consistency_threshold monotonicity_threshold : float)
    (min_n_cycles : Z) :
  h !! df = Some t → frame_wf t → 0 < df_len t →
  df_index t = range_index (df_len t) →
  df_cols t !! "amp_fraction" = Some c1 →
  df_cols t !! "amp_consistency" = Some c2 →
  df_cols t !! "period_consistency" = Some c3 →
  df_cols t !! "monotonicity" = Some c4 →
  ∃ flags,
    detect_bursts_cycles h df amp_fraction_threshold amp_consistency_threshold
      period_consistency_threshold monotonicity_threshold min_n_cycles
    = Ok (df, with_burst_flags h df t flags)
    ∧ ∀ i, flags !! i = Some true →
        i ≠ 0
        ∧ ∃ x1 x2 x3 x4,
            (col_floats c1 !! i = Some x1
             ∧ PrimFloat.ltb amp_fraction_threshold x1 = true)
            ∧ (col_floats c2 !! i = Some x2
               ∧ PrimFloat.ltb amp_consistency_threshold x2 = true)
            ∧ (col_floats c3 !! i = Some x3
               ∧ PrimFloat.ltb period_consistency_threshold x3 = true)
            ∧ (col_floats c4 !! i = Some x4
               ∧ PrimFloat.ltb monotonicity_threshold x4 = true).
Proof.
  intros Hdf Hwf Hrows Hidx H1 H2 H3 H4.
  destruct (detect_bursts_cycles_run h df t c1 c2 c3 c4 amp_fraction_threshold
              amp_consistency_threshold period_consistency_threshold
              monotonicity_threshold min_n_cycles Hdf Hwf Hrows Hidx H1 H2 H3 H4)
    as (out & Hrun & Hlen & ->).
  eexists. split; [done|].
  set (cands := cycle_candidates _ _ _ _ _ _ _ _) in Hrun.
  destruct (min_consecutive_cycles_list (<[0 := false]> cands ++ [false])
              min_n_cycles) as (out' & Hrun' & Hlen' & Hle).
  rewrite Hrun in Hrun'. injection Hrun' as <-.
  rewrite length_app, length_insert in Hlen'. simpl in Hlen'.
  intros i Hi. pose proof (lookup_lt_Some _ _ _ Hi) as Hlt.
  rewrite length_take in Hlt. rewrite lookup_take_lt in Hi by lia.
  apply Hle in Hi.
  rewrite lookup_app_l in Hi by (rewrite length_insert; lia).
  destruct (decide (i = 0)) as [->|Hne].
  { rewrite list_lookup_insert_eq in Hi by lia. done. }
  split; [done|].
  rewrite list_lookup_insert_ne in Hi by done.
  by apply cycle_candidates_lookup.
Qed.

Lemma detect_bursts_cycles_flagged_pass_witness :
  ∃ flags,
    detect_bursts_cycles ex_store 0 0 0.5 0.5 0.75 3
    = Ok (0, with_burst_flags ex_store 0 ex_frame flags)
    ∧ ∀ i, flags !! i = Some true →
        i ≠ 0
        ∧ ∃ x1 x2 x3 x4,
            (col_floats (ColFloat [0.75; 0.75; 0.75; 0.75; 0.75]%float) !! i = Some x1
             ∧ PrimFloat.ltb 0 x1 = true)
            ∧ (col_floats (ColFloat [0.75; 0.75; 0.75; 0.75; 0.75]%float) !! i = Some x2
               ∧ PrimFloat.ltb 0.5 x2 = true)
            ∧ (col_floats (ColFloat [0.75; 0.75; 0.75; 0.75; 0.75]%float) !! i = Some x3
               ∧ PrimFloat.ltb 0.5 x3 = true)
            ∧ (col_floats (ColFloat [1; 1; 1; 1; 1]%float) !! i = Some x4
               ∧ PrimFloat.ltb 0.75 x4 = true).
Proof.
  apply (detect_bursts_cycles_flagged_pass ex_store 0 ex_frame).
  - reflexivity.
  - apply (bool_decide_unpack _). vm_compute. exact I.
  - unfold df_len. simpl. lia.
  - reflexivity.
  - reflexivity.
  - reflexivity.
  - reflexivity.
  - reflexivity.
Defined.

(** X9: [detect_bursts_amp] on a table with the column
    [burst_fraction] returns; a cycle it flags has a burst fraction of
    at least the threshold, and every run of flagged cycles that is
    followed by an unflagged cycle has at least [min_n_cycles]
    cycles. *)
Theorem detect_bursts_amp_flags (h : store) (df : nat) (t : frame) (c : column)
    (burst_fraction_threshold : float) (min_n_cycles : Z) :
  h !! df = Some t → frame_wf t →
  df_cols t !! "burst_fraction" = Some c →
  ∃ flags,
    detect_bursts_amp h df burst_fraction_threshold min_n_cycles
    = Ok (df, with_burst_flags h df t flags)
    ∧ (∀ i, flags !! i = Some true →
         ∃ x, col_floats c !! i = Some x
              ∧ PrimFloat.leb burst_fraction_threshold x = true)
    ∧ (∀ a b, closed_run flags a b → (min_n_cycles ≤ Z.of_nat (b - a))%Z).
Proof.
  intros Hdf Hwf Hc.
  assert (length (col_floats c) = df_len t) as Hlen.
  { rewrite col_floats_length. apply (Hwf _ _ Hc). }
  unfold detect_bursts_amp, df_getitem. rewrite Hdf, Hc. simpl.
  rewrite snd_zip by (unfold df_len in Hlen; lia).
  set (inp := (λ frac, PrimFloat.leb burst_fraction_threshold frac) <$> col_floats c).
  destruct (min_consecutive_cycles_list inp min_n_cycles) as (out & Hrun & Hlen' & Hle).
  assert (length out = df_len t) as Hout.
  { unfold inp in Hlen'. rewrite length_fmap in Hlen'. lia. }
  rewrite Hrun. simpl. unfold df_setitem_list. rewrite Hdf.
  rewrite ensure_valid_index_fits by (by rewrite range_index_length).
  rewrite bool_decide_eq_true_2 by done.
  simpl. exists out. split_and!; [done| |].
  - intros i Hi. apply Hle in Hi. unfold inp in Hi.
    rewrite list_lookup_fmap in Hi.
    destruct (col_floats c !! i) as [x|]; [|done].
    exists x. by simplify_eq/=.
  - intros a b Hclosed.
    destruct (decide (min_n_cycles ≤ Z.of_nat (b - a))%Z) as [|Hshort]; [done|].
    exfalso. apply (mcc_output_no_short_run inp out min_n_cycles a Hrun).
    exists a, b. split; [done|]. destruct Hclosed as [? _]. split; lia.
Qed.

Lemma detect_bursts_amp_flags_witness :
  ∃ flags,
    detect_bursts_amp ex_store 0 1 3 = Ok (0, with_burst_flags ex_store 0 ex_frame flags)
    ∧ (∀ i, flags !! i = Some true →
         ∃ x, col_floats (ColFloat [0.75; 0.75; 0.75; 1; 1]%float) !! i = Some x
              ∧ PrimFloat.leb 1 x = true)
    ∧ (∀ a b, closed_run flags a b → (3 ≤ Z.of_nat (b - a))%Z).
Proof.
  apply (detect_bursts_amp_flags ex_store 0 ex_frame).
  - reflexivity.
  - apply (bool_decide_unpack _). vm_compute. exact I.
  - reflexivity.
Defined.

(** X10: on a table that lacks a measure column the functions raise
    [KeyError] for a column that is missing: [detect_bursts_amp] for
    [burst_fraction], [detect_bursts_cycles] for one of its four
    columns that the table lacks. *)
Theorem detect_bursts_missing_column (h : store) (df : nat) (t : frame)
    (t1 t2 t3 t4 x : float) (m : Z) :
  h !! df = Some t →
  (df_cols t !! "burst_fraction" = None →
   detect_bursts_amp h df x m = Raise (KeyError "burst_fraction"))
  ∧ (∀ c, c ∈ ["amp_fraction"; "amp_consistency"; "period_consistency";
                "monotonicity"] →
       df_cols t !! c = None →
       ∃ c', c' ∈ ["amp_fraction"; "amp_consistency"; "period_consistency";
                   "monotonicity"]
             ∧ df_cols t !! c' = None
             ∧ detect_bursts_cycles h df t1 t2 t3 t4 m = Raise (KeyError c')).
Proof.
  intros Hdf. split.
  - intros Hc. unfold detect_bursts_amp, df_getitem. by rewrite Hdf, Hc.
  - intros c Hin Hc. unfold detect_bursts_cycles, df_getitem. rewrite Hdf.
    destruct (df_cols t !! "amp_fraction") as [c1|] eqn:H1;
      [|exists "amp_fraction"; split_and!; [repeat first [apply list_elem_of_here|apply list_elem_of_further]|done..]].
    destruct (df_cols t !! "amp_consistency") as [c2|] eqn:H2;
      [|exists "amp_consistency"; split_and!; [repeat first [apply list_elem_of_here|apply list_elem_of_further]|done..]].
    destruct (df_cols t !! "period_consistency") as [c3|] eqn:H3;
      [|exists "period_consistency"; split_and!; [repeat first [apply list_elem_of_here|apply list_elem_of_further]|done..]].
    destruct (df_cols t !! "monotonicity") as [c4|] eqn:H4;
      [|exists "monotonicity"; split_and!; [repeat first [apply list_elem_of_here|apply list_elem_of_further]|done..]].
    exfalso. repeat (apply elem_of_cons in Hin as [->|Hin]; [congruence|]).
    by apply elem_of_nil in Hin.
Qed.

Lemma detect_bursts_missing_column_witness :
  (df_cols (Frame [0; 1]%Z (<["amp_fraction" := ColFloat [1; 1]%float]> ∅)) !! "burst_fraction"
   = None →
   detect_bursts_amp (<[0 := Frame [0; 1]%Z (<["amp_fraction" := ColFloat [1; 1]%float]> ∅)]> ∅)
     0 1 3
   = Raise (KeyError "burst_fraction"))
  ∧ (∀ c, c ∈ ["amp_fraction"; "amp_consistency"; "period_consistency";
                "monotonicity"] →
       df_cols (Frame [0; 1]%Z (<["amp_fraction" := ColFloat [1; 1]%float]> ∅)) !! c = None →
       ∃ c', c' ∈ ["amp_fraction"; "amp_consistency"; "period_consistency";
                   "monotonicity"]
             ∧ df_cols (Frame [0; 1]%Z (<["amp_fraction" := ColFloat [1; 1]%float]> ∅)) !! c'
               = None
             ∧ detect_bursts_cycles
                 (<[0 := Frame [0; 1]%Z (<["amp_fraction" := ColFloat [1; 1]%float]> ∅)]> ∅)
                 0 0 0.5 0.5 0.75 3
               = Raise (KeyError c')).
Proof.
  apply (detect_bursts_missing_column
           (<[0 := Frame [0; 1]%Z (<["amp_fraction" := ColFloat [1; 1]%float]> ∅)]> ∅) 0
           (Frame [0; 1]%Z (<["amp_fraction" := ColFloat [1; 1]%float]> ∅))).
  reflexivity.
Defined.

(** * More on the group functions *)

Section GroupMore.

Context {FeatureTable SampleTable : Type}.
Variable features_of : signal → float → float * float → gmap string value → FeatureTable.
Variable samples_of : signal → float → float * float → gmap string value → SampleTable.
Variable cpu_count : positive.

(** [None] for the kwargs is a new empty dict. *)
Lemma compute_features_2d_None (sched : list nat) (sigs : list signal) (fs : float)
    (f_range : float * float) (return_samples : bool) (n_jobs : Z)
    (progress : option string) (st : state) :
  let d := fresh (dom (heap st)) in
  compute_features_2d features_of samples_of cpu_count sched sigs fs f_range None
    return_samples n_jobs progress st
  = compute_features_2d features_of samples_of cpu_count sched sigs fs f_range
      (Some (KwDict d)) return_samples n_jobs progress
      (State (<[d := ∅]> (heap st)) (calls st)).
Proof.
  intros d. unfold compute_features_2d, check_kwargs_2d.
  erewrite bind_ok; last first.
  { erewrite bind_ok by (unfold alloc; reflexivity). reflexivity. }
  by erewrite (bind_ok (mret (KwDict d))) by reflexivity.
Qed.

Lemma fresh_dict_lookup (st : state) :
  let d := fresh (dom (heap st)) in
  heap (State (<[d := ∅]> (heap st)) (calls st)) !! d = Some ∅.
Proof. simpl. apply lookup_insert_eq. Qed.

Lemma compute_features_2d_dict_result (sched : list nat) (sigs : list signal)
    (fs : float) (f_range : float * float) (d : nat) (return_samples : bool)
    (n_jobs : Z) (progress : option string) (st : state) (kwargs : gmap string value) :
  heap st !! d = Some kwargs → pool_ok n_jobs → sched ≡ₚ seq 0 (length sigs) →
  (compute_features_2d features_of samples_of cpu_count sched sigs fs f_range
     (Some (KwDict d)) return_samples n_jobs progress st).1
  = unzip_results return_samples
      ((λ sig, compute_features features_of samples_of sig fs f_range return_samples
                 (delete "return_samples" kwargs)) <$> sigs).
Proof.
  intros Hd Hpool Hperm.
  destruct (compute_features_2d_dict_run features_of samples_of cpu_count sched sigs
              fs f_range d return_samples n_jobs progress st kwargs Hd Hpool Hperm)
    as (log & _ & ->).
  simpl. f_equal. by rewrite <- list_fmap_compose.
Qed.

Lemma bind_lift_run {A B} (m : M A) (f : A → result B) (st st' : state)
    (r : result A) :
  m st = (r, st') → ((m ≫= λ a, lift (f a)) st).1 = r ≫= f.
Proof. intros Hm. unfold mbind at 1, M_bind, lift. rewrite Hm. by destruct r. Qed.

(** Unpacking and refolding the results of [shape0 * shape1] tasks:
    entry [(g, s)] of what is returned is the result of task
    [g * shape1 + s]. *)
Lemma reshape_unzip_tasks (sigs : ndarray3) (return_samples : bool) (tasks : list call) :
  2 ≤ shape1 sigs → 0 < shape0 sigs →
  length tasks = shape0 sigs * shape1 sigs →
  ∃ r,
    unzip_results return_samples
      (run_call features_of samples_of return_samples <$> tasks)
    ≫= reshape_returned sigs = Ok r
    ∧ length (returned_features r) = shape0 sigs
    ∧ (return_samples = false → returned_samples r = None)
    ∧ ∀ g s c, g < shape0 sigs → s < shape1 sigs →
        tasks !! (g * shape1 sigs + s) = Some c →
        nested_lookup (returned_features r) g s
        = Some (features_of (call_sig c) (call_fs c) (call_f_range c) (call_kwargs c))
        ∧ (return_samples = true →
           returned_samples r ≫= (λ df_samples, nested_lookup df_samples g s)
           = Some (samples_of (call_sig c) (call_fs c) (call_f_range c)
                     (call_kwargs c))).
Proof.
  intros HS HG Hlen. destruct return_samples.
  - set (results := run_call features_of samples_of true <$> tasks).
    assert (length results = shape0 sigs * shape1 sigs) as Hres.
    { unfold results. by rewrite length_fmap. }
    assert (unzip_results true results
            = Ok (FeaturesSamples (results.*1) (results.*2))) as ->.
    { clearbody results. destruct results; [simpl in Hres; lia|done]. }
    destruct (reshape_df_refold (results.*2) sigs (shape0 sigs) HS)
      as (smp & Hsmp & Hsmp_len & Hsmp_at); [by rewrite length_fmap|].
    destruct (reshape_df_refold (results.*1) sigs (shape0 sigs) HS)
      as (fts & Hfts & Hfts_len & Hfts_at); [by rewrite length_fmap|].
    exists (FeaturesSamples fts smp). csimpl. rewrite Hsmp. csimpl. rewrite Hfts.
    split_and!; [done..|].
    intros g s c Hg Hs Hc.
    destruct (Hfts_at g Hg) as (fchunk & Hfchunk & _ & Hfat).
    destruct (Hsmp_at g Hg) as (schunk & Hschunk & _ & Hsat).
    unfold nested_lookup. simpl. rewrite Hfchunk, Hschunk. simpl.
    rewrite Hfat, Hsat by done. unfold results.
    by rewrite !list_lookup_fmap, Hc.
  - destruct (reshape_df_refold (T := FeatureTable)
                (run_call features_of samples_of false <$> tasks) sigs (shape0 sigs) HS)
      as (fts & Hfts & Hfts_len & Hfts_at); [by rewrite length_fmap|].
    exists (Features fts). unfold unzip_results. csimpl.
    unfold cf_result in *. rewrite Hfts.
    split_and!; [done..|].
    intros g s c Hg Hs Hc.
    destruct (Hfts_at g Hg) as (fchunk & Hfchunk & _ & Hfat).
    unfold nested_lookup. simpl. rewrite Hfchunk. simpl.
    rewrite Hfat by done.
    rewrite list_lookup_fmap, Hc. by split.
Qed.

(** [compute_features_3d] once the kwargs are checked and the flat
    batch has run: the results of the tasks are refolded by group. *)
Lemma compute_features_3d_refolds (sched : list nat) (sigs : ndarray3) (fs : float)
    (f_range : float * float) (kw : option kwargs_3d) (return_samples : bool)
    (n_jobs : Z) (progress : option string) (st st1 st2 : state) (kw2 : kwargs_2d)
    (tasks : list call) :
  check_kwargs_3d sigs kw st = (Ok kw2, st1) →
  compute_features_2d features_of samples_of cpu_count sched (reshape_2d sigs) fs
    f_range (Some kw2) return_samples (resolve_n_jobs cpu_count n_jobs) progress st1
  = (unzip_results return_samples
       (run_call features_of samples_of return_samples <$> tasks), st2) →
  length tasks = shape0 sigs * shape1 sigs →
  2 ≤ shape1 sigs → 0 < shape0 sigs →
  ∃ r,
    (compute_features_3d features_of samples_of cpu_count sched sigs fs f_range kw
       return_samples n_jobs progress st).1 = Ok r
    ∧ length (returned_features r) = shape0 sigs
    ∧ (return_samples = false → returned_samples r = None)
    ∧ ∀ g s c, g < shape0 sigs → s < shape1 sigs →
        tasks !! (g * shape1 sigs + s) = Some c →
        nested_lookup (returned_features r) g s
        = Some (features_of (call_sig c) (call_fs c) (call_f_range c) (call_kwargs c))
        ∧ (return_samples = true →
           returned_samples r ≫= (λ df_samples, nested_lookup df_samples g s)
           = Some (samples_of (call_sig c) (call_fs c) (call_f_range c)
                     (call_kwargs c))).
Proof.
  intros Hcheck Hrun Hlen HS HG.
  destruct (reshape_unzip_tasks sigs return_samples tasks HS HG Hlen)
    as (r & Hr & Hrest).
  exists r. split; [|done].
  erewrite compute_features_3d_after_check by exact Hcheck.
  erewrite bind_lift_run by exact Hrun. exact Hr.
Qed.

Lemma task_lookup (sigs : ndarray3) (fs : float) (f_range : float * float)
    (return_samples : bool) (configs : list (gmap string value))
    (g s : nat) (kwargs : gmap string value) :
  g < shape0 sigs → s < shape1 sigs →
  configs !! (g * shape1 sigs + s) = Some kwargs →
  zip_with (λ sig kwargs, Call sig fs f_range return_samples kwargs) (reshape_2d sigs)
    (delete "return_samples" <$> configs) !! (g * shape1 sigs + s)
  = Some (Call (sig_at sigs g s) fs f_range return_samples
            (delete "return_samples" kwargs)).
Proof.
  intros Hg Hs Hcfg. apply lookup_zip_with_Some.
  eexists _, _. split_and!; [done|by apply reshape_2d_lookup|].
  by rewrite list_lookup_fmap, Hcfg.
Qed.

(** A rectangular nested list, flattened. *)
Lemma concat_uniform_length {A} (n : nat) (xss : list (list A)) :
  Forall (λ xs, length xs = n) xss → length (concat xss) = length xss * n.
Proof.
  induction 1 as [|xs xss Hxs _ IH]; simpl; [done|].
  rewrite length_app. lia.
Qed.

Lemma concat_uniform_lookup {A} (n : nat) (xss : list (list A)) (g s : nat) :
  Forall (λ xs, length xs = n) xss → s < n →
  concat xss !! (g * n + s) = nested_lookup xss g s.
Proof.
  intros Hall Hs. revert g.
  induction Hall as [|xs xss Hxs _ IH]; intros g; simpl.
  - unfold nested_lookup. by rewrite !lookup_nil.
  - destruct g as [|g]; unfold nested_lookup; simpl.
    + rewrite lookup_app_l by lia. done.
    + rewrite lookup_app_r by lia.
      replace (n + g * n + s - length xs) with (g * n + s) by lia.
      apply IH.
Qed.

Lemma Forall2_concat_rows {A B} (P : A → B → Prop) (xss : list (list A))
    (yss : list (list B)) :
  Forall2 (Forall2 P) xss yss → Forall2 P (concat xss) (concat yss).
Proof.
  induction 1 as [|xs ys xss yss Hrow _ IH]; simpl; [done|].
  by apply Forall2_app.
Qed.

Lemma np_shape_nested_rect (dss : list (list nat)) (n m : nat) :
  np_shape_nested dss = Ok (Shape2 n m) →
  length dss = n ∧ Forall (λ row, length row = m) dss.
Proof.
  destruct dss as [|row rows]; simpl; [done|].
  case_bool_decide as Hrows; [|done].
  intros [= <- <-]. split; [done|]. by constructor.
Qed.

(** One signal per group: the chunks are the flat results but the
    last, each in a list of its own. *)
Lemma reshape_df_single_chunks {T} (df_features : list T) (sigs : ndarray3) :
  shape1 sigs = 1 →
  _reshape_df df_features sigs
  = Ok ((λ x, [x]) <$> take (length df_features - 1) df_features).
Proof.
  intros HS. unfold _reshape_df. rewrite HS. unfold py_range, mbind, result_bind.
  rewrite !Nat.div_1_r. f_equal. apply list_eq. intros i.
  rewrite lookup_zip_with, !list_lookup_fmap.
  destruct (decide (i < length df_features - 1)) as [Hi|Hi].
  - rewrite !lookup_seq_lt by lia. csimpl.
    rewrite lookup_take_lt by lia.
    destruct (lookup_lt_is_Some_2 df_features i) as [x Hx]; [lia|].
    rewrite Hx. csimpl. f_equal. unfold py_slice. rewrite Nat.mul_1_r.
    replace (S i - i) with 1 by lia.
    by rewrite (drop_S _ x) by done.
  - rewrite lookup_take_ge by lia.
    rewrite (lookup_seq_ge 0 (length df_features * 1 - 1 + (1 - 1))) by lia.
    by destruct (seq 0 _ !! i).
Qed.

(** ** What [compute_features_2d] returns *)

Lemma unzip_results_features (results : list FeatureTable) :
  unzip_results (FeatureTable := FeatureTable) (SampleTable := SampleTable) false results
  = Ok (Features results).
Proof. done. Qed.

Lemma unzip_results_pairs (results : list (FeatureTable * SampleTable)) :
  results ≠ [] →
  unzip_results true results = Ok (FeaturesSamples (results.*1) (results.*2)).
Proof. by destruct results. Qed.



Lemma fmap_pair_fst {A C D} (f : A → C) (g : A → D) (l : list A) :
  ((λ x, (f x, g x)) <$> l).*1 = f <$> l.
Proof. induction l as [|x l IH]; csimpl; [done|]. by rewrite IH. Qed.

Lemma fmap_pair_snd {A C D} (f : A → C) (g : A → D) (l : list A) :
  ((λ x, (f x, g x)) <$> l).*2 = g <$> l.
Proof. induction l as [|x l IH]; csimpl; [done|]. by rewrite IH. Qed.

(** X13: with one dict for all signals, or with no kwargs at all,
    [compute_features_2d] returns, for every order in which the workers
    complete, the list of the features of each signal in input order,
    each computed with the same keyword arguments: those of the dict
    without its [return_samples] key, or none.  With [return_samples],
    and at least one signal, the list of the samples comes with it. *)
Theorem compute_features_2d_uniform (sched : list nat) (sigs : list signal) (fs : float)
    (f_range : float * float) (kw : option nat) (n_jobs : Z)
    (progress : option string) (st : state) (kwargs : gmap string value) :
  match kw with
  | Some d => heap st !! d = Some kwargs
  | None => kwargs = ∅
  end →
  pool_ok n_jobs → sched ≡ₚ seq 0 (length sigs) →
  let run return_samples :=
    (compute_features_2d features_of samples_of cpu_count sched sigs fs f_range
       (KwDict <$> kw) return_samples n_jobs progress st).1 in
  let features sig := features_of sig fs f_range (delete "return_samples" kwargs) in
  let samples sig := samples_of sig fs f_range (delete "return_samples" kwargs) in
  run false = Ok (Features (features <$> sigs))
  ∧ (sigs ≠ [] → run true = Ok (FeaturesSamples (features <$> sigs) (samples <$> sigs))).
Proof.
  intros Hkw Hpool Hperm run features samples.
  assert (∀ return_samples,
            run return_samples
            = unzip_results return_samples
                ((λ sig, compute_features features_of samples_of sig fs f_range
                           return_samples (delete "return_samples" kwargs)) <$> sigs))
    as Hrun.
  { intros return_samples. unfold run. destruct kw as [d|]; simpl.
    - by apply compute_features_2d_dict_result.
    - subst kwargs. rewrite compute_features_2d_None.
      rewrite (compute_features_2d_dict_result _ _ _ _ _ _ _ _ _ ∅);
        [|apply fresh_dict_lookup|done..].
      by rewrite delete_empty. }
  split.
  - rewrite Hrun. apply unzip_results_features.
  - intros Hsigs. rewrite Hrun.
    rewrite unzip_results_pairs by (by destruct sigs).
    f_equal. f_equal.
    + apply (fmap_pair_fst features samples).
    + apply (fmap_pair_snd features samples).
Qed.


(** X14: on no signals at all, [compute_features_2d] raises with
    [return_samples] (there is nothing to unpack the features and the
    samples from) and returns the empty list without. *)
Theorem compute_features_2d_empty_batch (fs : float) (f_range : float * float)
    (kw : option kwargs_2d) (return_samples : bool) (n_jobs : Z)
    (progress : option string) (st : state) :
  pool_ok n_jobs →
  kwargs_match_2d [] kw →
  Forall (λ d, is_Some (heap st !! d)) (from_option kwargs_refs [] kw) →
  (compute_features_2d features_of samples_of cpu_count [] [] fs f_range kw
     return_samples n_jobs progress st).1
  = if return_samples then Raise UnpackError else Ok (Features []).
Proof.
  intros Hpool Hmatch Hlive.
  assert (∀ tasks : list (cf_result (FeatureTable := FeatureTable)
                            (SampleTable := SampleTable) return_samples),
            tasks = [] →
            unzip_results return_samples tasks
            = if return_samples then Raise UnpackError else Ok (Features [])) as Hunzip.
  { intros tasks ->. by destruct return_samples. }
  destruct kw as [[d|ds]|]; simpl in *.
  - apply Forall_cons in Hlive as [[kwargs Hd] _].
    rewrite (compute_features_2d_dict_result _ _ _ _ _ _ _ _ _ kwargs) by done.
    by apply Hunzip.
  - apply nil_length_inv in Hmatch as ->.
    destruct (compute_features_2d_list_run features_of samples_of cpu_count [] [] fs
                f_range [] return_samples n_jobs progress st [])
      as (log & _ & ->); [done..|].
    by apply Hunzip.
  - rewrite compute_features_2d_None.
    rewrite (compute_features_2d_dict_result _ _ _ _ _ _ _ _ _ ∅);
      [|apply fresh_dict_lookup|done..].
    by apply Hunzip.
Qed.

(** X15: a number of jobs that is neither [-1] nor positive makes
    [compute_features_2d] raise when it opens the pool: by then the
    key [return_samples] is already gone from the dicts of the caller,
    and the routine is not invoked. *)
Theorem compute_features_2d_bad_n_jobs (sched : list nat) (sigs : list signal)
    (fs : float) (f_range : float * float) (kw : kwargs_2d) (return_samples : bool)
    (n_jobs : Z) (progress : option string) (st : state) :
  n_jobs ≠ (-1)%Z → (n_jobs < 1)%Z →
  kwargs_match_2d sigs (Some kw) →
  Forall (λ d, is_Some (heap st !! d)) (kwargs_refs kw) →
  compute_features_2d features_of samples_of cpu_count sched sigs fs f_range (Some kw)
    return_samples n_jobs progress st
  = (Raise PoolSizeError, State (strip_heap (kwargs_refs kw) (heap st)) (calls st)).
Proof.
  intros Hne Hlt Hmatch Hlive.
  unfold compute_features_2d.
  erewrite bind_ok; last first.
  { unfold check_kwargs_2d. destruct kw as [d|ds]; simpl in Hmatch; [done|].
    by rewrite bool_decide_eq_false_2 by (intros ?; done). }
  assert (∀ st', open_pool (resolve_n_jobs cpu_count n_jobs) st'
                 = (Raise PoolSizeError, st')) as Hpool.
  { intros st'. unfold open_pool, resolve_n_jobs.
    rewrite (bool_decide_eq_false_2 (n_jobs = -1)%Z) by done.
    by rewrite bool_decide_eq_true_2. }
  unfold dispatch_2d.
  destruct kw as [d|ds]; simpl in *.
  - apply Forall_cons in Hlive as [[kwargs Hd] _].
    erewrite bind_ok; [|by eapply pop_return_samples_run].
    by apply bind_raise.
  - erewrite bind_ok; [|by apply for_each_pop_run].
    by apply bind_raise.
Qed.

(** X16: [compute_features_3d] with a 1d list of kwargs, one per
    group, on groups of at least two signals: the features come back
    as one list per group, and entry [(g, s)] is what the routine
    computes on signal [(g, s)] with the kwargs of group [g] less the
    key [return_samples]; with [return_samples] the samples come back
    in the same layout, and not at all without. *)
Theorem compute_features_3d_group_kwargs (sched : list nat) (sigs : ndarray3)
    (fs : float) (f_range : float * float) (ds : list nat) (return_samples : bool)
    (n_jobs : Z) (progress : option string) (st : state)
    (configs : list (gmap string value)) :
  length ds = shape0 sigs →
  Forall2 (λ d kwargs, heap st !! d = Some kwargs) ds configs →
  2 ≤ shape1 sigs → 0 < shape0 sigs →
  pool_ok n_jobs →
  sched ≡ₚ seq 0 (shape0 sigs * shape1 sigs) →
  ∃ r,
    (compute_features_3d features_of samples_of cpu_count sched sigs fs f_range
       (Some (Kw3List1 ds)) return_samples n_jobs progress st).1 = Ok r
    ∧ length (returned_features r) = shape0 sigs
    ∧ (return_samples = false → returned_samples r = None)
    ∧ ∀ g s kwargs, g < shape0 sigs → s < shape1 sigs →
        configs !! g = Some kwargs →
        nested_lookup (returned_features r) g s
        = Some (features_of (sig_at sigs g s) fs f_range
                  (delete "return_samples" kwargs))
        ∧ (return_samples = true →
           returned_samples r ≫= (λ df_samples, nested_lookup df_samples g s)
           = Some (samples_of (sig_at sigs g s) fs f_range
                     (delete "return_samples" kwargs))).
Proof.
  intros Hlen Hlive HS HG Hpool Hperm.
  set (flat := concat ((λ y, replicate (shape1 sigs) y) <$> configs)).
  pose proof (Forall2_length _ _ _ Hlive) as Hlen'.
  destruct (compute_features_2d_list_run features_of samples_of cpu_count sched
              (reshape_2d sigs) fs f_range (repeat_kwargs ds sigs) return_samples
              (resolve_n_jobs cpu_count n_jobs) progress st flat)
    as (log & _ & Hrun).
  { unfold repeat_kwargs.
    rewrite concat_replicate_length, reshape_2d_length. by rewrite Hlen. }
  { by apply Forall2_concat_replicate. }
  { by apply pool_ok_resolve. }
  { by rewrite reshape_2d_length. }
  edestruct (compute_features_3d_refolds sched sigs fs f_range (Some (Kw3List1 ds))
               return_samples n_jobs progress st st)
    as (r & Hr & Hfts & Hnone & Hat); [|exact Hrun| |done|done|].
  { unfold check_kwargs_3d, check_kwargs_shape.
    rewrite bool_decide_eq_false_2 by (intros ?; done). reflexivity. }
  { rewrite length_zip_with, reshape_2d_length, length_fmap. unfold flat.
    rewrite concat_replicate_length. lia. }
  exists r. split_and!; [done..|].
  intros g s kwargs Hg Hs Hcfg.
  pose proof (Hat g s (Call (sig_at sigs g s) fs f_range return_samples
                         (delete "return_samples" kwargs)) Hg Hs) as Hc.
  simpl in Hc. apply Hc.
  apply task_lookup; [done..|].
  unfold flat. by rewrite concat_replicate_lookup.
Qed.

(** X17: [compute_features_3d] with a 2d list of kwargs of the shape
    of the first two dimensions of the signals, on groups of at least
    two signals: entry [(g, s)] of the features returned is what the
    routine computes on signal [(g, s)] with the kwargs at [(g, s)]
    less the key [return_samples], and likewise for the samples. *)
Theorem compute_features_3d_signal_kwargs (sched : list nat) (sigs : ndarray3)
    (fs : float) (f_range : float * float) (dss : list (list nat))
    (return_samples : bool) (n_jobs : Z) (progress : option string) (st : state)
    (configs : list (list (gmap string value))) :
  kwargs_match_3d sigs (Some (Kw3List2 dss)) →
  Forall2 (Forall2 (λ d kwargs, heap st !! d = Some kwargs)) dss configs →
  2 ≤ shape1 sigs → 0 < shape0 sigs →
  pool_ok n_jobs →
  sched ≡ₚ seq 0 (shape0 sigs * shape1 sigs) →
  ∃ r,
    (compute_features_3d features_of samples_of cpu_count sched sigs fs f_range
       (Some (Kw3List2 dss)) return_samples n_jobs progress st).1 = Ok r
    ∧ length (returned_features r) = shape0 sigs
    ∧ (return_samples = false → returned_samples r = None)
    ∧ ∀ g s kwargs, g < shape0 sigs → s < shape1 sigs →
        nested_lookup configs g s = Some kwargs →
        nested_lookup (returned_features r) g s
        = Some (features_of (sig_at sigs g s) fs f_range
                  (delete "return_samples" kwargs))
        ∧ (return_samples = true →
           returned_samples r ≫= (λ df_samples, nested_lookup df_samples g s)
           = Some (samples_of (sig_at sigs g s) fs f_range
                     (delete "return_samples" kwargs))).
Proof.
  intros (shape & Hshape & Hmatch) Hlive HS HG Hpool Hperm.
  destruct shape as [n|n m]; simpl in Hmatch.
  { destruct dss; simpl in Hshape; [|by case_bool_decide].
    injection Hshape as <-. lia. }
  destruct Hmatch as [-> ->].
  apply np_shape_nested_rect in Hshape as Hrect. destruct Hrect as [Hrows Hcols].
  assert (Forall (λ row, length row = shape1 sigs) configs) as Hcols'.
  { clear -Hlive Hcols. induction Hlive as [|row cfgs dss configs Hrow _ IH]; [done|].
    apply Forall_cons in Hcols as [Hlen Hcols]. constructor; [|by apply IH].
    apply Forall2_length in Hrow. lia. }
  pose proof (Forall2_length _ _ _ Hlive) as Hrows'.
  destruct (compute_features_2d_list_run features_of samples_of cpu_count sched
              (reshape_2d sigs) fs f_range (concat dss) return_samples
              (resolve_n_jobs cpu_count n_jobs) progress st (concat configs))
    as (log & _ & Hrun).
  { rewrite (concat_uniform_length (shape1 sigs)), reshape_2d_length by done.
    by rewrite Hrows. }
  { by apply Forall2_concat_rows. }
  { by apply pool_ok_resolve. }
  { by rewrite reshape_2d_length. }
  edestruct (compute_features_3d_refolds sched sigs fs f_range (Some (Kw3List2 dss))
               return_samples n_jobs progress st st)
    as (r & Hr & Hfts & Hnone & Hat); [|exact Hrun| |done|done|].
  { unfold check_kwargs_3d. erewrite bind_ok by (unfold lift; by rewrite Hshape).
    unfold check_kwargs_shape.
    rewrite !bool_decide_eq_false_2 by (intros ?; done). reflexivity. }
  { rewrite length_zip_with, reshape_2d_length, length_fmap.
    rewrite (concat_uniform_length (shape1 sigs)) by done. lia. }
  exists r. split_and!; [done..|].
  intros g s kwargs Hg Hs Hcfg.
  pose proof (Hat g s (Call (sig_at sigs g s) fs f_range return_samples
                         (delete "return_samples" kwargs)) Hg Hs) as Hc.
  simpl in Hc. apply Hc.
  apply task_lookup; [done..|].
  by rewrite concat_uniform_lookup.
Qed.

(** X18: [compute_features_3d] with one dict, or with no kwargs, on
    groups of at least two signals: entry [(g, s)] of the features
    returned is what the routine computes on signal [(g, s)] with the
    dict less its key [return_samples], or with no keyword argument,
    and likewise for the samples. *)
Theorem compute_features_3d_uniform (sched : list nat) (sigs : ndarray3)
    (fs : float) (f_range : float * float) (kw : option nat) (return_samples : bool)
    (n_jobs : Z) (progress : option string) (st : state) (kwargs : gmap string value) :
  match kw with
  | Some d => heap st !! d = Some kwargs
  | None => kwargs = ∅
  end →
  2 ≤ shape1 sigs → 0 < shape0 sigs →
  pool_ok n_jobs →
  sched ≡ₚ seq 0 (shape0 sigs * shape1 sigs) →
  ∃ r,
    (compute_features_3d features_of samples_of cpu_count sched sigs fs f_range
       (Kw3Dict <$> kw) return_samples n_jobs progress st).1 = Ok r
    ∧ length (returned_features r) = shape0 sigs
    ∧ (return_samples = false → returned_samples r = None)
    ∧ ∀ g s, g < shape0 sigs → s < shape1 sigs →
        nested_lookup (returned_features r) g s
        = Some (features_of (sig_at sigs g s) fs f_range
                  (delete "return_samples" kwargs))
        ∧ (return_samples = true →
           returned_samples r ≫= (λ df_samples, nested_lookup df_samples g s)
           = Some (samples_of (sig_at sigs g s) fs f_range
                     (delete "return_samples" kwargs))).
Proof.
  intros Hkw HS HG Hpool Hperm.
  set (tasks := (λ sig, Call sig fs f_range return_samples
                          (delete "return_samples" kwargs)) <$> reshape_2d sigs).
  assert (∃ d st1 st2,
            check_kwargs_3d sigs (Kw3Dict <$> kw) st = (Ok (KwDict d), st1)
            ∧ compute_features_2d features_of samples_of cpu_count sched
                (reshape_2d sigs) fs f_range (Some (KwDict d)) return_samples
                (resolve_n_jobs cpu_count n_jobs) progress st1
              = (unzip_results return_samples
                   (run_call features_of samples_of return_samples <$> tasks), st2))
    as (d & st1 & st2 & Hcheck & Hrun).
  { destruct kw as [d|]; simpl in *.
    - destruct (compute_features_2d_dict_run features_of samples_of cpu_count sched
                  (reshape_2d sigs) fs f_range d return_samples
                  (resolve_n_jobs cpu_count n_jobs) progress st kwargs)
        as (log & _ & Hrun); [done|by apply pool_ok_resolve|
                              by rewrite reshape_2d_length|].
      by eexists d, st, _.
    - subst kwargs.
      set (d := fresh (dom (heap st))).
      set (st1 := State (<[d := ∅]> (heap st)) (calls st)).
      destruct (compute_features_2d_dict_run features_of samples_of cpu_count sched
                  (reshape_2d sigs) fs f_range d return_samples
                  (resolve_n_jobs cpu_count n_jobs) progress st1 ∅)
        as (log & _ & Hrun); [apply lookup_insert_eq|by apply pool_ok_resolve|
                              by rewrite reshape_2d_length|].
      by eexists d, st1, _. }
  edestruct (compute_features_3d_refolds sched sigs fs f_range (Kw3Dict <$> kw)
               return_samples n_jobs progress st st1 st2)
    as (r & Hr & Hfts & Hnone & Hat); [exact Hcheck|exact Hrun| |done|done|].
  { unfold tasks. by rewrite length_fmap, reshape_2d_length. }
  exists r. split_and!; [done..|].
  intros g s Hg Hs.
  pose proof (Hat g s (Call (sig_at sigs g s) fs f_range return_samples
                         (delete "return_samples" kwargs)) Hg Hs) as Hc.
  simpl in Hc. apply Hc.
  unfold tasks.
  by rewrite list_lookup_fmap, reshape_2d_lookup.
Qed.

(** X19: on groups of no signal at all, [compute_features_3d] never
    returns a result: whatever the kwargs, the schedule and the number
    of jobs, it raises, at the latest when it refolds the results with
    a step of zero. *)
Theorem compute_features_3d_empty_groups (sched : list nat) (sigs : ndarray3)
    (fs : float) (f_range : float * float) (kw : option kwargs_3d)
    (return_samples : bool) (n_jobs : Z) (progress : option string) (st : state) :
  shape1 sigs = 0 →
  ∃ e, (compute_features_3d features_of samples_of cpu_count sched sigs fs f_range kw
          return_samples n_jobs progress st).1 = Raise e.
Proof.
  intros HS. unfold compute_features_3d. unfold mbind at 1, M_bind.
  destruct (check_kwargs_3d sigs kw st) as [[kw2|e] st1]; [|by exists e].
  unfold mbind at 1, M_bind.
  destruct (compute_features_2d _ _ _ _ _ _ _ _ _ _ _ st1) as [[r|e] st2];
    [|by exists e].
  exists RangeStepZero. unfold lift. simpl.
  destruct r as [df_features|df_features df_samples]; simpl;
    unfold _reshape_df; by rewrite HS.
Qed.

(** X20: on groups of one signal, [compute_features_3d] with one
    dict, or with no kwargs, runs the routine on every one of the
    [shape0] signals but returns the features of the first
    [shape0 - 1] groups only, each in a list of its own. *)
Theorem compute_features_3d_single_signal_groups (sched : list nat) (sigs : ndarray3)
    (fs : float) (f_range : float * float) (kw : option nat) (n_jobs : Z)
    (progress : option string) (st : state) (kwargs : gmap string value) :
  match kw with
  | Some d => heap st !! d = Some kwargs
  | None => kwargs = ∅
  end →
  shape1 sigs = 1 →
  pool_ok n_jobs →
  sched ≡ₚ seq 0 (shape0 sigs) →
  let run := compute_features_3d features_of samples_of cpu_count sched sigs fs
               f_range (Kw3Dict <$> kw) false n_jobs progress st in
  run.1 = Ok (Features ((λ g, [features_of (sig_at sigs g 0) fs f_range
                                  (delete "return_samples" kwargs)])
                          <$> seq 0 (shape0 sigs - 1)))
  ∧ length (calls run.2) = length (calls st) + shape0 sigs.
Proof.
  intros Hkw HS Hpool Hperm run.
  set (tasks := (λ sig, Call sig fs f_range false
                          (delete "return_samples" kwargs)) <$> reshape_2d sigs).
  assert (length (reshape_2d sigs) = shape0 sigs) as Hrows.
  { rewrite reshape_2d_length. lia. }
  assert (∃ d st1 log,
            check_kwargs_3d sigs (Kw3Dict <$> kw) st = (Ok (KwDict d), st1)
            ∧ calls st1 = calls st
            ∧ log ≡ₚ tasks
            ∧ compute_features_2d features_of samples_of cpu_count sched
                (reshape_2d sigs) fs f_range (Some (KwDict d)) false
                (resolve_n_jobs cpu_count n_jobs) progress st1
              = (unzip_results false
                   (run_call features_of samples_of false <$> tasks),
                 State (strip_heap [d] (heap st1)) (calls st1 ++ log)))
    as (d & st1 & log & Hcheck & Hcalls & Hlog & Hrun).
  { destruct kw as [d|]; simpl in *.
    - destruct (compute_features_2d_dict_run features_of samples_of cpu_count sched
                  (reshape_2d sigs) fs f_range d false
                  (resolve_n_jobs cpu_count n_jobs) progress st kwargs)
        as (log & Hlog & Hrun); [done|by apply pool_ok_resolve|by rewrite Hrows|].
      by exists d, st, log.
    - subst kwargs.
      set (d := fresh (dom (heap st))).
      set (st1 := State (<[d := ∅]> (heap st)) (calls st)).
      destruct (compute_features_2d_dict_run features_of samples_of cpu_count sched
                  (reshape_2d sigs) fs f_range d false
                  (resolve_n_jobs cpu_count n_jobs) progress st1 ∅)
        as (log & Hlog & Hrun); [apply lookup_insert_eq|by apply pool_ok_resolve|
                                 by rewrite Hrows|].
      by exists d, st1, log. }
  split.
  - unfold run. erewrite compute_features_3d_after_check by exact Hcheck.
    erewrite bind_lift_run by exact Hrun.
    unfold unzip_results. csimpl. unfold cf_result.
    rewrite reshape_df_single_chunks by done. csimpl. do 2 f_equal.
    rewrite length_fmap. unfold tasks. rewrite length_fmap, Hrows.
    apply list_eq. intros g. rewrite !list_lookup_fmap.
    destruct (decide (g < shape0 sigs - 1)) as [Hg|Hg].
    + rewrite lookup_take_lt by done. rewrite !list_lookup_fmap.
      rewrite lookup_seq_lt by done.
      pose proof (reshape_2d_lookup sigs g 0) as Hrow.
      rewrite HS, Nat.mul_1_r, Nat.add_0_r in Hrow. by rewrite Hrow by lia.
    + rewrite lookup_take_ge by lia. by rewrite lookup_seq_ge by lia.
  - unfold run. erewrite compute_features_3d_after_check by exact Hcheck.
    rewrite bind_lift_state, Hrun. simpl.
    rewrite length_app, Hcalls, Hlog. unfold tasks. by rewrite length_fmap, Hrows.
Qed.

End GroupMore.

Lemma compute_features_2d_uniform_witness :
  let run return_samples :=
    (compute_features_2d ex_features ex_samples 4 [1; 0] ex_rows 1000 (8, 12)%float
       (KwDict <$> Some 0) return_samples (-1) None ex_state).1 in
  let kwargs := <["return_samples" := VBool false]>
                  (<["center_extrema" := VStr "peak"]> ∅) in
  let features sig :=
    ex_features sig 1000 (8, 12)%float (delete "return_samples" kwargs) in
  let samples sig :=
    ex_samples sig 1000 (8, 12)%float (delete "return_samples" kwargs) in
  run false = Ok (Features (features <$> ex_rows))
  ∧ (ex_rows ≠ [] →
     run true = Ok (FeaturesSamples (features <$> ex_rows) (samples <$> ex_rows))).
Proof.
  apply (compute_features_2d_uniform ex_features ex_samples 4 [1; 0] ex_rows 1000
           (8, 12)%float (Some 0) (-1) None ex_state).
  - reflexivity.
  - by left.
  - simpl. apply perm_swap.
Defined.


Lemma compute_features_2d_empty_batch_witness :
  (compute_features_2d ex_features ex_samples 4 [] [] 1000 (8, 12)%float
     (Some (KwDict 1)) true 2 None ex_state).1
  = Raise UnpackError.
Proof.
  apply (compute_features_2d_empty_batch ex_features ex_samples 4 1000 (8, 12)%float
           (Some (KwDict 1)) true 2 None ex_state).
  - right. lia.
  - exact I.
  - repeat constructor. by eexists.
Defined.

Lemma compute_features_2d_bad_n_jobs_witness :
  compute_features_2d ex_features ex_samples 4 [1; 0] ex_rows 1000 (8, 12)%float
    (Some (KwList [0; 1])) true 0 None ex_state
  = (Raise PoolSizeError,
     State (strip_heap (kwargs_refs (KwList [0; 1])) (heap ex_state)) (calls ex_state)).
Proof.
  apply (compute_features_2d_bad_n_jobs ex_features ex_samples 4 [1; 0] ex_rows 1000
           (8, 12)%float (KwList [0; 1]) true 0 None ex_state).
  - lia.
  - lia.
  - reflexivity.
  - repeat constructor; by eexists.
Defined.

Lemma reshape_df_chunks_witness :
  ∃ chunks,
    _reshape_df [10; 20; 30; 40] ex_sigs = Ok chunks
    ∧ length chunks = 2
    ∧ ∀ g, g < 2 →
        ∃ chunk, chunks !! g = Some chunk
                 ∧ length chunk = shape1 ex_sigs
                 ∧ ∀ s, s < shape1 ex_sigs →
                     chunk !! s = [10; 20; 30; 40] !! (g * shape1 ex_sigs + s).
Proof.
  apply (reshape_df_chunks [10; 20; 30; 40] ex_sigs 2).
  - simpl. lia.
  - reflexivity.
Defined.

Lemma reshape_df_single_witness :
  ∃ chunks, _reshape_df [10; 20] ex_sigs_single = Ok chunks
            ∧ length chunks = length [10; 20] - 1.
Proof. apply (reshape_df_single nat [10; 20] ex_sigs_single). reflexivity. Defined.

Lemma compute_features_3d_group_kwargs_witness :
  ∃ r,
    (compute_features_3d ex_features ex_samples 4 [3; 1; 0; 2] ex_sigs 1000
       (8, 12)%float (Some (Kw3List1 [0; 1])) true (-1) None ex_state).1 = Ok r
    ∧ length (returned_features r) = shape0 ex_sigs
    ∧ (true = false → returned_samples r = None)
    ∧ ∀ g s kwargs, g < shape0 ex_sigs → s < shape1 ex_sigs →
        ex_configs !! g = Some kwargs →
        nested_lookup (returned_features r) g s
        = Some (ex_features (sig_at ex_sigs g s) 1000 (8, 12)%float
                  (delete "return_samples" kwargs))
        ∧ (true = true →
           returned_samples r ≫= (λ df_samples, nested_lookup df_samples g s)
           = Some (ex_samples (sig_at ex_sigs g s) 1000 (8, 12)%float
                     (delete "return_samples" kwargs))).
Proof.
  apply (compute_features_3d_group_kwargs ex_features ex_samples 4 [3; 1; 0; 2]
           ex_sigs 1000 (8, 12)%float [0; 1] true (-1) None ex_state ex_configs).
  - reflexivity.
  - repeat constructor.
  - simpl. lia.
  - simpl. lia.
  - by left.
  - simpl. apply (bool_decide_unpack _). vm_compute. exact I.
Defined.

Lemma compute_features_3d_signal_kwargs_witness :
  ∃ r,
    (compute_features_3d ex_features ex_samples 4 [3; 1; 0; 2] ex_sigs 1000
       (8, 12)%float (Some (Kw3List2 [[0; 1]; [1; 0]])) true 2 None ex_state).1 = Ok r
    ∧ length (returned_features r) = shape0 ex_sigs
    ∧ (true = false → returned_samples r = None)
    ∧ ∀ g s kwargs, g < shape0 ex_sigs → s < shape1 ex_sigs →
        nested_lookup [ex_configs; reverse ex_configs] g s = Some kwargs →
        nested_lookup (returned_features r) g s
        = Some (ex_features (sig_at ex_sigs g s) 1000 (8, 12)%float
                  (delete "return_samples" kwargs))
        ∧ (true = true →
           returned_samples r ≫= (λ df_samples, nested_lookup df_samples g s)
           = Some (ex_samples (sig_at ex_sigs g s) 1000 (8, 12)%float
                     (delete "return_samples" kwargs))).
Proof.
  apply (compute_features_3d_signal_kwargs ex_features ex_samples 4 [3; 1; 0; 2]
           ex_sigs 1000 (8, 12)%float [[0; 1]; [1; 0]] true 2 None ex_state
           [ex_configs; reverse ex_configs]).
  - exists (Shape2 2 2). split; [reflexivity|]. split; reflexivity.
  - repeat constructor.
  - simpl. lia.
  - simpl. lia.
  - right. lia.
  - simpl. apply (bool_decide_unpack _). vm_compute. exact I.
Defined.

Lemma compute_features_3d_uniform_witness :
  ∃ r,
    (compute_features_3d ex_features ex_samples 4 [3; 1; 0; 2] ex_sigs 1000
       (8, 12)%float (Kw3Dict <$> Some 1) false (-1) None ex_state).1 = Ok r
    ∧ length (returned_features r) = shape0 ex_sigs
    ∧ (false = false → returned_samples r = None)
    ∧ ∀ g s, g < shape0 ex_sigs → s < shape1 ex_sigs →
        nested_lookup (returned_features r) g s
        = Some (ex_features (sig_at ex_sigs g s) 1000 (8, 12)%float
                  (delete "return_samples" (<["center_extrema" := VStr "trough"]> ∅)))
        ∧ (false = true →
           returned_samples r ≫= (λ df_samples, nested_lookup df_samples g s)
           = Some (ex_samples (sig_at ex_sigs g s) 1000 (8, 12)%float
                     (delete "return_samples"
                        (<["center_extrema" := VStr "trough"]> ∅)))).
Proof.
  apply (compute_features_3d_uniform ex_features ex_samples 4 [3; 1; 0; 2]
           ex_sigs 1000 (8, 12)%float (Some 1) false (-1) None ex_state).
  - reflexivity.
  - simpl. lia.
  - simpl. lia.
  - by left.
  - simpl. apply (bool_decide_unpack _). vm_compute. exact I.
Defined.

Lemma compute_features_3d_empty_groups_witness :
  ∃ e, (compute_features_3d ex_features ex_samples 4 [] (Ndarray3 2 0 3 []) 1000
          (8, 12)%float (Some (Kw3List1 [0; 1])) false 2 None ex_state).1 = Raise e.
Proof.
  apply (compute_features_3d_empty_groups ex_features ex_samples 4 []
           (Ndarray3 2 0 3 [])).
  reflexivity.
Defined.

Lemma compute_features_3d_single_signal_groups_witness :
  let run := compute_features_3d ex_features ex_samples 4 [1; 0] ex_sigs_single 1000
               (8, 12)%float (Kw3Dict <$> Some 0) false (-1) None ex_state in
  run.1 = Ok (Features ((λ g, [ex_features (sig_at ex_sigs_single g 0) 1000
                                 (8, 12)%float
                                 (delete "return_samples"
                                    (<["return_samples" := VBool false]>
                                       (<["center_extrema" := VStr "peak"]> ∅)))])
                          <$> seq 0 (shape0 ex_sigs_single - 1)))
  ∧ length (calls run.2) = length (calls ex_state) + shape0 ex_sigs_single.
Proof.
  apply (compute_features_3d_single_signal_groups ex_features ex_samples 4 [1; 0]
           ex_sigs_single 1000 (8, 12)%float (Some 0) (-1) None ex_state).
  - reflexivity.
  - reflexivity.
  - by left.
  - simpl. apply perm_swap.
Defined.
